(* ===== verification/_CoqProject ===== *)
-Q . S2P
Prelude.v
Evolves.v
CNum.v
Scanf.v
Os.v
Fts.v
ModName.v
Registry.v
Kallsyms.v
SectionAddress.v
ModuleList.v
Kernel.v
Offline.v
FindElf.v
Session.v
