(* ===== verification/Prelude.v ===== *)
(** * Verification of libdwfl's Linux-kernel module discovery

    This development models [src/libdwfl/linux-kernel-modules.c] of
    elfutils, the libdwfl backend that finds the running (or an offline)
    Linux kernel and its modules, and proves what that code does.

    ** The program

    The C file is a set of callbacks that libdwfl's module registry calls.
    They share state only through three things:
    - the cached [uname] release string ([kernel_release], a static
      [struct utsname]);
    - [errno], which several functions return verbatim or set before
      returning [-1] or [DWARF_CB_ABORT];
    - the registry [Dwfl] itself, to which modules are reported with
      [dwfl_report_module], [dwfl_report_elf] and [dwfl_report_offline],
      and whose [modulelist] [dwfl_linux_kernel_report_kernel] reads.
    Every function reads host files: [/proc/kallsyms], [/proc/modules],
    [/sys/module/M/sections/S], the trees under [/lib/modules/R] (through
    fts) and vmlinux images.

    ** Files, in dependency order

    - [Prelude] (this file): the scope [kmod_scope] with the monad
      notations; [exec] (a result or [Undefined why], the C program's
      undefined behaviour kept as an outcome); the state-and-error monad
      [M S A = S -> exec (A * S)] with [lift_fst]; 64-bit wrap-around
      [u64] and page rounding; C string helpers ([streq], [str_has],
      [str_map]); the [kmod] hint database and the tactics
      [run_bind], [run_lift] that step through a monadic run.
    - [Evolves]: what a computation does to its state ([evolves]: a
      preorder between the start and end of every defined run, composed
      along [bind]) and what it returns ([yields]); [star] of a step
      relation.
    - [CNum]: glibc's [strtoull]/[strtoul] on C strings and the digit
      printers of the kernel's formats, with print/parse round trips;
      [str_drop] (a pointer advanced into a C string).
    - [Scanf]: the [sscanf]/[fscanf] engine for the two formats of the
      C file ([parse_format], [vscanf]).
    - [Os]: the host ([world]: files, trees, [uname], page size, the
      debuginfo search) and the process ([pstate]: [errno], descriptors,
      next descriptor, the log of probed paths, the [utsname] cache), with
      [fopen], [open64], [close], [uname], [asprintf], [strdup] as
      monadic operations; the world lists the allocations that fail. A
      stream ([stream]) carries what a read past its contents meets: the
      end of the file, or a read error ([FRegErr] files); the read that
      reaches it sets [feof], or [ferror] and [errno] ([sys_stream_end]).
    - [Fts]: the entries [fts_read] returns for a tree ([fts_walk]).
    - [ModName]: [is_ko]/[ko_modname] (the offline walker's name rule) and
      [subst_name], [alternate_name], [ko_match] of
      [dwfl_linux_kernel_find_elf].
    - [Registry]: the class [Registry] of the registry operations the
      backend calls, the laws [RegistryLaws] the backend's theorems use,
      and [ListRegistry], an implementation from the specification that
      discharges them: unique names, inverted ranges refused, an ELF
      report placed over the range the image's headers give (the input
      [lr_images]) moved by the bias, a file that is not ELF refused;
      [lr_wf] is its invariant. Every client is stated for any lawful
      registry.
    - [Kallsyms]: [intuit_kernel_bounds] ([scan_symbols] is its loop).
    - [SectionAddress]: [dwfl_linux_kernel_module_section_address]
      ([section_address], with [sec_fallbacks] and [trunc_loop]).
    - [ModuleList]: [dwfl_linux_kernel_report_modules] ([modules_loop]).
    - [Kernel]: [kernel_release], [try_kernel_name], [find_kernel_elf],
      [report_kernel] and [dwfl_linux_kernel_report_kernel].
    - [Offline]: [dwfl_linux_kernel_report_offline] ([offline_loop]).
    - [FindElf]: [dwfl_linux_kernel_find_elf] ([find_elf_loop], and the
      same loop as the transition system [fe_step]).
    - [Session]: libdwfl calling the five entry points in any order on
      one process ([session_step]), and what every call preserves.
    Each C function is one definition of the same name (or the name of
    its loop); a nested C function ([report], [subst_name]) is a
    definition of its own used where the C calls it.

    ** The theorems

    - Refinement: each entry point implements a contract written apart
      from it: [resolve_spec] (section addresses), [report_all] (live
      modules), [report_offline_all] over [ko_files] (offline modules),
      [first_match] (find_elf), [kernel_image_spec] (kernel image).
    - Functional behaviour on every branch, errors included: the
      kallsyms bounds and their page rounding; the fallbacks of the
      section-address lookup; the kernel reporter's four ways to answer
      (registry, kallsyms, error, image); the [.ko] name rules.
    - Equivalence and termination: [subst_name]'s [memchr]/[mempcpy]
      loop always finishes within its fuel and equals a character map
      ([subst_name_eq]), so [alternate_name] is always [alt_ref] and the
      theorems on [find_elf] carry no out-of-fuel hypothesis.
    - Invariants and safety: in any session of callbacks a cached
      release is never replaced and every later [kernel_release] returns
      it without [uname] ([session_release_cached], by rule induction on
      [star session_step] with one [evolves] lemma per function; the same
      induction keeps the descriptor table well formed and the probe log
      growing, [session_invariant]);
      with a registry that has the laws of [RegistryLaws], a reported
      module keeps its bounds through the rest of the session, so the
      kernel is reported once ([session_kernel_kept]);
      [dwfl_linux_kernel_report_kernel] is idempotent; defined runs close
      every stream they open; the registry finds what was reported.
    - The reference registry: through any session its names stay unique
      and its ranges well formed ([session_registry_wf]);
      [report_kernel] registers the image it finds over the range its
      ELF headers give ([report_kernel_image_range]) and closes the
      descriptor of a file that is not ELF ([report_kernel_not_elf]).
    - The [fts_read] loop of [find_elf], as a transition system
      ([fe_step]), always reaches the function's [return], with the
      result of [find_elf_loop] ([find_elf_loop_returns]).
    - Read errors: the three functions that read a stream test [ferror]
      and return the failed read's [errno]: [/proc/modules] after its
      lines ([report_modules_read_error]), a malformed last line of
      [/proc/kallsyms] ([intuit_kernel_bounds_read_error]), a section file
      with no number ([section_address_read_error]); a read error between
      complete lines of [/proc/kallsyms] never reaches the test.
    - A [NULL] [Dwfl] ([reg_null]): [report_kernel] tests it, so
      [dwfl_linux_kernel_report_offline] returns [-1] having done nothing,
      while [dwfl_linux_kernel_report_kernel] reads [dwfl->modulelist]
      through it ([report_offline_null_dwfl]).
    - Allocation failures: the [int] [section_address] returns is
      [DWARF_CB_OK], [DWARF_CB_ABORT] or [ENOMEM]; a failed [asprintf]
      in [find_kernel_elf] makes [report_kernel] free an uninitialized
      pointer; [find_elf] closes its descriptor when [strdup] fails;
      [report_offline] fails after reporting the kernel.
    - Undefined behaviour and defects the code has, each proved on a
      concrete input: the [size_t] end-of-file read in
      [intuit_kernel_bounds], the [%128s] overflow (from the raw
      line through the modelled [sscanf]), uninitialized kernel
      bounds under [kptr_restrict], a leaked descriptor, a stale [errno],
      a dangling [*file_name], lost walk errors.

    ** Bounds and fuel

    Machine integers are [Z] with their width written out: [Dwarf_Addr]
    and [size_t] sums wrap modulo [2^64] ([u64]). Only [subst_loop] needs
    fuel: it is given [namelen], and [subst_name_eq] shows running out
    never happens, since each round consumes a character. The other
    loops recurse on the lines of a file or the entries of a walk.

    ** Not modelled

    Memory exhaustion is modelled for [asprintf], [strdup] and
    [fts_open] (the world's [w_nomem]); the claims about the other paths
    assume no allocation fails. A read error is modelled at the end of a
    file's contents, and every read past that point fails again; a
    [fscanf] that converted its number is taken to leave the flags alone
    (the result does not look at them then, and its [errno] is not
    read), and one that returned [EOF] to have met the end. [getline]'s
    own allocation and the parsing of ELF images (the range an image
    spans is an input of the registry, [lr_images]; libdwfl's relocation
    of [ET_REL] files reported offline is not modelled) are outside the
    model; so is
    [dwfl_standard_find_debuginfo]'s search, which is an arbitrary
    function of the [world]. The registry, the debuginfo path default
    and the calling session are outside [src/] and follow the
    specification. *)

From Stdlib Require Import ZArith Lia String Ascii List Bool.
From stdpp Require Import base list strings.

Declare Scope kmod_scope.
Delimit Scope kmod_scope with kmod.

Create HintDb kmod discriminated.
Create Rewrite HintDb kmod_rw.

(** stdpp marks string append [simpl never]; the models compute with it. *)
#[global] Arguments String.append : simpl nomatch.

(** ** 64-bit unsigned arithmetic

    [Dwarf_Addr], [size_t] and [unsigned long] are 64-bit unsigned on the
    hosts this code targets; a value of those types is a [Z] in
    [[0, 2^64)] and every operation that can leave that range is written
    with [u64]. *)

Definition u64 (z : Z) : Z := z mod 2 ^ 64.

(** [(size_t) -1], [ULLONG_MAX], [(Dwarf_Addr) -1l]. *)
Definition U64_MAX : Z := 2 ^ 64 - 1.

Definition in_u64 (z : Z) : Prop := (0 <= z < 2 ^ 64)%Z.

Lemma u64_range z : in_u64 (u64 z).
Proof. unfold in_u64, u64. apply Z.mod_pos_bound. lia. Qed.

Lemma u64_small z : in_u64 z -> u64 z = z.
Proof. unfold in_u64, u64. intros. apply Z.mod_small. lia. Qed.

(** A sum past [2^64] once: the carry is lost. *)
Lemma u64_wrap (z : Z) : (2 ^ 64 <= z < 2 * 2 ^ 64)%Z -> u64 z = (z - 2 ^ 64)%Z.
Proof.
  unfold u64. intros Hz. replace z with ((z - 2 ^ 64) + 1 * 2 ^ 64)%Z at 1 by ring.
  rewrite Z.mod_add by lia. apply Z.mod_small. lia.
Qed.

Lemma U64_MAX_in : in_u64 U64_MAX.
Proof. unfold in_u64, U64_MAX. lia. Qed.

#[export] Hint Resolve u64_range U64_MAX_in : kmod.

(** Clearing the low [k] bits with the mask [-(2^k)] taken modulo
    [2^64], the idiom [x &= -(Dwarf_Addr) page] of the C code. *)
Lemma land_neg_pow2 (k x : Z) :
  (0 <= k <= 64)%Z -> in_u64 x ->
  Z.land x (u64 (- 2 ^ k)) = (x - x mod 2 ^ k)%Z.
Proof.
  unfold in_u64, u64. intros Hk Hx.
  assert (Hm : ((- 2 ^ k) mod 2 ^ 64 = Z.ldiff (Z.ones 64) (Z.ones k))%Z).
  { apply Z.bits_inj'. intros n Hn.
    rewrite Z.ldiff_spec, <- Z.land_ones by lia.
    rewrite Z.land_spec, !Z.testbit_ones by lia.
    replace (- 2 ^ k)%Z with (Z.lnot (Z.ones k)).
    2:{ rewrite Z.ones_equiv. unfold Z.lnot. lia. }
    rewrite Z.lnot_spec, Z.testbit_ones by lia.
    destruct (Z.leb_spec 0 n), (Z.ltb_spec n 64), (Z.ltb_spec n k); simpl; lia. }
  rewrite Hm.
  assert (Hd : (x - x mod 2 ^ k = Z.ldiff x (Z.ones k))%Z).
  { rewrite Z.ldiff_ones_r by lia. rewrite Z.shiftl_mul_pow2, Z.shiftr_div_pow2 by lia.
    rewrite (Z.mod_eq x (2 ^ k)) by (apply Z.pow_nonzero; lia). lia. }
  rewrite Hd. apply Z.bits_inj'. intros n Hn.
  rewrite Z.land_spec, !Z.ldiff_spec, Z.testbit_ones by lia.
  destruct (Z.ltb_spec n 64); simpl.
  - destruct (Z.leb_spec 0 n); simpl; [|lia].
    destruct (Z.testbit x n), (n <? k)%Z; reflexivity.
  - rewrite Bool.andb_false_r.
    assert (Z.testbit x n = false) as ->; [|reflexivity].
    destruct (Z.eq_dec x 0%Z) as [->|Hx0]; [apply Z.testbit_0_l|].
    apply Z.bits_above_log2; [lia|].
    assert (Z.log2 x < 64)%Z; [|lia].
    apply Z.log2_lt_pow2; lia.
Qed.

(** ** Executions that may hit undefined behaviour

    A C function is modelled as a state transformer whose result is either
    defined, or [Undefined] when the C code reads memory it does not own
    (the model says which read). *)

Inductive exec (A : Type) : Type :=
| Done (a : A)
| Undefined (why : string).
Arguments Done {A} a.
Arguments Undefined {A} why.

Definition M (S A : Type) : Type := S -> exec (A * S).

Definition ret {S A} (a : A) : M S A := fun s => Done (a, s).

Definition bind {S A B} (m : M S A) (k : A -> M S B) : M S B :=
  fun s => match m s with
           | Done (a, s') => k a s'
           | Undefined w => Undefined w
           end.

Definition get {S} : M S S := fun s => Done (s, s).
Definition put {S} (s : S) : M S unit := fun _ => Done (tt, s).
Definition modify {S} (f : S -> S) : M S unit := fun s => Done (tt, f s).
Definition undefined {S A} (why : string) : M S A := fun _ => Undefined why.

Notation "'let*' x ':=' m 'in' k" := (bind m (fun x => k))
  (at level 10, x name, m at level 100, k at level 200) : kmod_scope.
Notation "'let*' ' p ':=' m 'in' k" := (bind m (fun x => match x with p => k end))
  (at level 10, p pattern, m at level 100, k at level 200) : kmod_scope.
Notation "m ;; k" := (bind m (fun _ => k))
  (at level 100, k at level 200, right associativity) : kmod_scope.

Open Scope kmod_scope.

Lemma bind_ret_l {S A B} (a : A) (k : A -> M S B) s : bind (ret a) k s = k a s.
Proof. reflexivity. Qed.

Lemma bind_assoc {S A B C} (m : M S A) (k : A -> M S B) (h : B -> M S C) s :
  bind (bind m k) h s = bind m (fun a => bind (k a) h) s.
Proof. unfold bind. destruct (m s) as [[a s']|w]; reflexivity. Qed.

Lemma bind_Done {S A B} (m : M S A) (k : A -> M S B) s a s' :
  m s = Done (a, s') -> bind m k s = k a s'.
Proof. unfold bind. intros ->. reflexivity. Qed.

Lemma bind_Undefined {S A B} (m : M S A) (k : A -> M S B) s w :
  m s = Undefined w -> bind m k s = Undefined w.
Proof. unfold bind. intros ->. reflexivity. Qed.

#[export] Hint Rewrite @bind_ret_l @bind_assoc : kmod_rw.

(** Lifting a computation on one component of a product state. *)
Definition lift_fst {S T A} (m : M S A) : M (S * T) A :=
  fun '(s, t) => match m s with
                 | Done (a, s') => Done (a, (s', t))
                 | Undefined w => Undefined w
                 end.

(** ** C strings

    A NUL-terminated [char *] is a [string] (the model never needs the
    terminator). Characters are compared with [Ascii.eqb]. *)

Definition chr_eqb (a b : ascii) : bool := Ascii.eqb a b.

(** ["
"]. *)
Definition NL : string := String "010"%char EmptyString.

(** [strcmp (a, b) == 0]. *)
Definition streq (a b : string) : bool := String.eqb a b.

(** [strncmp (s, p, strlen p) == 0]: [p] is a prefix of [s]. *)
Definition starts_with (p s : string) : bool := String.prefix p s.

(** The [i]-th character, [None] past the end (where C would read the
    terminating NUL or beyond). *)
Definition char_at (s : string) (i : nat) : option ascii := String.get i s.

Fixpoint str_map (f : ascii -> ascii) (s : string) : string :=
  match s with
  | EmptyString => EmptyString
  | String c r => String (f c) (str_map f r)
  end.

Fixpoint str_has (c : ascii) (s : string) : bool :=
  match s with
  | EmptyString => false
  | String d r => chr_eqb d c || str_has c r
  end.

Lemma chr_eqb_spec a b : reflect (a = b) (chr_eqb a b).
Proof. unfold chr_eqb. apply Ascii.eqb_spec. Qed.

Lemma chr_eqb_refl a : chr_eqb a a = true.
Proof. destruct (chr_eqb_spec a a); congruence. Qed.

Lemma streq_spec a b : reflect (a = b) (streq a b).
Proof. unfold streq. apply String.eqb_spec. Qed.

Lemma str_map_length f s : String.length (str_map f s) = String.length s.
Proof. induction s; simpl; auto. Qed.

Lemma str_map_append f a b : str_map f (a ++ b)%string = (str_map f a ++ str_map f b)%string.
Proof. induction a; simpl; congruence. Qed.

Lemma string_append_length (a b : string) :
  String.length (a ++ b)%string = (String.length a + String.length b)%nat.
Proof. induction a; simpl; auto. Qed.

Lemma string_append_assoc (a b c : string) : (a ++ (b ++ c))%string = ((a ++ b) ++ c)%string.
Proof. induction a; simpl; congruence. Qed.

Lemma string_append_nil_r (a : string) : (a ++ "")%string = a.
Proof. induction a; simpl; congruence. Qed.

Lemma starts_with_append p s : starts_with p (p ++ s)%string = true.
Proof.
  unfold starts_with. induction p as [|c p IH]; simpl.
  - destruct s; reflexivity.
  - destruct (Ascii.ascii_dec c c); [exact IH | congruence].
Qed.

Lemma char_at_append_r (a b : string) i :
  char_at (a ++ b)%string (String.length a + i) = char_at b i.
Proof. induction a; simpl; auto. Qed.

Lemma char_at_append_l (a b : string) i :
  (i < String.length a)%nat -> char_at (a ++ b)%string i = char_at a i.
Proof.
  revert i. induction a as [|c a IH]; intros [|i] Hi; simpl in *; try lia; auto.
  apply IH. lia.
Qed.

#[export] Hint Rewrite str_map_length str_map_append string_append_length
  string_append_nil_r starts_with_append : kmod_rw.

(** Case analysis on the boolean tests of the code. *)
(** A [bind] is a case on its first computation. *)
Lemma bind_unfold {S A B} (m : M S A) (k : A -> M S B) s :
  bind m k s = match m s with Done (a, s') => k a s' | Undefined w => Undefined w end.
Proof. reflexivity. Qed.

Lemma lift_fst_unfold {S T A} (m : M S A) (s : S) (t : T) :
  lift_fst m (s, t) = match m s with Done (a, s') => Done (a, (s', t)) | Undefined w => Undefined w end.
Proof. reflexivity. Qed.

(** Run the first computation of a [bind] in the goal, or in [H], naming
    the equation [E]. *)
Ltac run_bind E :=
  match goal with
  | |- context [bind ?m ?k ?st] => rewrite (bind_unfold m k st); destruct (m st) as [[? ?]|?] eqn:E
  end.

Ltac run_bind_in H E :=
  match type of H with
  | context [bind ?m ?k ?st] => rewrite (bind_unfold m k st) in H; destruct (m st) as [[? ?]|?] eqn:E
  end.

Ltac run_lift E :=
  match goal with
  | H : lift_fst ?m (?s, ?t) = _ |- _ => rewrite (lift_fst_unfold m s t) in H; destruct (m s) as [[? ?]|?] eqn:E
  end.

Ltac kmod_case :=
  repeat match goal with
  | |- context [chr_eqb ?a ?b] => destruct (chr_eqb_spec a b); subst
  | |- context [streq ?a ?b] => destruct (streq_spec a b); subst
  | |- context [Z.eqb ?a ?b] => destruct (Z.eqb_spec a b)
  | |- context [Z.ltb ?a ?b] => destruct (Z.ltb_spec a b)
  | |- context [Z.leb ?a ?b] => destruct (Z.leb_spec a b)
  | |- context [Nat.eqb ?a ?b] => destruct (Nat.eqb_spec a b)
  | |- context [Nat.ltb ?a ?b] => destruct (Nat.ltb_spec a b)
  | |- context [Nat.leb ?a ?b] => destruct (Nat.leb_spec a b)
  end.

(** An [exec] value as a computation that leaves the state alone. *)
Definition lift_exec {S A} (e : exec A) : M S A :=
  fun s => match e with Done a => Done (a, s) | Undefined w => Undefined w end.

(** The last character of a string. *)
Definition last_char (s : string) : option ascii := char_at s (String.length s - 1).

Lemma last_char_append_r (a b : string) :
  b <> EmptyString -> last_char (a ++ b)%string = last_char b.
Proof.
  intros Hb. unfold last_char. rewrite string_append_length.
  destruct b as [|c b]; [congruence|]. simpl String.length.
  replace (String.length a + S (String.length b) - 1)%nat
    with (String.length a + (S (String.length b) - 1))%nat by lia.
  apply char_at_append_r.
Qed.

Lemma last_char_append_l (a b : string) :
  b = EmptyString -> last_char (a ++ b)%string = last_char a.
Proof. intros ->. rewrite string_append_nil_r. reflexivity. Qed.

Lemma char_at_None s i : char_at s i = None -> (String.length s <= i)%nat.
Proof.
  revert i. induction s as [|c s IH]; intros [|i] H; simpl in *; try lia; try discriminate.
  apply IH in H. lia.
Qed.

Lemma starts_with_inv p s : starts_with p s = true -> exists t, s = (p ++ t)%string.
Proof.
  unfold starts_with. revert s. induction p as [|c p IH]; intros s H.
  - exists s. reflexivity.
  - destruct s as [|d s]; [discriminate|]. simpl in H.
    destruct (Ascii.ascii_dec c d) as [->|]; [|discriminate].
    destruct (IH s H) as [t ->]. exists t. reflexivity.
Qed.
