(* ===== verification/Evolves.v ===== *)
(** * What a computation does to its state: preorders along runs

    [evolves Rel m] says that every defined run of [m] relates its start
    state to its end state by [Rel]. For a preorder this composes: [ret]
    is reflexivity, [bind] is transitivity. The library is how [Session]
    shows that every callback of the C file keeps the process state well
    formed, only appends to the log of probed paths, never reuses a
    descriptor number and keeps the cached release: one lemma per libc
    primitive, and the tactic [evolve] for the code between them. *)

From Stdlib Require Import RelationClasses List String.
From S2P Require Import Prelude.

Section Evolves.
Context {S : Type} (Rel : S -> S -> Prop) `{!PreOrder Rel}.

Definition evolves {A} (m : M S A) : Prop :=
  forall s a s', m s = Done (a, s') -> Rel s s'.

Lemma evolves_ret {A} (a : A) : evolves (ret a).
Proof. intros s x s' [= _ <-]. reflexivity. Qed.

Lemma evolves_bind {A B} (m : M S A) (k : A -> M S B) :
  evolves m -> (forall a, evolves (k a)) -> evolves (bind m k).
Proof.
  intros Hm Hk s b s'. unfold bind. destruct (m s) as [[a s1]|w] eqn:E; [|discriminate].
  intros Hrun. transitivity s1; [exact (Hm _ _ _ E) | exact (Hk a _ _ _ Hrun)].
Qed.

Lemma evolves_undefined {A} (why : string) : evolves (fun _ => @Undefined (A * S) why).
Proof. intros s a s' H. discriminate H. Qed.

Lemma evolves_modify (f : S -> S) : (forall s, Rel s (f s)) -> evolves (modify f).
Proof. intros Hf s a s' [= _ <-]. apply Hf. Qed.

(** A computation that leaves the state alone. *)
Lemma evolves_pure {A} (m : M S A) : (forall s a s', m s = Done (a, s') -> s' = s) -> evolves m.
Proof. intros H s a s' E. rewrite (H _ _ _ E). reflexivity. Qed.

End Evolves.

(** ** Product states *)

(** A relation on the first component; the second may change freely. *)
Definition on_fst {S T} (Rel : S -> S -> Prop) (p p' : S * T) : Prop := Rel (fst p) (fst p').

#[export] Instance on_fst_preorder {S T} (Rel : S -> S -> Prop) `{!PreOrder Rel} :
  PreOrder (@on_fst S T Rel).
Proof.
  split; unfold on_fst.
  - intros [s t]. reflexivity.
  - intros [s1 t1] [s2 t2] [s3 t3]. simpl. apply transitivity.
Qed.

Lemma evolves_lift_fst {S T A} (Rel : S -> S -> Prop) (m : M S A) :
  evolves Rel m -> evolves (@on_fst S T Rel) (lift_fst m).
Proof.
  intros Hm [s t] a [s' t']. unfold lift_fst, on_fst. simpl.
  destruct (m s) as [[a' s1]|w] eqn:E; [|discriminate]. intros [= _ <- _]. exact (Hm _ _ _ E).
Qed.

Create HintDb evolve.
#[export] Hint Resolve evolves_lift_fst : evolve.

(** Walk through the code between the primitives: binds, and the cases
    of [match] and [if] on the values computed; the primitives are
    solved from the [evolve] database. ([refine] rather than [apply]:
    [evolves] unfolds to a product, which [apply] would open.) *)
Ltac evolve :=
  repeat first
    [ solve [eauto with evolve]
    | refine (evolves_ret _ _)
    | refine (evolves_undefined _ _)
    | refine (evolves_bind _ _ _ _ _); [| intros ?]
    | refine (evolves_lift_fst _ _ _)
    | match goal with
      | |- evolves _ (match ?x with _ => _ end) => destruct x
      | |- evolves _ (if ?b then _ else _) => destruct b
      end ].

(** ** Sequences of steps *)

(** Zero or more steps of a transition relation. *)
Inductive star {S} (step : S -> S -> Prop) : S -> S -> Prop :=
| star_refl s : star step s s
| star_step s1 s2 s3 : step s1 s2 -> star step s2 s3 -> star step s1 s3.

(** What every step establishes, a sequence of steps establishes. *)
Lemma star_preorder {S} (Rel step : S -> S -> Prop) `{!PreOrder Rel} :
  (forall s s', step s s' -> Rel s s') -> forall s s', star step s s' -> Rel s s'.
Proof.
  intros Hstep s s' Hs. induction Hs as [s|s1 s2 s3 H12 _ IH]; [reflexivity|].
  transitivity s2; [apply Hstep, H12 | exact IH].
Qed.

(** ** What a computation returns *)

(** Every defined run of [m] returns a value satisfying [P]. *)
Definition yields {S A} (P : A -> Prop) (m : M S A) : Prop :=
  forall s a s', m s = Done (a, s') -> P a.

Lemma yields_ret {S A} (P : A -> Prop) (a : A) : P a -> yields P (@ret S A a).
Proof. intros Ha s x s' [= <- _]. exact Ha. Qed.

(** The continuation may use what the first computation yields. *)
Lemma yields_bind {S A B} (Q : A -> Prop) (P : B -> Prop) (m : M S A) (k : A -> M S B) :
  yields Q m -> (forall a, Q a -> yields P (k a)) -> yields P (bind m k).
Proof.
  intros Hm Hk s b s'. unfold bind. destruct (m s) as [[a s1]|w] eqn:E; [|discriminate].
  apply (Hk a (Hm _ _ _ E)).
Qed.

Lemma yields_any {S A} (m : M S A) : yields (fun _ => True) m.
Proof. intros s a s' _. exact I. Qed.

Lemma yields_undefined {S A} (P : A -> Prop) (why : string) : yields P (fun _ : S => Undefined why).
Proof. intros s a s' H. discriminate H. Qed.
