(* ===== verification/CNum.v ===== *)
(** * C number parsing: [strtoull] and [strtoul]

    The C file parses every number it reads with glibc's [strtoull]
    (directly in [intuit_kernel_bounds], through [sscanf]/[fscanf]'s
    [%lu] and [%lx] conversions elsewhere). This file models that libc
    routine on a C string in the "C" locale, and the digit printers used to
    state round trips with the kernel's output formats ([%016lx] in
    [/proc/kallsyms], [0x%lx] and [%u] in [/proc/modules]).

    [strtoull base s = (value, consumed)]: [consumed] is [endptr - nptr];
    it is [0] exactly when no digit was found, and the value is then [0].
    The parser skips white space, accepts one sign, skips a [0x]/[0X]
    prefix in base 16 when a hex digit follows it, and saturates at
    [ULLONG_MAX] on overflow; a negative number is negated modulo
    [2^64]. *)

From Stdlib Require Import ZArith Lia String Ascii List Bool.
From stdpp Require Import base list strings.
From S2P Require Import Prelude.

Local Open Scope Z_scope.

(** [isspace] in the C locale: space, [\t], [\n], [\v], [\f], [\r]. *)
Definition c_isspace (c : ascii) : bool :=
  match nat_of_ascii c with
  | 32%nat | 9%nat | 10%nat | 11%nat | 12%nat | 13%nat => true
  | _ => false
  end.

(** The value of a digit or letter in bases up to 36. *)
Definition digit_val (c : ascii) : option Z :=
  let n := Z.of_nat (nat_of_ascii c) in
  if (48 <=? n) && (n <=? 57) then Some (n - 48)
  else if (97 <=? n) && (n <=? 122) then Some (n - 87)
  else if (65 <=? n) && (n <=? 90) then Some (n - 55)
  else None.

Definition digit_in (base : Z) (c : ascii) : option Z :=
  match digit_val c with
  | Some d => if d <? base then Some d else None
  | None => None
  end.

Definition is_digit_in (base : Z) (c : ascii) : bool :=
  match digit_in base c with Some _ => true | None => false end.

Fixpoint ws_len (s : string) : nat :=
  match s with
  | String c r => if c_isspace c then S (ws_len r) else 0
  | EmptyString => 0
  end.

Fixpoint str_drop (n : nat) (s : string) : string :=
  match n, s with
  | O, _ => s
  | S n', String _ r => str_drop n' r
  | S _, EmptyString => EmptyString
  end.

(** The optional sign: negative?, characters used. *)
Definition sign_len (s : string) : bool * nat :=
  match s with
  | String c _ =>
      if chr_eqb c "-"%char then (true, 1%nat)
      else if chr_eqb c "+"%char then (false, 1%nat)
      else (false, 0%nat)
  | EmptyString => (false, 0%nat)
  end.

(** [0x] or [0X] is consumed in base 16 only when a hex digit follows; when
    none follows, glibc parses the ["0"] alone and leaves [endptr] on the
    [x], which is what parsing from the [0] gives. *)
Definition hex_prefix_len (base : Z) (s : string) : nat :=
  if base =? 16 then
    match s with
    | String z (String x (String c _)) =>
        if chr_eqb z "0"%char && (chr_eqb x "x"%char || chr_eqb x "X"%char)
           && is_digit_in 16 c then 2%nat else 0%nat
    | _ => 0%nat
    end
  else 0%nat.

(** The digit run: accumulated value (unbounded) and its length. *)
Fixpoint digits (base acc : Z) (s : string) : Z * nat :=
  match s with
  | String c r =>
      match digit_in base c with
      | Some d => let '(v, n) := digits base (acc * base + d) r in (v, S n)
      | None => (acc, 0%nat)
      end
  | EmptyString => (acc, 0%nat)
  end.

Definition strtoull (base : Z) (s : string) : Z * nat :=
  let nw := ws_len s in
  let s1 := str_drop nw s in
  let '(neg, ns) := sign_len s1 in
  let s2 := str_drop ns s1 in
  let np := hex_prefix_len base s2 in
  let '(v, nd) := digits base 0 (str_drop np s2) in
  if (nd =? 0)%nat then (0, 0%nat)
  else
    let value := if U64_MAX <? v then U64_MAX
                 else if neg then u64 (- v) else v in
    (value, (nw + ns + np + nd)%nat).

(** [unsigned long] is 64 bits wide: [strtoul] is [strtoull]. *)
Definition strtoul := strtoull.

(** ** Printers for the kernel's output formats *)

Definition digit_char (d : Z) : ascii :=
  ascii_of_nat (Z.to_nat (if d <? 10 then 48 + d else 87 + d)).

(** The [n] low digits of [v] in [base], most significant first, as
    printed by [%0nlx]/[%0nlu]; [n] large enough gives [%lx]/[%lu]. *)
Fixpoint fixed_digits (base : Z) (n : nat) (v : Z) : string :=
  match n with
  | O => EmptyString
  | S n' => String (digit_char ((v / base ^ Z.of_nat n') mod base))
                   (fixed_digits base n' v)
  end.

(** ** Lemmas *)

Lemma digit_val_char d : 0 <= d < 16 -> digit_val (digit_char d) = Some d.
Proof.
  intros Hd.
  assert (d = 0 \/ d = 1 \/ d = 2 \/ d = 3 \/ d = 4 \/ d = 5 \/ d = 6 \/ d = 7 \/
          d = 8 \/ d = 9 \/ d = 10 \/ d = 11 \/ d = 12 \/ d = 13 \/ d = 14 \/ d = 15)
    as Hcases by lia.
  repeat destruct Hcases as [-> | Hcases]; try reflexivity; subst; reflexivity.
Qed.

Lemma digit_in_char base d :
  2 <= base <= 16 -> 0 <= d < base -> digit_in base (digit_char d) = Some d.
Proof.
  intros Hb Hd. unfold digit_in. rewrite digit_val_char by lia.
  destruct (Z.ltb_spec d base); [reflexivity | lia].
Qed.

(** The sixteen characters [digit_char] prints. *)
Definition hex_chars : list ascii :=
  ["0"; "1"; "2"; "3"; "4"; "5"; "6"; "7"; "8"; "9"; "a"; "b"; "c"; "d"; "e"; "f"]%char.

Lemma digit_char_in d : 0 <= d < 16 -> In (digit_char d) hex_chars.
Proof.
  intros Hd.
  assert (d = 0 \/ d = 1 \/ d = 2 \/ d = 3 \/ d = 4 \/ d = 5 \/ d = 6 \/ d = 7 \/
          d = 8 \/ d = 9 \/ d = 10 \/ d = 11 \/ d = 12 \/ d = 13 \/ d = 14 \/ d = 15)
    as Hcases by lia.
  repeat destruct Hcases as [-> | Hcases]; subst; simpl; tauto.
Qed.

(** A property of every hex character holds of every printed digit. *)
Lemma digit_char_prop (P : ascii -> bool) d :
  forallb P hex_chars = true -> 0 <= d < 16 -> P (digit_char d) = true.
Proof.
  intros HP Hd. rewrite forallb_forall in HP. apply HP, digit_char_in, Hd.
Qed.

Lemma digit_char_not_space d : 0 <= d < 16 -> c_isspace (digit_char d) = false.
Proof.
  intros Hd. apply negb_true_iff.
  exact (digit_char_prop (fun c => negb (c_isspace c)) d eq_refl Hd).
Qed.

Lemma digit_char_not_sign d :
  0 <= d < 16 -> chr_eqb (digit_char d) "-"%char = false /\
                 chr_eqb (digit_char d) "+"%char = false /\
                 chr_eqb (digit_char d) "x"%char = false /\
                 chr_eqb (digit_char d) "X"%char = false.
Proof.
  intros Hd.
  pose proof (digit_char_prop (fun c => negb (chr_eqb c "-"%char || chr_eqb c "+"%char ||
                                              chr_eqb c "x"%char || chr_eqb c "X"%char))
                              d eq_refl Hd) as H.
  simpl in H. destruct (chr_eqb (digit_char d) "-"%char), (chr_eqb (digit_char d) "+"%char),
    (chr_eqb (digit_char d) "x"%char), (chr_eqb (digit_char d) "X"%char); easy.
Qed.

(** No printed digit is a newline. *)
Lemma fixed_digits_no_nl base n v :
  2 <= base <= 16 -> str_has "010"%char (fixed_digits base n v) = false.
Proof.
  intros Hb. induction n as [|n IH]; [reflexivity|]. simpl. rewrite IH, orb_false_r.
  apply negb_true_iff.
  apply (digit_char_prop (fun c => negb (chr_eqb c "010"%char))); [reflexivity|].
  pose proof (Z.mod_pos_bound (v / base ^ Z.of_nat n) base). lia.
Qed.

Lemma fixed_digits_length base n v : String.length (fixed_digits base n v) = n.
Proof. induction n; simpl; auto. Qed.

Lemma digit_of_mod base v k : 2 <= base -> 0 <= (v / base ^ k) mod base < base.
Proof. intros. apply Z.mod_pos_bound. lia. Qed.

(** Parsing [n] printed digits continues the accumulator by [base^n]. *)
Lemma digits_fixed base n v acc rest :
  2 <= base <= 16 -> 0 <= v ->
  (forall c r, rest = String c r -> digit_in base c = None) ->
  digits base acc (fixed_digits base n v ++ rest)%string =
    (acc * base ^ Z.of_nat n + v mod base ^ Z.of_nat n, n).
Proof.
  intros Hb Hv Hrest. revert acc. induction n as [|n IH]; intros acc; simpl.
  - destruct rest as [|c r]; simpl.
    + f_equal. rewrite Z.mul_1_r, Z.mod_1_r. lia.
    + rewrite (Hrest c r eq_refl). f_equal. rewrite Z.mul_1_r, Z.mod_1_r. lia.
  - rewrite digit_in_char by (try apply digit_of_mod; lia).
    rewrite IH. f_equal.
    rewrite Nat2Z.inj_succ, Z.pow_succ_r by lia.
    rewrite (Z.mul_comm base (base ^ Z.of_nat n)).
    rewrite Z.rem_mul_r by (try apply Z.pow_nonzero; lia).
    lia.
Qed.

Lemma str_drop_app (a b : string) : str_drop (String.length a) (a ++ b)%string = b.
Proof. induction a; simpl; [destruct b|]; auto. Qed.

Lemma str_drop_0 s : str_drop 0 s = s.
Proof. destruct s; reflexivity. Qed.

Lemma str_drop_length n s : (String.length (str_drop n s) = String.length s - n)%nat.
Proof.
  revert s. induction n as [|n IH]; intros [|c s]; simpl; auto; lia.
Qed.

Lemma digits_length base acc s : (snd (digits base acc s) <= String.length s)%nat.
Proof.
  revert acc. induction s as [|c s IH]; intros acc; simpl; [lia|].
  destruct (digit_in base c); [|simpl; lia].
  specialize (IH (acc * base + z)). destruct (digits base _ s); simpl in *. lia.
Qed.

Lemma ws_len_le s : (ws_len s <= String.length s)%nat.
Proof. induction s; simpl; [lia|]. destruct (c_isspace a); lia. Qed.


Ltac pick_disj := repeat (first [left; reflexivity | right]); reflexivity.

Lemma isspace_cases c : c_isspace c = true ->
  c = " "%char \/ c = "009"%char \/ c = "010"%char \/ c = "011"%char \/
  c = "012"%char \/ c = "013"%char.
Proof.
  intros H. rewrite <- (ascii_nat_embedding c). unfold c_isspace in H.
  destruct (nat_of_ascii c) as [|n]; [discriminate|].
  do 32 (destruct n as [|n]; [try discriminate; pick_disj|]).
  discriminate.
Qed.

Lemma space_not_digit base c : c_isspace c = true -> digit_in base c = None.
Proof.
  intros H. destruct (isspace_cases c H) as [-> | [-> | [-> | [-> | [-> | -> ]]]]]; reflexivity.
Qed.

Lemma space_not_x c :
  c_isspace c = true -> chr_eqb c "x"%char = false /\ chr_eqb c "X"%char = false.
Proof.
  intros H. destruct (isspace_cases c H) as [-> | [-> | [-> | [-> | [-> | -> ]]]]]; split; reflexivity.
Qed.

Lemma digit_val_range c d : digit_val c = Some d -> 0 <= d.
Proof.
  unfold digit_val. generalize (Z.of_nat (nat_of_ascii c)) as n. intros n.
  destruct ((48 <=? n) && (n <=? 57)) eqn:E1;
    [intros [= <-]; apply andb_true_iff in E1 as [E1 _]; apply Z.leb_le in E1; lia|].
  destruct ((97 <=? n) && (n <=? 122)) eqn:E2;
    [intros [= <-]; apply andb_true_iff in E2 as [E2 _]; apply Z.leb_le in E2; lia|].
  destruct ((65 <=? n) && (n <=? 90)) eqn:E3;
    [intros [= <-]; apply andb_true_iff in E3 as [E3 _]; apply Z.leb_le in E3; lia|].
  discriminate.
Qed.

Lemma digit_in_range base c d : digit_in base c = Some d -> 0 <= d < base.
Proof.
  unfold digit_in. destruct (digit_val c) as [d'|] eqn:E; [|discriminate].
  apply digit_val_range in E. destruct (Z.ltb_spec d' base); intros Hs; inversion Hs; lia.
Qed.

Lemma digits_nonneg base acc s : 0 <= acc -> 0 <= fst (digits base acc s).
Proof.
  revert acc. induction s as [|c s IH]; intros acc Hacc; simpl; [lia|].
  destruct (digit_in base c) as [d|] eqn:Hd; simpl; [|lia].
  apply digit_in_range in Hd.
  specialize (IH (acc * base + d) ltac:(nia)). destruct (digits base _ s); simpl in *. lia.
Qed.

(** [strtoull] always returns a value of its 64-bit result type. *)
Lemma strtoull_in_u64 base s : in_u64 (fst (strtoull base s)).
Proof.
  unfold strtoull. destruct (sign_len _) as [neg ns].
  pose proof (digits_nonneg base 0 (str_drop (hex_prefix_len base (str_drop ns (str_drop (ws_len s) s)))
                 (str_drop ns (str_drop (ws_len s) s))) ltac:(lia)) as Hv.
  destruct (digits base 0 _) as [v nd]. simpl in Hv.
  destruct (Nat.eqb_spec nd 0); simpl; [unfold in_u64; lia|].
  destruct (Z.ltb_spec U64_MAX v); [apply U64_MAX_in|].
  destruct neg; [apply u64_range|]. unfold in_u64, U64_MAX in *. lia.
Qed.

Lemma strtoull_no_digits base s : snd (strtoull base s) = 0%nat -> fst (strtoull base s) = 0.
Proof.
  unfold strtoull. destruct (sign_len _) as [neg ns]. destruct (digits base 0 _) as [v nd].
  destruct (Nat.eqb_spec nd 0); simpl; [reflexivity|]. lia.
Qed.

(** What the kernel prints after a number: a separator or nothing. *)
Definition sep_start (rest : string) : Prop :=
  match rest with EmptyString => True | String c _ => c_isspace c = true end.

Lemma hex_prefix_no_x base s :
  (forall x, char_at s 1 = Some x -> chr_eqb x "x"%char = false /\ chr_eqb x "X"%char = false) ->
  hex_prefix_len base s = 0%nat.
Proof.
  intros H. unfold hex_prefix_len. destruct (base =? 16); [|reflexivity].
  destruct s as [|z [|x [|c r]]]; try reflexivity.
  destruct (H x eq_refl) as [-> ->]. rewrite andb_false_r. reflexivity.
Qed.

Lemma fixed_digits_S base n v :
  fixed_digits base (S n) v =
    String (digit_char ((v / base ^ Z.of_nat n) mod base)) (fixed_digits base n v).
Proof. reflexivity. Qed.

Lemma fixed_second_char base n v rest x :
  2 <= base <= 16 -> (1 <= n)%nat -> sep_start rest ->
  char_at (fixed_digits base n v ++ rest)%string 1 = Some x ->
  chr_eqb x "x"%char = false /\ chr_eqb x "X"%char = false.
Proof.
  intros Hb Hn Hr. destruct n as [|[|n]]; [lia| |].
  - destruct rest as [|c r]; simpl; [discriminate|].
    intros [= <-]. apply space_not_x. exact Hr.
  - simpl. intros [= <-].
    destruct (digit_char_not_sign ((v / base ^ Z.of_nat n) mod base)) as (_ & _ & ? & ?);
      [pose proof (digit_of_mod base v (Z.of_nat n)); lia | auto].
Qed.

Lemma fixed_head base n v rest :
  2 <= base <= 16 -> (1 <= n)%nat ->
  ws_len (fixed_digits base n v ++ rest)%string = 0%nat /\
  sign_len (fixed_digits base n v ++ rest)%string = (false, 0%nat).
Proof.
  intros Hb Hn. destruct n as [|n]; [lia|]. rewrite fixed_digits_S. cbn.
  assert (Hd0 : 0 <= (v / base ^ Z.of_nat n) mod base < 16)
    by (pose proof (digit_of_mod base v (Z.of_nat n)); lia).
  destruct (digit_char_not_sign _ Hd0) as (-> & -> & _).
  rewrite (digit_char_not_space _ Hd0). auto.
Qed.

(** Round trip: reading back [n] digits printed in [base] ([%0nlx],
    [%lu], ...) followed by a separator gives the printed number. *)
Lemma strtoull_fixed base n v rest :
  2 <= base <= 16 -> (1 <= n)%nat -> 0 <= v < base ^ Z.of_nat n -> v <= U64_MAX ->
  sep_start rest ->
  strtoull base (fixed_digits base n v ++ rest)%string = (v, n).
Proof.
  intros Hb Hn Hv Hmax Hr.
  destruct (fixed_head base n v rest Hb Hn) as [Hws Hsign].
  unfold strtoull. rewrite Hws, str_drop_0, Hsign. cbn -[digits hex_prefix_len].
  rewrite (hex_prefix_no_x base _ (fun x => fixed_second_char base n v rest x Hb Hn Hr)), str_drop_0.
  rewrite digits_fixed by (try lia; intros c r ->; apply space_not_digit; exact Hr).
  rewrite Z.mod_small by lia.
  destruct (Nat.eqb_spec n 0); [lia|]. cbn -[Z.pow].
  rewrite Z.mul_0_l, Z.add_0_l. destruct (Z.ltb_spec U64_MAX v); [lia|reflexivity].
Qed.

(** The [0x]-prefixed form printed by [/proc/modules]. *)
Lemma strtoull_0x n v rest :
  (1 <= n)%nat -> 0 <= v < 16 ^ Z.of_nat n -> v <= U64_MAX -> sep_start rest ->
  strtoull 16 ("0x" ++ fixed_digits 16 n v ++ rest)%string = (v, (2 + n)%nat).
Proof.
  intros Hn Hv Hmax Hr.
  assert (Hpfx : hex_prefix_len 16 ("0x" ++ fixed_digits 16 n v ++ rest)%string = 2%nat).
  { replace n with (S (n - 1)) by lia. rewrite fixed_digits_S. unfold hex_prefix_len. cbn.
    unfold is_digit_in. rewrite digit_in_char; [reflexivity|lia|]. apply digit_of_mod. lia. }
  assert (Hws : ws_len ("0x" ++ fixed_digits 16 n v ++ rest)%string = 0%nat) by reflexivity.
  assert (Hsign : sign_len ("0x" ++ fixed_digits 16 n v ++ rest)%string = (false, 0%nat))
    by reflexivity.
  unfold strtoull. rewrite Hws, str_drop_0, Hsign. cbn -[hex_prefix_len digits fixed_digits String.append].
  rewrite Hpfx. cbn -[digits fixed_digits].
  rewrite digits_fixed by (try lia; intros c r ->; apply space_not_digit; exact Hr).
  rewrite Z.mod_small, Z.mul_0_l, Z.add_0_l by lia.
  destruct (Nat.eqb_spec n 0); [lia|]. cbn -[Z.pow].
  destruct (Z.ltb_spec U64_MAX v); [lia|]. reflexivity.
Qed.

#[export] Hint Rewrite fixed_digits_length str_drop_0 : kmod_rw.
#[export] Hint Resolve digit_in_char digit_val_char strtoull_in_u64 : kmod.
