(* ===== verification/Scanf.v ===== *)
(** * [sscanf] and [fscanf] on the formats of the C file

    [dwfl_linux_kernel_report_modules] reads each line of [/proc/modules]
    with [sscanf (line, "%128s %lu %*s %*s %*s %" PRIx64 " %*s\n", ...)] and
    [dwfl_linux_kernel_module_section_address] reads a sysfs file with
    [fscanf (f, "%" PRIx64 "\n", addr)]. This file models the part of
    glibc's scanf engine those formats use:
    - [parse_format] turns a C format string into directives (white space,
      ordinary characters, conversions [%s], [%u], [%x] with optional [*],
      field width and [l] length modifiers);
    - [vscanf] runs the directives on the input. It returns what glibc
      returns: the number of assignments, or [EOF] ([-1]) when the input
      ends before the first assignment; and the assigned values in order.
    Numeric conversions follow glibc's [__vfscanf_internal]: an optional
    sign, a [0x] prefix in base 16 that is consumed even when no hex digit
    follows it (the value is then [0]), the digits, and the value computed
    as [strtoul] does (saturating at [ULONG_MAX]). *)

From Stdlib Require Import ZArith Lia String Ascii List Bool.
From stdpp Require Import base list strings.
From S2P Require Import Prelude CNum.

Local Open Scope Z_scope.

Inductive conv : Type :=
| CStr (width : option nat)   (** [%s], [%Ns] *)
| CNum (base : Z).            (** [%u], [%lu] (base 10), [%x], [%lx] (base 16) *)

Inductive directive : Type :=
| DWs                          (** white space in the format *)
| DLit (c : ascii)             (** an ordinary character *)
| DConv (suppress : bool) (k : conv)
| DBad.                        (** a conversion this model does not know *)

Inductive scan_val : Type :=
| VStr (s : string)
| VNum (n : Z).

(** ** Format strings *)

Inductive fstate : Type :=
| FText
| FSpec (suppress : bool) (width : option nat).

Fixpoint parse_format_go (st : fstate) (s : string) : list directive :=
  match s with
  | EmptyString => []
  | String c r =>
      match st with
      | FText =>
          if chr_eqb c "%"%char then parse_format_go (FSpec false None) r
          else if c_isspace c then DWs :: parse_format_go FText r
          else DLit c :: parse_format_go FText r
      | FSpec sup w =>
          if chr_eqb c "*"%char then parse_format_go (FSpec true w) r
          else match digit_in 10 c with
          | Some d =>
              let w' := (10 * match w with Some k => k | None => 0 end + Z.to_nat d)%nat in
              parse_format_go (FSpec sup (Some w')) r
          | None =>
              if chr_eqb c "l"%char then parse_format_go (FSpec sup w) r
              else if chr_eqb c "s"%char then DConv sup (CStr w) :: parse_format_go FText r
              else if chr_eqb c "u"%char then DConv sup (CNum 10) :: parse_format_go FText r
              else if chr_eqb c "x"%char then DConv sup (CNum 16) :: parse_format_go FText r
              else [DBad]
          end
      end
  end.

Definition parse_format (fmt : string) : list directive := parse_format_go FText fmt.

(** ** Conversions *)

(** [%s]: the longest run of non-space characters, at most [width]. *)
Fixpoint scan_word (w : option nat) (s : string) : string * nat :=
  match s with
  | EmptyString => (EmptyString, 0%nat)
  | String c r =>
      if c_isspace c then (EmptyString, 0%nat)
      else match w with
           | Some 0%nat => (EmptyString, 0%nat)
           | Some (S k) => let '(x, n) := scan_word (Some k) r in (String c x, S n)
           | None => let '(x, n) := scan_word None r in (String c x, S n)
           end
  end.

Definition has_0x (s : string) : bool :=
  match s with
  | String z (String x _) => chr_eqb z "0"%char && (chr_eqb x "x"%char || chr_eqb x "X"%char)
  | _ => false
  end.

(** A numeric conversion at a non-space character: [None] is a matching
    failure, otherwise the value and the characters consumed. *)
Definition scan_number (base : Z) (s : string) : option (Z * nat) :=
  let '(neg, ns) := sign_len s in
  let s1 := str_drop ns s in
  let np := if (base =? 16) && has_0x s1 then 2%nat else 0%nat in
  let '(v, nd) := digits base 0 (str_drop np s1) in
  if (np =? 0)%nat && (nd =? 0)%nat then None
  else Some (if U64_MAX <? v then U64_MAX else if neg then u64 (- v) else v,
             (ns + np + nd)%nat).

Definition conv_one (k : conv) (s : string) : option (scan_val * nat) :=
  match k with
  | CStr w => let '(x, n) := scan_word w s in
              if (n =? 0)%nat then None else Some (VStr x, n)
  | CNum base => match scan_number base s with
                 | Some (v, n) => Some (VNum v, n)
                 | None => None
                 end
  end.

(** ** The engine *)

Definition EOF : Z := -1.

Fixpoint vscanf (fmt : list directive) (s : string) (done : Z) : Z * list scan_val :=
  match fmt with
  | [] => (done, [])
  | DWs :: f => vscanf f (str_drop (ws_len s) s) done
  | DLit c :: f =>
      match s with
      | EmptyString => (if done =? 0 then EOF else done, [])
      | String d r => if chr_eqb c d then vscanf f r done else (done, [])
      end
  | DConv sup k :: f =>
      let s1 := str_drop (ws_len s) s in
      match s1 with
      | EmptyString => (if done =? 0 then EOF else done, [])
      | String _ _ =>
          match conv_one k s1 with
          | None => (done, [])
          | Some (v, n) =>
              if sup then vscanf f (str_drop n s1) done
              else let '(r, vs) := vscanf f (str_drop n s1) (done + 1) in (r, v :: vs)
          end
      end
  | DBad :: _ => (done, [])
  end.

(** The C string at a [char *]: the bytes before the first NUL. *)
Fixpoint c_str (s : string) : string :=
  match s with
  | EmptyString => EmptyString
  | String c r => if chr_eqb c "000"%char then EmptyString else String c (c_str r)
  end.

Definition sscanf (fmt input : string) : Z * list scan_val :=
  vscanf (parse_format fmt) (c_str input) 0.

(** [fscanf] on a stream positioned at the start of a file: the same
    engine on the file's contents. *)
Definition fscanf (fmt contents : string) : Z * list scan_val :=
  vscanf (parse_format fmt) contents 0.

(** ** Lemmas *)

(** A token as the kernel prints it: non-empty, no white space. *)
Fixpoint no_ws (s : string) : bool :=
  match s with
  | EmptyString => true
  | String c r => negb (c_isspace c) && no_ws r
  end.

Definition token (s : string) : Prop := s <> EmptyString /\ no_ws s = true.

Lemma ws_len_token t r : token t -> ws_len (t ++ r)%string = 0%nat.
Proof.
  intros [Hne Hw]. destruct t as [|c t]; [congruence|]. simpl in *.
  apply andb_true_iff in Hw as [Hc _]. destruct (c_isspace c); [discriminate|reflexivity].
Qed.

Lemma scan_word_token w t r :
  token t -> sep_start r ->
  (match w with Some k => String.length t <= k | None => True end)%nat ->
  scan_word w (t ++ r)%string = (t, String.length t).
Proof.
  intros [_ Hw] Hr. revert w. induction t as [|c t IH]; intros w Hlen; simpl in *.
  - destruct r as [|c r]; simpl in *; [reflexivity|]. rewrite Hr.
    destruct w as [[|k]|]; reflexivity.
  - apply andb_true_iff in Hw as [Hc Hw]. destruct (c_isspace c); [discriminate|].
    destruct w as [[|k]|]; [lia| |].
    + rewrite (IH Hw (Some k)) by lia. reflexivity.
    + rewrite (IH Hw None) by exact I. reflexivity.
Qed.

Lemma conv_str_token w t r :
  token t -> sep_start r ->
  (match w with Some k => String.length t <= k | None => True end)%nat ->
  conv_one (CStr w) (t ++ r)%string = Some (VStr t, String.length t).
Proof.
  intros Ht Hr Hw. unfold conv_one. rewrite scan_word_token by assumption.
  destruct Ht as [Hne _]. destruct t; [congruence|reflexivity].
Qed.

Lemma has_0x_no_x s :
  (forall x, char_at s 1 = Some x -> chr_eqb x "x"%char = false /\ chr_eqb x "X"%char = false) ->
  has_0x s = false.
Proof.
  intros H. destruct s as [|z [|x r]]; try reflexivity.
  destruct (H x eq_refl) as [Hx HX]. simpl. rewrite Hx, HX. apply andb_false_r.
Qed.

Lemma conv_num_fixed base n v r :
  2 <= base <= 16 -> (1 <= n)%nat -> 0 <= v < base ^ Z.of_nat n -> v <= U64_MAX ->
  sep_start r ->
  conv_one (CNum base) (fixed_digits base n v ++ r)%string = Some (VNum v, n).
Proof.
  intros Hb Hn Hv Hmax Hr.
  destruct (fixed_head base n v r Hb Hn) as [_ Hsign].
  unfold conv_one, scan_number. rewrite Hsign. cbn -[digits has_0x fixed_digits].
  rewrite (has_0x_no_x _ (fun x => fixed_second_char base n v r x Hb Hn Hr)), andb_false_r.
  cbn -[digits fixed_digits].
  rewrite digits_fixed by (try lia; intros c r' ->; apply space_not_digit; exact Hr).
  rewrite Z.mod_small, Z.mul_0_l, Z.add_0_l by lia.
  destruct (Nat.eqb_spec n 0); [lia|]. cbn -[Z.pow].
  destruct (Z.ltb_spec U64_MAX v); [lia|]. reflexivity.
Qed.

Lemma conv_num_0x n v r :
  (1 <= n)%nat -> 0 <= v < 16 ^ Z.of_nat n -> v <= U64_MAX -> sep_start r ->
  conv_one (CNum 16) ("0x" ++ fixed_digits 16 n v ++ r)%string = Some (VNum v, (2 + n)%nat).
Proof.
  intros Hn Hv Hmax Hr.
  remember (fixed_digits 16 n v ++ r)%string as X eqn:HX.
  change ("0x" ++ X)%string with (String "0" (String "x" X)).
  unfold conv_one, scan_number. cbn -[digits]. subst X.
  rewrite digits_fixed by (try lia; intros c r' ->; apply space_not_digit; exact Hr).
  rewrite Z.mod_small, Z.mul_0_l, Z.add_0_l by lia.
  destruct (Z.ltb_spec U64_MAX v); [lia|]. reflexivity.
Qed.

(** One conversion at a non-space character. *)
Lemma vscanf_conv sup k f s v n done :
  ws_len s = 0%nat -> s <> EmptyString -> conv_one k s = Some (v, n) ->
  vscanf (DConv sup k :: f) s done =
    if sup then vscanf f (str_drop n s) done
    else let '(r, vs) := vscanf f (str_drop n s) (done + 1) in (r, v :: vs).
Proof.
  intros Hws Hne Hk. cbn [vscanf]. rewrite Hws, str_drop_0.
  destruct s as [|c s]; [congruence|]. rewrite Hk. reflexivity.
Qed.

Lemma vscanf_ws f s done : vscanf (DWs :: f) s done = vscanf f (str_drop (ws_len s) s) done.
Proof. reflexivity. Qed.

Lemma c_str_no_nul s : str_has "000"%char s = false -> c_str s = s.
Proof.
  induction s as [|c s IH]; simpl; [reflexivity|]. intros H.
  apply orb_false_iff in H as [Hc H]. rewrite Hc, IH by exact H. reflexivity.
Qed.

(** [%Ns] on a token of [N] characters or more: the first [N]. *)
Lemma scan_word_long k t r :
  no_ws t = true -> (k <= String.length t)%nat ->
  exists x, scan_word (Some k) (t ++ r)%string = (x, k) /\ String.length x = k.
Proof.
  revert k. induction t as [|c t IH]; intros k Hw Hk; simpl in *.
  - assert (k = 0%nat) by lia. subst. exists EmptyString.
    destruct r as [|c r]; simpl; [auto|]. destruct (c_isspace c); auto.
  - apply andb_true_iff in Hw as [Hc Hw]. destruct (c_isspace c); [discriminate|].
    destruct k as [|k]; [exists EmptyString; auto|].
    destruct (IH k Hw ltac:(lia)) as (x & -> & Hx). exists (String c x). simpl. auto.
Qed.

(** An assigned [%Ns] first in the format, on a token of [N > 0]
    characters or more: it stores [N] characters. *)
Lemma vscanf_long_str k f t r done :
  token t -> (0 < k <= String.length t)%nat ->
  exists c x vs, vscanf (DConv false (CStr (Some k)) :: f) (t ++ r)%string done = (c, VStr x :: vs) /\
                 String.length x = k.
Proof.
  intros Ht Hk. destruct (scan_word_long k t r (proj2 Ht) ltac:(lia)) as (x & Hs & Hx).
  destruct (vscanf f (str_drop k (t ++ r)) (done + 1)) as [c vs] eqn:Hv.
  exists c, x, vs. split; [|exact Hx].
  rewrite (vscanf_conv false (CStr (Some k)) f _ (VStr x) k); [rewrite Hv; reflexivity | apply ws_len_token, Ht | |].
  - destruct Ht as [Hne _]. destruct t; [congruence | discriminate].
  - unfold conv_one. rewrite Hs. destruct k; [lia | reflexivity].
Qed.

#[export] Hint Rewrite str_drop_app : kmod_rw.

(** [PRIx64] of [<inttypes.h>] on an LP64 glibc host. *)
Definition PRIx64 : string := "lx".
