(* ===== verification/Os.v ===== *)
(** * The host seen by the C file, and the process state

    [world] is what the host offers and the code only reads: the files it
    may open (a [gmap] from path to contents or to the [errno] that opening
    it gives), the directory trees fts walks, the [uname] release, the page
    size, libdwfl's debuginfo search (configured path and resolver), and
    the allocations that fail for want of memory ([w_nomem]: an
    [asprintf] or [strdup] of a given string, an [fts_open] of a root).

    [pstate] is the part of the process the code changes: [errno], the
    open descriptors and streams, the next descriptor number, the log of
    every path handed to [fopen], [open64] or [fts_open] (oldest first),
    and the static [struct utsname] buffer of [kernel_release].

    The libc calls ([fopen], [open64], [close], [fclose], [uname],
    [fts_open]/[fts_read]) are operations of the monad [M pstate] of
    [Prelude]. An open stream ([stream]) is its descriptor, the contents
    its reads return, and what a read past them meets ([stream_end]):
    the end of the file, or a read error with its [errno] (a file of
    [FRegErr], whose every read past the contents fails, as an [EIO] on
    a broken device does). [sys_stream_end] is the read that reaches
    that end: it sets [feof], or [ferror] and [errno]. *)

From Stdlib Require Import ZArith Lia String Ascii List Bool.
From stdpp Require Import base list strings gmap.
From S2P Require Import Prelude.

Local Open Scope Z_scope.

(** ** errno values (Linux) *)
Definition ENOENT : Z := 2.
Definition EIO : Z := 5.
Definition ENOEXEC : Z := 8.
Definition ENOMEM : Z := 12.
Definition EACCES : Z := 13.

(** ** The world *)

Inductive fentry : Type :=
| FReg (contents : string)   (** a readable file *)
| FErr (errno : Z)           (** opening it fails with this errno *)
| FRegErr (contents : string) (errno : positive).
    (** opens, reads [contents], then every read fails with [errno] *)

(** What a read past a stream's contents meets. *)
Inductive stream_end : Type :=
| SEof             (** the end of the file: [feof] *)
| SErr (errno : positive). (** a read error: [ferror], and [errno] (positive) set *)

(** A [FILE *] open for reading. *)
Record stream : Type := mkStream {
  st_fd : Z;            (** its descriptor *)
  st_data : string;     (** what its reads return *)
  st_end : stream_end;  (** what a read past [st_data] meets *)
}.

(** [getline] met the end of the stream while reading the line [l]
    (the last line, without a newline); an empty read met it too. *)
Definition line_reaches_end (l : string) : bool :=
  match last_char l with
  | Some c => negb (chr_eqb c "010"%char)
  | None => true
  end.

(** A directory tree below an fts root, children in directory order. *)
#[local] Unset Elimination Schemes.
Inductive fnode : Type :=
| NFile (name : string)                        (** regular file *)
| NDir (name : string) (children : list fnode) (** readable directory *)
| NUnreadable (name : string) (errno : Z)      (** directory fts cannot read *)
| NNoStat (name : string) (errno : Z)          (** entry whose stat fails *)
| NOther (name : string).                      (** symlink loop, socket, ... *)
#[local] Set Elimination Schemes.

(** Induction on trees, with the children under [Forall]. *)
Definition fnode_ind' (P : fnode -> Prop)
  (Hf : forall name, P (NFile name))
  (Hd : forall name ch, Forall P ch -> P (NDir name ch))
  (Hu : forall name e, P (NUnreadable name e))
  (Hs : forall name e, P (NNoStat name e))
  (Ho : forall name, P (NOther name)) : forall n, P n :=
  fix F n :=
    match n with
    | NFile name => Hf name
    | NDir name ch =>
        Hd name ch ((fix G (l : list fnode) : Forall P l :=
                       match l with
                       | [] => List.Forall_nil P
                       | c :: cs => @List.Forall_cons _ P c cs (F c) (G cs)
                       end) ch)
    | NUnreadable name e => Hu name e
    | NNoStat name e => Hs name e
    | NOther name => Ho name
    end.

(** What [dwfl_standard_find_debuginfo] finds for a file name and an
    optional debuglink name: the path of the file it opened, or the errno
    it leaves. *)
Definition debuginfo_finder : Type := string -> option string -> Z + string.

(** The allocations of the C file that can fail: the string an
    [asprintf] or [strdup] call would build, and the [fts_open] of a root
    (which allocates the [FTS] handle). *)
Inductive alloc : Type :=
| AAsprintf (s : string)
| AStrdup (s : string)
| AFtsOpen (root : string).

#[export] Instance alloc_eq_dec : EqDecision alloc.
Proof. solve_decision. Defined.

Record world : Type := mkWorld {
  w_files : gmap string fentry;
  w_trees : gmap string (list fnode);
  w_uname : option string;
  w_uname_errno : Z;
  w_page_size : Z;
  w_debuginfo_path : option string;
  w_find_debuginfo : debuginfo_finder;
  w_nomem : list alloc;  (** the allocations that fail for want of memory *)
}.

(** ** The process state *)

Record pstate : Type := mkPstate {
  ps_errno : Z;
  ps_fds : list Z;
  ps_next_fd : Z;
  ps_log : list string;
  ps_uts_release : string;
}.

Definition set_errno (e : Z) : M pstate unit :=
  modify (fun s => mkPstate e (ps_fds s) (ps_next_fd s) (ps_log s) (ps_uts_release s)).

Definition get_errno : M pstate Z := fun s => Done (ps_errno s, s).

Definition log_path (p : string) : M pstate unit :=
  modify (fun s => mkPstate (ps_errno s) (ps_fds s) (ps_next_fd s) (ps_log s ++ [p])
                            (ps_uts_release s)).

(** A fresh descriptor, recorded as open. *)
Definition alloc_fd : M pstate Z :=
  fun s => let fd := ps_next_fd s in
           Done (fd, mkPstate (ps_errno s) (fd :: ps_fds s) (fd + 1) (ps_log s)
                              (ps_uts_release s)).

Definition sys_close (fd : Z) : M pstate unit :=
  modify (fun s => mkPstate (ps_errno s) (List.filter (fun x => negb (x =? fd)) (ps_fds s))
                            (ps_next_fd s) (ps_log s) (ps_uts_release s)).

(** ** Streams read by [getline] *)

(** The lines [getline] returns one after the other: each ends with its
    newline, except a last line the file does not terminate. *)
Fixpoint split_lines (s : string) : list string :=
  match s with
  | EmptyString => []
  | String c r =>
      if chr_eqb c "010"%char then String c EmptyString :: split_lines r
      else match split_lines r with
           | [] => [String c EmptyString]
           | l :: ls => String c l :: ls
           end
  end.

(** A line body: no newline in it. *)
Definition no_nl (s : string) : Prop := str_has "010"%char s = false.

(** The static [struct utsname] of [kernel_release]. *)
Definition get_uts_release : M pstate string := fun s => Done (ps_uts_release s, s).

Definition set_uts_release (r : string) : M pstate unit :=
  modify (fun s => mkPstate (ps_errno s) (ps_fds s) (ps_next_fd s) (ps_log s) r).

Section WithWorld.
Variable w : world.

Definition file_lookup (path : string) : Z + string :=
  match w_files w !! path with
  | Some (FReg c) | Some (FRegErr c _) => inr c
  | Some (FErr e) => inl e
  | None => inl ENOENT
  end.

Definition stream_end_of (path : string) : stream_end :=
  match w_files w !! path with
  | Some (FRegErr _ e) => SErr e
  | _ => SEof
  end.

(** [fopen (path, "r")]: a stream, or [NULL] with [errno] set. *)
Definition sys_fopen (path : string) : M pstate (option stream) :=
  log_path path;;
  match file_lookup path with
  | inr c => let* fd := alloc_fd in ret (Some (mkStream fd c (stream_end_of path)))
  | inl e => set_errno e;; ret None
  end.

(** [open64 (path, O_RDONLY)]: a descriptor, or [-1] with [errno] set. *)
Definition sys_open64 (path : string) : M pstate Z :=
  log_path path;;
  match file_lookup path with
  | inr _ => alloc_fd
  | inl e => set_errno e;; ret (-1)
  end.

(** Whether an allocation fails; it then leaves [ENOMEM] in [errno]. *)
Definition alloc_fails (a : alloc) : bool := bool_decide (a ∈ w_nomem w).

(** [asprintf (&p, ...)] building [str]: the string, or [NULL] (a
    negative return) with [errno] [ENOMEM]. *)
Definition sys_asprintf (str : string) : M pstate (option string) :=
  if alloc_fails (AAsprintf str) then set_errno ENOMEM;; ret None else ret (Some str).

(** [strdup (str)]: the copy, or [NULL] with [errno] [ENOMEM]. *)
Definition sys_strdup (str : string) : M pstate (option string) :=
  if alloc_fails (AStrdup str) then set_errno ENOMEM;; ret None else ret (Some str).

(** [uname]: the release, or [None] with [errno] set. *)
Definition sys_uname : M pstate (option string) :=
  match w_uname w with
  | Some r => ret (Some r)
  | None => set_errno (w_uname_errno w);; ret None
  end.
(** [dwfl_standard_find_debuginfo (&fakemod, NULL, NULL, 0, file_name,
    debuglink_file, 0, &debugfname)]: the descriptor of the file it
    opened and that file's name, or [-1] with [errno] set. *)
Definition sys_find_debuginfo (file_name : string) (debuglink : option string)
  : M pstate (Z * option string) :=
  match w_find_debuginfo w file_name debuglink with
  | inr path => log_path path;; let* fd := alloc_fd in ret (fd, Some path)
  | inl e => set_errno e;; ret (-1, None)
  end.
End WithWorld.

(** The [errno] of a read that failed at the end of a stream, if a read
    reached it ([at_end]) and the stream ends in an error. *)
Definition read_failure (fin : stream_end) (at_end : bool) : option Z :=
  if at_end then match fin with SErr e => Some (Zpos e) | SEof => None end else None.

(** The flags [(ferror, feof)] of a stream once its reads are over:
    none unless a read reached the end ([at_end]); the read that failed
    there left its [errno]. *)
Definition sys_stream_end (f : stream) (at_end : bool) : M pstate (bool * bool) :=
  if at_end then
    match st_end f with
    | SEof => ret (false, true)
    | SErr e => set_errno (Zpos e);; ret (true, false)
    end
  else ret (false, false).

(** ** Lemmas on the libc calls *)

Lemma sys_fopen_ok w path c s :
  file_lookup w path = inr c ->
  sys_fopen w path s =
    Done (Some (mkStream (ps_next_fd s) c (stream_end_of w path)),
          mkPstate (ps_errno s) (ps_next_fd s :: ps_fds s) (ps_next_fd s + 1)
                   (ps_log s ++ [path]) (ps_uts_release s)).
Proof. intros H. unfold sys_fopen, bind, log_path, modify. simpl. rewrite H. reflexivity. Qed.

Lemma sys_fopen_err w path e s :
  file_lookup w path = inl e ->
  sys_fopen w path s =
    Done (None, mkPstate e (ps_fds s) (ps_next_fd s) (ps_log s ++ [path]) (ps_uts_release s)).
Proof. intros H. unfold sys_fopen, bind, log_path, modify. simpl. rewrite H. reflexivity. Qed.

Lemma bind_fopen_ok {A} w p c (k : option stream -> M pstate A) s :
  file_lookup w p = inr c ->
  bind (sys_fopen w p) k s =
    k (Some (mkStream (ps_next_fd s) c (stream_end_of w p)))
      (mkPstate (ps_errno s) (ps_next_fd s :: ps_fds s) (ps_next_fd s + 1)
                (ps_log s ++ [p]) (ps_uts_release s)).
Proof. intros H. apply bind_Done, sys_fopen_ok, H. Qed.

Lemma bind_fopen_err {A} w p e (k : option stream -> M pstate A) s :
  file_lookup w p = inl e ->
  bind (sys_fopen w p) k s =
    k None (mkPstate e (ps_fds s) (ps_next_fd s) (ps_log s ++ [p]) (ps_uts_release s)).
Proof. intros H. apply bind_Done, sys_fopen_err, H. Qed.

Lemma bind_lift_fopen_ok {T A} w p c (k : option stream -> M (pstate * T) A) s t :
  file_lookup w p = inr c ->
  bind (lift_fst (sys_fopen w p)) k (s, t) =
    k (Some (mkStream (ps_next_fd s) c (stream_end_of w p)))
      (mkPstate (ps_errno s) (ps_next_fd s :: ps_fds s) (ps_next_fd s + 1)
                (ps_log s ++ [p]) (ps_uts_release s), t).
Proof. intros H. unfold bind at 1, lift_fst at 1. cbv beta iota. rewrite (sys_fopen_ok w p c s H). reflexivity. Qed.

Lemma bind_lift_fopen_err {T A} w p e (k : option stream -> M (pstate * T) A) s t :
  file_lookup w p = inl e ->
  bind (lift_fst (sys_fopen w p)) k (s, t) =
    k None (mkPstate e (ps_fds s) (ps_next_fd s) (ps_log s ++ [p]) (ps_uts_release s), t).
Proof. intros H. unfold bind at 1, lift_fst at 1. cbv beta iota. rewrite (sys_fopen_err w p e s H). reflexivity. Qed.

Lemma sys_stream_end_ok f at_end s :
  read_failure (st_end f) at_end = None -> sys_stream_end f at_end s = Done ((false, at_end), s).
Proof. unfold read_failure, sys_stream_end. destruct at_end, (st_end f); [reflexivity|discriminate|reflexivity..]. Qed.

Lemma sys_stream_end_fail f at_end e s :
  read_failure (st_end f) at_end = Some e ->
  sys_stream_end f at_end s =
    Done ((true, false), mkPstate e (ps_fds s) (ps_next_fd s) (ps_log s) (ps_uts_release s)).
Proof. unfold read_failure, sys_stream_end. destruct at_end, (st_end f); try discriminate. intros [= ->]. reflexivity. Qed.

Lemma read_failure_pos fin at_end e : read_failure fin at_end = Some e -> 0 < e.
Proof. unfold read_failure. destruct at_end, fin; try discriminate. intros [= <-]. lia. Qed.

(** A line read up to its newline did not meet the end of the stream. *)
Lemma line_reaches_end_nl b : line_reaches_end (b ++ NL)%string = false.
Proof. unfold line_reaches_end. rewrite last_char_append_r by discriminate. reflexivity. Qed.

(** Closing a descriptor that is not open changes nothing. *)
Lemma filter_not_in (fd : Z) (fds : list Z) :
  ~ In fd fds -> List.filter (fun x => negb (x =? fd)) fds = fds.
Proof.
  induction fds as [|x fds IH]; intros Hn; cbn [List.filter]; [reflexivity|].
  destruct (Z.eqb_spec x fd); [subst; simpl in Hn; tauto|].
  cbn [negb]. f_equal. apply IH. simpl in Hn. tauto.
Qed.

(** Closing the descriptor just allocated gives back the descriptor set. *)
Lemma close_fresh (fd : Z) (fds : list Z) :
  ~ In fd fds -> List.filter (fun x => negb (x =? fd)) (fd :: fds) = fds.
Proof.
  intros Hn. cbn [List.filter]. rewrite Z.eqb_refl. cbn [negb]. apply filter_not_in, Hn.
Qed.

(** Descriptors below [ps_next_fd]: the fresh one is not open yet. *)
Definition fds_below (s : pstate) : Prop := Forall (fun fd => fd < ps_next_fd s) (ps_fds s).

Lemma fds_below_fresh s : fds_below s -> ~ In (ps_next_fd s) (ps_fds s).
Proof.
  unfold fds_below. rewrite List.Forall_forall. intros H Hin. specialize (H _ Hin). lia.
Qed.

Lemma bind_get_errno {A} (k : Z -> M pstate A) s : bind get_errno k s = k (ps_errno s) s.
Proof. reflexivity. Qed.

Lemma split_lines_line b t :
  no_nl b -> split_lines ((b ++ NL) ++ t)%string = (b ++ NL)%string :: split_lines t.
Proof.
  unfold no_nl. induction b as [|c b IH]; intros Hb; [reflexivity|].
  simpl in Hb. apply orb_false_iff in Hb as [Hc Hb].
  cbn [String.append split_lines]. rewrite Hc. rewrite IH by exact Hb. reflexivity.
Qed.

(** A last line without newline is read whole. *)
Lemma split_lines_partial b : no_nl b -> b <> EmptyString -> split_lines b = [b].
Proof.
  unfold no_nl. induction b as [|c b IH]; intros Hb Hne; [congruence|].
  simpl in Hb. apply orb_false_iff in Hb as [Hc Hb].
  cbn [split_lines]. rewrite Hc. destruct b as [|d b]; [reflexivity|].
  rewrite IH by (exact Hb || discriminate). reflexivity.
Qed.

Lemma char_at_has s i c : char_at s i = Some c -> str_has c s = true.
Proof.
  unfold char_at. revert i. induction s as [|d s IH]; intros i H; [discriminate|].
  cbn [str_has]. destruct i as [|i]; cbn in H.
  - injection H as ->. rewrite chr_eqb_refl. reflexivity.
  - rewrite (IH i H). apply orb_true_r.
Qed.

(** [getline] meets the end of the stream on a last line without newline. *)
Lemma line_reaches_end_partial b : no_nl b -> b <> EmptyString -> line_reaches_end b = true.
Proof.
  intros Hb Hne. unfold line_reaches_end, last_char.
  destruct (char_at b (String.length b - 1)) as [c|] eqn:E.
  - destruct (chr_eqb_spec c "010"%char) as [->|]; [|reflexivity].
    unfold no_nl in Hb. rewrite (char_at_has _ _ _ E) in Hb. discriminate.
  - apply char_at_None in E. destruct b; [congruence|]. simpl in E. lia.
Qed.

Lemma str_has_app c x y : str_has c (x ++ y)%string = str_has c x || str_has c y.
Proof. induction x as [|d x IH]; simpl; [reflexivity|]. rewrite IH. apply orb_assoc. Qed.

(** ** Allocations *)

(** Without memory exhaustion no allocation fails. *)
Lemma alloc_fails_none w a : w_nomem w = [] -> alloc_fails w a = false.
Proof. intros H. unfold alloc_fails. rewrite H. apply bool_decide_eq_false. set_solver. Qed.

Lemma alloc_fails_nonempty w a : alloc_fails w a = true -> w_nomem w <> [].
Proof. unfold alloc_fails. intros H E. rewrite E in H. apply bool_decide_eq_true in H. set_solver. Qed.

Lemma alloc_fails_in w a : a ∈ w_nomem w -> alloc_fails w a = true.
Proof. intros H. unfold alloc_fails. apply bool_decide_eq_true, H. Qed.

(** The state [set_errno ENOMEM] leaves. *)
Definition nomem_state (s : pstate) : pstate :=
  mkPstate ENOMEM (ps_fds s) (ps_next_fd s) (ps_log s) (ps_uts_release s).

Lemma sys_asprintf_ok w str s :
  alloc_fails w (AAsprintf str) = false -> sys_asprintf w str s = Done (Some str, s).
Proof. intros H. unfold sys_asprintf. rewrite H. reflexivity. Qed.

Lemma sys_asprintf_fail w str s :
  alloc_fails w (AAsprintf str) = true -> sys_asprintf w str s = Done (None, nomem_state s).
Proof. intros H. unfold sys_asprintf. rewrite H. reflexivity. Qed.

Lemma bind_asprintf_ok {A} w str (k : option string -> M pstate A) s :
  alloc_fails w (AAsprintf str) = false -> bind (sys_asprintf w str) k s = k (Some str) s.
Proof. intros H. apply bind_Done, sys_asprintf_ok, H. Qed.

Lemma sys_strdup_ok w str s :
  alloc_fails w (AStrdup str) = false -> sys_strdup w str s = Done (Some str, s).
Proof. intros H. unfold sys_strdup. rewrite H. reflexivity. Qed.

Lemma sys_strdup_fail w str s :
  alloc_fails w (AStrdup str) = true -> sys_strdup w str s = Done (None, nomem_state s).
Proof. intros H. unfold sys_strdup. rewrite H. reflexivity. Qed.

#[export] Hint Resolve alloc_fails_none : kmod.
