(* ===== verification/Fts.v ===== *)
(** * Directory walks: glibc's [fts_open] and [fts_read]

    [dwfl_linux_kernel_report_offline] and [dwfl_linux_kernel_find_elf]
    walk a module tree with [fts_open (dirs, FTS_LOGICAL | FTS_NOSTAT,
    NULL)] and read entries until [fts_read] returns [NULL]. This file
    gives the sequence of entries such a walk returns for a tree of the
    world ([w_trees] holds the children of each root directory):
    - the root first as [FTS_D], then its children in directory order,
      then the root again as [FTS_DP] (post-order);
    - a regular file as [FTS_F] ([FTS_NOSTAT] may give [FTS_NSOK]
      instead; the C file treats both alike);
    - a directory that cannot be read as [FTS_D], then as [FTS_DNR] with
      the [errno] of [opendir] ([fts_build] fails after the pre-order
      visit);
    - an entry whose [stat] fails as [FTS_NS] with its [errno], and a root
      that does not exist as [FTS_NS] with [ENOENT];
    - anything else (a dangling link, a device) as another kind.
    [FTS_LOGICAL] implies [FTS_NOCHDIR], so [fts_accpath] is [fts_path];
    a child's path is its parent's, a [/] unless the parent's ends with
    one, and its name. [fts_open] itself fails only when memory runs
    out: [sys_fts_open] returns [NULL] with [ENOMEM] when the world lists
    its root among the failing allocations. *)

From Stdlib Require Import ZArith Lia String Ascii List Bool.
From stdpp Require Import base list strings gmap.
From S2P Require Import Prelude Os.

Local Open Scope Z_scope.

Inductive fts_info : Type :=
| FTS_D | FTS_DP | FTS_F | FTS_NSOK | FTS_DNR | FTS_NS | FTS_ERR | FTS_SL | FTS_DEFAULT.

Record ftsent : Type := mkFtsent {
  fts_info_of : fts_info;
  fts_name : string;
  fts_path : string;
  fts_errno : Z;
}.

(** [NAPPEND] and the [/] of [fts_build]. *)
Definition fts_join (dir name : string) : string :=
  match last_char dir with
  | Some "/"%char => (dir ++ name)%string
  | _ => (dir ++ "/" ++ name)%string
  end.

Fixpoint fts_node (dir : string) (n : fnode) : list ftsent :=
  match n with
  | NFile name => [mkFtsent FTS_F name (fts_join dir name) 0]
  | NDir name ch =>
      let p := fts_join dir name in
      mkFtsent FTS_D name p 0 ::
        (fix go (l : list fnode) : list ftsent :=
           match l with [] => [] | c :: cs => fts_node p c ++ go cs end) ch
        ++ [mkFtsent FTS_DP name p 0]
  | NUnreadable name e =>
      let p := fts_join dir name in [mkFtsent FTS_D name p 0; mkFtsent FTS_DNR name p e]
  | NNoStat name e => [mkFtsent FTS_NS name (fts_join dir name) e]
  | NOther name => [mkFtsent FTS_DEFAULT name (fts_join dir name) 0]
  end.

Definition fts_children (dir : string) (ch : list fnode) : list ftsent :=
  flat_map (fts_node dir) ch.

(** Every entry [fts_read] returns for the root [root], in order. *)
Definition fts_walk (w : world) (root : string) : list ftsent :=
  match w_trees w !! root with
  | Some ch => mkFtsent FTS_D root root 0 :: fts_children root ch ++ [mkFtsent FTS_DP root root 0]
  | None => [mkFtsent FTS_NS root root ENOENT]
  end.

(** [fts_open] on one root: the entries its reads will return, or [NULL]
    with [errno] [ENOMEM] when the handle cannot be allocated. *)
Definition sys_fts_open (w : world) (root : string) : M pstate (option (list ftsent)) :=
  log_path root;;
  if alloc_fails w (AFtsOpen root) then set_errno ENOMEM;; ret None
  else ret (Some (fts_walk w root)).

(** A regular file as the C file's [case FTS_F: case FTS_NSOK:] sees it. *)
Definition fts_is_file (i : fts_info) : bool :=
  match i with FTS_F | FTS_NSOK => true | _ => false end.

(** [case FTS_ERR: case FTS_DNR: case FTS_NS:]. *)
Definition fts_is_error (i : fts_info) : bool :=
  match i with FTS_ERR | FTS_DNR | FTS_NS => true | _ => false end.

(** ** Lemmas *)

Lemma fts_node_dir dir name ch :
  fts_node dir (NDir name ch) =
    mkFtsent FTS_D name (fts_join dir name) 0 ::
      fts_children (fts_join dir name) ch ++ [mkFtsent FTS_DP name (fts_join dir name) 0].
Proof.
  reflexivity.
Qed.

Lemma fts_children_app dir l1 l2 :
  fts_children dir (l1 ++ l2) = fts_children dir l1 ++ fts_children dir l2.
Proof. unfold fts_children. apply flat_map_app. Qed.

Lemma fts_join_plain dir name :
  last_char dir <> Some "/"%char -> fts_join dir name = (dir ++ "/" ++ name)%string.
Proof.
  unfold fts_join. destruct (last_char dir) as [c|]; [|reflexivity].
  intros Hc. destruct (chr_eqb_spec c "/"%char); [subst; congruence|].
  destruct c as [[] [] [] [] [] [] [] []]; try reflexivity; congruence.
Qed.

Lemma fts_walk_root w root ch :
  w_trees w !! root = Some ch ->
  fts_walk w root =
    mkFtsent FTS_D root root 0 :: fts_children root ch ++ [mkFtsent FTS_DP root root 0].
Proof. unfold fts_walk. intros ->. reflexivity. Qed.

Lemma sys_fts_open_run w root s :
  alloc_fails w (AFtsOpen root) = false ->
  sys_fts_open w root s =
    Done (Some (fts_walk w root), mkPstate (ps_errno s) (ps_fds s) (ps_next_fd s) (ps_log s ++ [root])
                                           (ps_uts_release s)).
Proof. intros H. unfold sys_fts_open, bind, log_path, modify. simpl. rewrite H. reflexivity. Qed.

Lemma sys_fts_open_fail w root s :
  alloc_fails w (AFtsOpen root) = true ->
  sys_fts_open w root s =
    Done (None, mkPstate ENOMEM (ps_fds s) (ps_next_fd s) (ps_log s ++ [root]) (ps_uts_release s)).
Proof. intros H. unfold sys_fts_open, bind, log_path, modify. simpl. rewrite H. reflexivity. Qed.
