(* ===== verification/ModName.v ===== *)
(** * Module names and [.ko] file names

    Two pieces of the C file relate module names to file names:
    - [dwfl_linux_kernel_report_offline] (C lines 235-252) takes a file
      whose name ends in [.ko] and derives the module name as the kernel
      makefiles derive [KBUILD_MODNAME]: the name without [.ko], each [-]
      and [,] replaced by [_] ([is_ko], [ko_modname]);
    - [dwfl_linux_kernel_find_elf] (C lines 427-461) computes an
      [alternate_name] with the nested function [subst_name], which copies
      the module name replacing each [from] by [to] with [memchr] and
      [mempcpy], and accepts a file [NAME.ko] when [NAME] is the module
      name or the alternate one ([ko_match]).

    [subst_name] follows the C: [memchr] finds the next [from] in the rest
    of the name, [mempcpy] copies what precedes it. The loop runs at most
    [namelen] times: [subst_loop] takes that as fuel and [None] is running
    out of it, which [subst_name_eq] shows never happens; [alternate_name]
    is then always [alt_ref], the reference the clients are stated with. *)

From Stdlib Require Import ZArith Lia String Ascii List Bool.
From stdpp Require Import base list strings.
From S2P Require Import Prelude CNum.

Local Open Scope Z_scope.

(** ** [.ko] files of the offline walk *)

(** [f->fts_namelen > 3 && !memcmp (f->fts_name + f->fts_namelen - 3, ".ko", 4)]:
    the last three characters are [.ko] and the NUL follows them. *)
Definition is_ko (name : string) : bool :=
  (3 <? String.length name)%nat &&
  streq (String.substring (String.length name - 3) 3 name) ".ko".

(** [name[i] = fts_name[i] == '-' || fts_name[i] == ',' ? '_' : fts_name[i]]. *)
Definition ko_char (c : ascii) : ascii :=
  if chr_eqb c "-"%char || chr_eqb c ","%char then "_"%char else c.

Definition ko_modname (fname : string) : string :=
  str_map ko_char (String.substring 0 (String.length fname - 3) fname).

(** ** [subst_name] *)

(** [memchr (n, c, len)] on the rest of the name: the offset of the first
    [c]. *)
Fixpoint memchr (s : string) (c : ascii) : option nat :=
  match s with
  | EmptyString => None
  | String d r => if chr_eqb d c then Some 0%nat else option_map S (memchr r c)
  end.

(** The [while] loop of [subst_name]: [rest] is the name from [n] on, [a]
    what has been written to [alternate_name]. *)
Fixpoint subst_loop (fuel : nat) (from to : ascii) (rest a : string) : option string :=
  match memchr rest from with
  | Some k =>
      match fuel with
      | O => None
      | S f => subst_loop f from to (str_drop (S k) rest)
                          (a ++ String.substring 0 k rest ++ String to EmptyString)%string
      end
  | None => Some (a ++ rest)%string
  end.

(** [subst_name (from, to)]: whether it returned [true], and the contents
    of [alternate_name] it wrote (nothing when it returned [false]). *)
Definition subst_name (module_name : string) (from to : ascii) : option (bool * string) :=
  match memchr module_name from with
  | None => Some (false, EmptyString)
  | Some k =>
      match subst_loop (String.length module_name) from to (str_drop (S k) module_name)
              (String.substring 0 k module_name ++ String to EmptyString)%string with
      | Some a => Some (true, a)
      | None => None
      end
  end.

(** [if (!subst_name ('-', '_') && !subst_name ('_', '-')) alternate_name[0] = '\0';] *)
Definition alternate_name (module_name : string) : option string :=
  match subst_name module_name "-" "_" with
  | Some (true, a) => Some a
  | Some (false, _) =>
      match subst_name module_name "_" "-" with
      | Some (true, a) => Some a
      | Some (false, _) => Some EmptyString
      | None => None
      end
  | None => None
  end.

(** [f->fts_namelen == namelen + 3 && !memcmp (f->fts_name + namelen, ".ko", 4)
     && (!memcmp (f->fts_name, module_name, namelen)
         || !memcmp (f->fts_name, alternate_name, namelen))]. An empty
    [alternate_name] differs from any non-empty name at its first byte. *)
Definition ko_match (module_name alt fname : string) : bool :=
  let namelen := String.length module_name in
  (String.length fname =? namelen + 3)%nat &&
  streq (str_drop namelen fname) ".ko" &&
  (streq (String.substring 0 namelen fname) module_name ||
   streq (String.substring 0 namelen fname) alt).

(** ** The reference: replace every [from] *)

Definition repl (from to c : ascii) : ascii := if chr_eqb c from then to else c.

(** The other separator: what [alternate_name] is for a name with one
    kind of separator. *)
Definition swap_sep (c : ascii) : ascii :=
  if chr_eqb c "-"%char then "_"%char else if chr_eqb c "_"%char then "-"%char else c.

(** What [alternate_name] should hold after the two [subst_name] calls:
    the name with every [-] made [_] when it has a [-], else with every
    [_] made [-] when it has a [_], else nothing. *)
Definition alt_ref (m : string) : string :=
  if str_has "-" m then str_map (repl "-" "_") m
  else if str_has "_" m then str_map (repl "_" "-") m else EmptyString.

(** ** Lemmas on [memchr] and the copies *)

Lemma memchr_none s c : memchr s c = None <-> str_has c s = false.
Proof.
  induction s as [|d s IH]; simpl; [tauto|].
  destruct (chr_eqb d c); simpl; [split; discriminate|].
  rewrite <- IH. destruct (memchr s c); simpl; split; congruence.
Qed.

Lemma memchr_some s c k :
  memchr s c = Some k ->
  exists x y, s = (x ++ String c y)%string /\ String.length x = k /\ str_has c x = false.
Proof.
  revert k. induction s as [|d s IH]; intros k; simpl; [discriminate|].
  destruct (chr_eqb_spec d c) as [->|Hne].
  - intros [= <-]. exists EmptyString, s. auto.
  - destruct (memchr s c) as [k'|]; simpl; [|discriminate]. intros [= <-].
    destruct (IH k' eq_refl) as (x & y & -> & Hl & Hx).
    exists (String d x), y. simpl. rewrite Hl, Hx.
    destruct (chr_eqb_spec d c); [contradiction|]. auto.
Qed.

Lemma substring_prefix x y : String.substring 0 (String.length x) (x ++ y) = x.
Proof.
  induction x as [|c x IH]; simpl; [destruct y; reflexivity|]. rewrite IH. reflexivity.
Qed.

Lemma str_drop_past x c y : str_drop (S (String.length x)) (x ++ String c y) = y.
Proof. induction x as [|d x IH]; simpl; [reflexivity|]. exact IH. Qed.

Lemma str_map_repl_none from to x : str_has from x = false -> str_map (repl from to) x = x.
Proof.
  induction x as [|c x IH]; simpl; [reflexivity|]. intros Hx.
  apply orb_false_iff in Hx as [Hc Hx]. unfold repl at 1. rewrite Hc, IH by exact Hx. reflexivity.
Qed.

Lemma str_map_repl_split from to x y :
  str_has from x = false ->
  str_map (repl from to) (x ++ String from y) = (x ++ String to (str_map (repl from to) y))%string.
Proof.
  intros Hx. rewrite str_map_append, str_map_repl_none by exact Hx. cbn [str_map].
  unfold repl at 1. rewrite chr_eqb_refl. reflexivity.
Qed.

(** With as much fuel as characters left, the loop copies the rest with
    every [from] replaced. *)
Lemma subst_loop_spec from to fuel rest a :
  (String.length rest <= fuel)%nat ->
  subst_loop fuel from to rest a = Some (a ++ str_map (repl from to) rest)%string.
Proof.
  revert rest a. induction fuel as [|f IH]; intros rest a Hlen; cbn [subst_loop].
  - destruct rest as [|c r]; [reflexivity | simpl in Hlen; lia].
  - destruct (memchr rest from) as [k|] eqn:Hm.
    + destruct (memchr_some _ _ _ Hm) as (x & y & -> & <- & Hx).
      rewrite substring_prefix, str_drop_past, IH.
      * rewrite str_map_repl_split by exact Hx. rewrite <- !string_append_assoc. reflexivity.
      * rewrite string_append_length in Hlen. simpl in Hlen. lia.
    + apply memchr_none in Hm. rewrite str_map_repl_none by exact Hm. reflexivity.
Qed.

Lemma substring_suffix x y n : String.substring (String.length x) n (x ++ y) = String.substring 0 n y.
Proof. induction x as [|c x IH]; simpl; [reflexivity|]. exact IH. Qed.

Lemma substring_all y : String.substring 0 (String.length y) y = y.
Proof. induction y as [|c y IH]; simpl; [reflexivity|]. rewrite IH. reflexivity. Qed.

Lemma str_has_map_none d f s : (forall c, f c <> d) -> str_has d (str_map f s) = false.
Proof.
  intros Hf. induction s as [|c s IH]; simpl; [reflexivity|]. rewrite IH, orb_false_r.
  destruct (chr_eqb_spec (f c) d); [destruct (Hf c e) | reflexivity].
Qed.

Lemma str_has_map_keep d f s :
  (forall c, c = d -> f c = d) -> str_has d s = true -> str_has d (str_map f s) = true.
Proof.
  intros Hf. induction s as [|c s IH]; simpl; [discriminate|].
  destruct (chr_eqb_spec c d) as [->|_]; simpl.
  - rewrite (Hf d eq_refl), chr_eqb_refl. reflexivity.
  - intros H. rewrite (IH H). apply orb_true_r.
Qed.

Lemma str_map_ext_without d f g s :
  (forall c, c <> d -> f c = g c) -> str_has d s = false -> str_map f s = str_map g s.
Proof.
  intros Hfg. induction s as [|c s IH]; simpl; [reflexivity|]. intros H.
  apply orb_false_iff in H as [Hc H]. rewrite IH by exact H. f_equal. apply Hfg.
  intros ->. rewrite chr_eqb_refl in Hc. discriminate.
Qed.

Lemma ascii_neq_of_eqb a b : chr_eqb a b = false -> a <> b.
Proof. intros H ->. rewrite chr_eqb_refl in H. discriminate. Qed.

Lemma str_has_mid c x y : str_has c (x ++ String c y) = true.
Proof.
  induction x as [|d x IH]; simpl; [rewrite chr_eqb_refl; reflexivity|]. rewrite IH. apply orb_true_r.
Qed.

(** [subst_name] on a name with [from]: the loop runs to the end within
    the [namelen] rounds of fuel it is given, and [alternate_name] is the
    name with every [from] replaced. *)
Lemma subst_name_found m from to :
  str_has from m = true -> subst_name m from to = Some (true, str_map (repl from to) m).
Proof.
  intros Hf. unfold subst_name. destruct (memchr m from) as [k|] eqn:Hm.
  - destruct (memchr_some _ _ _ Hm) as (x & y & -> & <- & Hx).
    rewrite substring_prefix, str_drop_past, subst_loop_spec.
    + rewrite str_map_repl_split by exact Hx. rewrite <- string_append_assoc. reflexivity.
    + rewrite string_append_length. simpl. lia.
  - apply memchr_none in Hm. congruence.
Qed.

Lemma subst_name_absent m from to :
  str_has from m = false -> subst_name m from to = Some (false, EmptyString).
Proof. intros Hf. unfold subst_name. apply memchr_none in Hf. rewrite Hf. reflexivity. Qed.

(** [alternate_name] never runs out of fuel: it is [alt_ref]. *)
Lemma alternate_name_eq m : alternate_name m = Some (alt_ref m).
Proof.
  unfold alternate_name, alt_ref. destruct (str_has "-" m) eqn:D; [rewrite subst_name_found by exact D; reflexivity|].
  rewrite subst_name_absent by exact D.
  destruct (str_has "_" m) eqn:U; [rewrite subst_name_found | rewrite subst_name_absent]; auto.
Qed.

(** [ko_match] on [base.ko]: the base has the module name's length and is
    the module name or the alternate one. *)
Lemma ko_match_ko m alt base :
  ko_match m alt (base ++ ".ko") =
    (String.length base =? String.length m)%nat && (streq base m || streq base alt).
Proof.
  unfold ko_match. rewrite string_append_length. cbn [String.length].
  destruct (Nat.eqb_spec (String.length base) (String.length m)) as [E|E].
  - rewrite <- E, Nat.eqb_refl, str_drop_app, substring_prefix. reflexivity.
  - replace (String.length base + 3 =? String.length m + 3)%nat with false by (symmetry; apply Nat.eqb_neq; lia).
    reflexivity.
Qed.

Lemma ko_char_not c : ko_char c <> "-"%char /\ ko_char c <> ","%char.
Proof.
  unfold ko_char. destruct (chr_eqb_spec c "-"), (chr_eqb_spec c ","); subst; simpl;
    split; try discriminate; assumption.
Qed.

Lemma is_ko_ko base : base <> EmptyString -> is_ko (base ++ ".ko") = true.
Proof.
  intros Hb. unfold is_ko. rewrite string_append_length. cbn [String.length].
  replace (String.length base + 3 - 3)%nat with (String.length base) by lia.
  rewrite substring_suffix. destruct base; [congruence|]. cbn [String.length].
  replace (3 <? S (String.length base) + 3)%nat with true by (symmetry; apply Nat.ltb_lt; lia). reflexivity.
Qed.

(** ** Properties *)

Lemma ko_modname_app base : ko_modname (base ++ ".ko") = str_map ko_char base.
Proof.
  unfold ko_modname. rewrite string_append_length. cbn [String.length].
  replace (String.length base + 3 - 3)%nat with (String.length base) by lia.
  rewrite substring_prefix. reflexivity.
Qed.

Lemma str_map_map f g s : str_map f (str_map g s) = str_map (fun c => f (g c)) s.
Proof. induction s as [|c s IH]; simpl; [reflexivity | rewrite IH; reflexivity]. Qed.

Lemma str_map_ext f g s : (forall c, f c = g c) -> str_map f s = str_map g s.
Proof. intros H. induction s as [|c s IH]; simpl; [reflexivity | rewrite H, IH; reflexivity]. Qed.

(** The name rule as two replacements, [-] then [,]. *)
Lemma ko_char_repl c : ko_char c = repl "," "_" (repl "-" "_" c).
Proof.
  unfold ko_char, repl. destruct (chr_eqb_spec c "-") as [->|N1]; [reflexivity|].
  destruct (chr_eqb_spec c ","); reflexivity.
Qed.

(** C11. [subst_name] as the C writes it ([memchr], [mempcpy] and the
    [while] loop, run here with the [namelen] rounds of fuel a name of
    that length can need) always finishes and equals the reference: it
    returns [true] exactly when [from] occurs in the name, and then
    [alternate_name] holds the name with every [from] replaced by [to]. *)
Theorem subst_name_eq m from to :
  subst_name m from to =
    Some (if str_has from m then (true, str_map (repl from to) m) else (false, EmptyString)).
Proof.
  destruct (str_has from m) eqn:H; [apply subst_name_found | apply subst_name_absent]; exact H.
Qed.

(** C13. The offline walk's name rule: a file [base.ko] with a non-empty
    [base] is a module file, and its module name is [base] with every [-]
    and [,] replaced by [_] (each replacement done on its own, [-] then
    [,]). *)
Theorem ko_modname_spec base :
  base <> EmptyString ->
  is_ko (base ++ ".ko") = true /\
  ko_modname (base ++ ".ko") = str_map (repl "," "_") (str_map (repl "-" "_") base).
Proof.
  intros Hb. split; [apply is_ko_ko, Hb|].
  rewrite ko_modname_app, str_map_map. apply str_map_ext, ko_char_repl.
Qed.

Lemma ko_match_iff m alt base :
  ko_match m alt (base ++ ".ko") = true <->
  String.length base = String.length m /\ (base = m \/ base = alt).
Proof.
  rewrite ko_match_ko.
  destruct (Nat.eqb_spec (String.length base) (String.length m)), (streq_spec base m), (streq_spec base alt);
    simpl; intuition congruence.
Qed.

Lemma match_same_length b m a :
  String.length a = String.length m ->
  (String.length b = String.length m /\ (b = m \/ b = a)) <-> (b = m \/ b = a).
Proof. intros Ha. split; [tauto|]. intros [-> | ->]; auto. Qed.

Lemma swap_sep_repl_u m : str_has "-" m = false -> str_map (repl "_" "-") m = str_map swap_sep m.
Proof.
  apply str_map_ext_without. intros c Hc. unfold repl, swap_sep.
  destruct (chr_eqb_spec c "-"); [contradiction|]. reflexivity.
Qed.

Lemma swap_sep_repl_d m : str_has "_" m = false -> str_map (repl "-" "_") m = str_map swap_sep m.
Proof.
  apply str_map_ext_without. intros c Hc. unfold repl, swap_sep.
  destruct (chr_eqb_spec c "-"); [reflexivity|]. destruct (chr_eqb_spec c "_"); [contradiction|]. reflexivity.
Qed.

Lemma swap_sep_none m : str_has "-" m = false -> str_has "_" m = false -> str_map swap_sep m = m.
Proof.
  induction m as [|c m IH]; simpl; [reflexivity|]. intros Hd Hu.
  apply orb_false_iff in Hd as [Hcd Hd]. apply orb_false_iff in Hu as [Hcu Hu].
  unfold swap_sep at 1. rewrite Hcd, Hcu, IH by assumption. reflexivity.
Qed.

(** C12. [find_elf]'s file match for a module name with at most one kind
    of separator: [alternate_name] is computed (its loops finish), and a
    file [base.ko] matches exactly when [base] is the module name or the
    module name with its separator swapped ([-] for [_] or [_] for [-]). *)
Theorem ko_match_one_sep m base :
  str_has "-" m && str_has "_" m = false ->
  exists alt, alternate_name m = Some alt /\
    (ko_match m alt (base ++ ".ko") = true <-> base = m \/ base = str_map swap_sep m).
Proof.
  intros Hone. exists (alt_ref m). split; [apply alternate_name_eq|]. rewrite ko_match_iff. unfold alt_ref.
  destruct (str_has "-" m) eqn:Hd, (str_has "_" m) eqn:Hu; try discriminate.
  - rewrite swap_sep_repl_d by exact Hu. apply match_same_length, str_map_length.
  - rewrite swap_sep_repl_u by exact Hd. apply match_same_length, str_map_length.
  - rewrite swap_sep_none by assumption. split.
    + intros [Hl [-> | ->]]; [auto|]. destruct m; [auto | discriminate].
    + intros [-> | ->]; auto.
Qed.

(** A module name with both [-] and [_]: [alternate_name] replaces
    only the [-], so the file named with dashes throughout is never
    matched. *)
Lemma ko_match_both_sep m :
  str_has "-" m = true -> str_has "_" m = true ->
  ko_match m (alt_ref m) (str_map (repl "_" "-") m ++ ".ko") = false.
Proof.
  intros Hd Hu. unfold alt_ref. rewrite Hd.
  rewrite ko_match_ko, str_map_length, Nat.eqb_refl. simpl.
  assert (Hdash : str_has "-" (str_map (repl "_" "-") m) = true).
  { apply str_has_map_keep; [intros c ->; reflexivity | exact Hd]. }
  destruct (streq_spec (str_map (repl "_" "-") m) m) as [E|_].
  - assert (H0 : str_has "_" (str_map (repl "_" "-") m) = false).
    { apply str_has_map_none. intros c. unfold repl. destruct (chr_eqb_spec c "_"); [discriminate|]. exact n. }
    rewrite E, Hu in H0. discriminate.
  - destruct (streq_spec (str_map (repl "_" "-") m) (str_map (repl "-" "_") m)) as [E|_]; [|reflexivity].
    assert (H0 : str_has "-" (str_map (repl "-" "_") m) = false).
    { apply str_has_map_none. intros c. unfold repl. destruct (chr_eqb_spec c "-"); [discriminate|]. exact n. }
    rewrite <- E, Hdash in H0. discriminate.
Qed.

(** ** The live name of a file, and [find_elf]

    The kernel names a module after its file as [ko_modname] does
    ([KBUILD_MODNAME]); [find_elf] looks the live module up by that name. *)

(** A map leaves a string alone exactly when it fixes its characters. *)
Lemma str_map_fixed_iff f s : str_map f s = s <-> (forall c, str_has c s = true -> f c = c).
Proof.
  induction s as [|d s IH]; simpl; [split; [discriminate | reflexivity]|]. split.
  - intros H c Hc. injection H as Hd Hs. apply orb_true_iff in Hc as [Hc|Hc].
    + destruct (chr_eqb_spec d c); [subst; exact Hd | discriminate].
    + apply IH; assumption.
  - intros H. f_equal; [apply H; rewrite chr_eqb_refl; reflexivity|].
    apply IH. intros c Hc. apply H. rewrite Hc. apply orb_true_r.
Qed.

Lemma str_has_neq c d s : str_has c s = true -> str_has d s = false -> c <> d.
Proof. intros Hc Hd ->. congruence. Qed.

(** The fixed characters of a map, as the absence of two characters. *)
Lemma str_map_fixed_two f s a b :
  (forall c, f c = c <-> c <> a /\ c <> b) ->
  str_map f s = s <-> str_has a s = false /\ str_has b s = false.
Proof.
  intros Hf. rewrite str_map_fixed_iff. split.
  - intros H. split; [destruct (str_has a s) eqn:E | destruct (str_has b s) eqn:E];
      try reflexivity; exfalso; apply H, Hf in E; tauto.
  - intros [Ha Hb] c Hc. apply Hf. split; [exact (str_has_neq _ _ _ Hc Ha) | exact (str_has_neq _ _ _ Hc Hb)].
Qed.

Ltac char_cases :=
  split; [intros E; try discriminate E; split; intros F; try discriminate F; congruence
         | intros [M1 M2]; try congruence; reflexivity].

Lemma ko_char_fixed c : ko_char c = c <-> c <> "-"%char /\ c <> ","%char.
Proof.
  unfold ko_char. destruct (chr_eqb_spec c "-") as [->|N1]; [cbn; char_cases|].
  destruct (chr_eqb_spec c ",") as [->|N2]; cbn; char_cases.
Qed.

Lemma ko_dash_fixed c : repl "_" "-" (ko_char c) = c <-> c <> "_"%char /\ c <> ","%char.
Proof.
  unfold repl, ko_char. destruct (chr_eqb_spec c "-") as [->|N1]; [cbn; char_cases|].
  destruct (chr_eqb_spec c ",") as [->|N2]; [cbn; char_cases|]. cbn [orb].
  destruct (chr_eqb_spec c "_") as [->|N3]; cbn; char_cases.
Qed.

(** A character [c] of [s] shows up in [str_map f s] as [f c]. *)
Lemma str_has_map_to c d f s : f c = d -> str_has c s = true -> str_has d (str_map f s) = true.
Proof.
  intros Hf. induction s as [|e s IH]; simpl; [discriminate|]. intros H.
  apply orb_true_iff in H as [H|H]; apply orb_true_iff; [left | right; apply IH, H].
  destruct (chr_eqb_spec e c); [subst; apply chr_eqb_refl | discriminate].
Qed.

(** C18. Round trip between the two name rules of the file: the kernel
    names the module of [base.ko] as [ko_modname] derives it
    ([KBUILD_MODNAME]); [alternate_name] of that name is computed, and
    [find_elf]'s match accepts that file for that name exactly when [base] has no [,] and does not mix [-] and [_].
    The file of a loaded module named otherwise is never found. *)
Theorem ko_modname_found base :
  base <> EmptyString ->
  exists alt, alternate_name (ko_modname (base ++ ".ko")) = Some alt /\
    (ko_match (ko_modname (base ++ ".ko")) alt (base ++ ".ko") = true <->
     str_has "," base = false /\ str_has "-" base && str_has "_" base = false).
Proof.
  intros Hb. eexists. split; [apply alternate_name_eq|]. rewrite ko_modname_app. unfold alt_ref.
  rewrite (str_has_map_none "-" ko_char base (fun c => proj1 (ko_char_not c))), ko_match_iff.
  assert (L1 : base = str_map ko_char base <-> str_has "-" base = false /\ str_has "," base = false).
  { rewrite <- (str_map_fixed_two ko_char base "-" "," ko_char_fixed). split; intros; congruence. }
  assert (L2 : base = str_map (repl "_" "-") (str_map ko_char base) <->
               str_has "_" base = false /\ str_has "," base = false).
  { rewrite str_map_map, <- (str_map_fixed_two _ base "_" "," ko_dash_fixed). split; intros; congruence. }
  destruct (str_has "_" (str_map ko_char base)) eqn:Hu.
  - rewrite match_same_length by apply str_map_length. rewrite L1, L2.
    destruct (str_has "-" base), (str_has "_" base), (str_has "," base); intuition congruence.
  - assert (Hd : str_has "-" base = false) by
      (destruct (str_has "-" base) eqn:E; [rewrite (str_has_map_to "-" "_" ko_char base eq_refl E) in Hu; discriminate | reflexivity]).
    assert (Hc : str_has "," base = false) by
      (destruct (str_has "," base) eqn:E; [rewrite (str_has_map_to "," "_" ko_char base eq_refl E) in Hu; discriminate | reflexivity]).
    rewrite Hd, Hc. split; [intros _; split; reflexivity|]. intros _. split; [symmetry; apply str_map_length|].
    left. apply L1. split; assumption.
Qed.

(** ** Witnesses *)

Lemma ko_modname_spec_witness :
  is_ko ("i2c-core" ++ ".ko") = true /\
  ko_modname ("i2c-core" ++ ".ko") = str_map (repl "," "_") (str_map (repl "-" "_") "i2c-core").
Proof. apply ko_modname_spec. discriminate. Defined.

Lemma ko_modname_i2c : ko_modname "i2c-core.ko" = "i2c_core".
Proof. reflexivity. Qed.

Lemma ko_match_one_sep_witness :
  exists alt, alternate_name "usb_storage" = Some alt /\
    (ko_match "usb_storage" alt ("usb-storage" ++ ".ko") = true <->
     "usb-storage" = "usb_storage" \/ "usb-storage" = str_map swap_sep "usb_storage").
Proof. apply ko_match_one_sep. reflexivity. Defined.

Lemma ko_match_both_sep_witness :
  ko_match "snd-hda_intel" (alt_ref "snd-hda_intel") (str_map (repl "_" "-") "snd-hda_intel" ++ ".ko") = false.
Proof. apply ko_match_both_sep; reflexivity. Defined.

(** [i2c-core.ko] is found for [i2c_core]; [snd-hda_intel.ko] is not
    found for [snd_hda_intel]. *)
Lemma ko_modname_found_witness :
  (exists alt, alternate_name (ko_modname ("i2c-core" ++ ".ko")) = Some alt /\
    (ko_match (ko_modname ("i2c-core" ++ ".ko")) alt ("i2c-core" ++ ".ko") = true <->
     str_has "," "i2c-core" = false /\ str_has "-" "i2c-core" && str_has "_" "i2c-core" = false)) /\
  (exists alt, alternate_name (ko_modname ("snd-hda_intel" ++ ".ko")) = Some alt /\
    (ko_match (ko_modname ("snd-hda_intel" ++ ".ko")) alt ("snd-hda_intel" ++ ".ko") = true <->
     str_has "," "snd-hda_intel" = false /\ str_has "-" "snd-hda_intel" && str_has "_" "snd-hda_intel" = false)).
Proof. split; apply ko_modname_found; discriminate. Defined.

(** [subst_name] on [usb_storage] for [_] to [-]. *)
Lemma subst_name_eq_witness :
  subst_name "usb_storage" "_" "-" = Some (true, "usb-storage").
Proof. rewrite subst_name_eq. reflexivity. Defined.
