(* ===== verification/Registry.v ===== *)
(** * The libdwfl module registry, as the backend sees it

    The C file reports what it finds to libdwfl's [Dwfl] session through
    [dwfl_report_module] (name and address range), [dwfl_report_elf] (name,
    file, descriptor, bias) and [dwfl_report_offline] (name, file,
    descriptor), each returning [NULL] when the registry refuses, and
    [dwfl_linux_kernel_report_kernel] walks [dwfl->modulelist]. The
    registry is outside [src/]: [Registry] is that interface as a class
    ([reg_null] says the [Dwfl *] a callback was given is [NULL]),
    [RegistryLaws] what the backend relies on, and [ListRegistry] an
    implementation following the specification (names are unique; a
    second report of a name is accepted only with the same range; an ELF
    report records the range the image's headers give, moved by the
    bias, and refuses a file that is not ELF); [lr_wf] is its invariant,
    kept by every report. [NullDwfl] is the [NULL] pointer.

    Clients are stated for any [R] with [Registry R] and [RegistryLaws R];
    their state is the process state paired with the registry. *)

From Stdlib Require Import ZArith Lia String Ascii List Bool.
From stdpp Require Import base list strings.
From S2P Require Import Prelude Os.

Local Open Scope Z_scope.

(** An entry of [dwfl->modulelist]: name and [[low_addr, high_addr)]. *)
Record dwfl_module : Type := mkModule {
  mod_name : string;
  mod_low : Z;
  mod_high : Z;
}.

Class Registry (R : Type) : Type := {
  reg_null : R -> bool;  (** the [Dwfl *] the callback was given is [NULL] *)
  reg_modulelist : R -> list dwfl_module;
  reg_report_module : string -> Z -> Z -> R -> option R;
  reg_report_elf : string -> string -> Z -> Z -> R -> option R;
  reg_report_offline : string -> string -> Z -> R -> option R;
  reg_fds : R -> list Z;
}.

(** The first module of the list with this name, as the C loop over
    [dwfl->modulelist] finds it. *)
Fixpoint find_in (n : string) (ms : list dwfl_module) : option (Z * Z) :=
  match ms with
  | [] => None
  | m :: ms' => if streq (mod_name m) n then Some (mod_low m, mod_high m) else find_in n ms'
  end.

Definition find_module {R} `{Registry R} (n : string) (r : R) : option (Z * Z) :=
  find_in n (reg_modulelist r).

Class RegistryLaws (R : Type) `{Registry R} : Prop := {
  (** A reported range is the one found under its name. *)
  report_module_found : forall n lo hi r r',
    reg_report_module n lo hi r = Some r' -> find_module n r' = Some (lo, hi);
  (** Reporting again what is there changes nothing. *)
  report_module_same : forall n lo hi r,
    find_module n r = Some (lo, hi) -> reg_report_module n lo hi r = Some r;
  (** Other names are untouched. *)
  report_module_other : forall n lo hi r r' n',
    reg_report_module n lo hi r = Some r' -> n' <> n -> find_module n' r' = find_module n' r;
  (** A descriptor handed over with an ELF file is the registry's. *)
  report_elf_owns : forall n f fd b r r',
    reg_report_elf n f fd b r = Some r' -> In fd (reg_fds r') /\ incl (reg_fds r) (reg_fds r');
  (** A module reported from an ELF file is then found under its name. *)
  report_elf_found : forall n f fd b r r',
    reg_report_elf n f fd b r = Some r' -> exists lo hi, find_module n r' = Some (lo, hi);
  report_offline_keeps : forall n f fd r r',
    reg_report_offline n f fd r = Some r' -> incl (reg_fds r) (reg_fds r');
  report_module_keeps : forall n lo hi r r',
    reg_report_module n lo hi r = Some r' -> reg_fds r' = reg_fds r;
  (** A module found stays found, with its range, whatever is reported. *)
  report_module_monotone : forall n lo hi r r' n' v,
    reg_report_module n lo hi r = Some r' -> find_module n' r = Some v -> find_module n' r' = Some v;
  report_elf_monotone : forall n f fd b r r' n' v,
    reg_report_elf n f fd b r = Some r' -> find_module n' r = Some v -> find_module n' r' = Some v;
  report_offline_monotone : forall n f fd r r' n' v,
    reg_report_offline n f fd r = Some r' -> find_module n' r = Some v -> find_module n' r' = Some v;
  (** A [NULL] [Dwfl] has no modules. *)
  null_no_modules : forall r, reg_null r = true -> reg_modulelist r = [];
}.

(** A [Dwfl] in which a module is found is not [NULL]. *)
Lemma find_module_nonnull `{RegistryLaws R} n (r : R) v : find_module n r = Some v -> reg_null r = false.
Proof.
  unfold find_module. destruct (reg_null r) eqn:Hn; [|reflexivity].
  rewrite (null_no_modules r Hn). discriminate.
Qed.

(** ** Lifting process operations to the paired state *)

Definition with_reg {R A} (f : R -> exec (A * R)) : M (pstate * R) A :=
  fun '(s, r) => match f r with
                 | Done (a, r') => Done (a, (s, r'))
                 | Undefined w => Undefined w
                 end.

(** ** A reference implementation *)

(** What libelf reads from a file: the [[low, high)] its program headers
    span at bias [0], or [None] when the file is not an ELF file. ELF
    parsing is outside this development; the layout is an input. *)
Definition elf_layout : Type := string -> option (Z * Z).

(** No file is an ELF image. *)
Definition no_images : elf_layout := fun _ => None.

(** The registry of the specification: modules in report order, the
    descriptors it owns, and the layout of the images it may be handed.
    A name is reported once (a second report with the same range returns
    the existing module, with another range it is refused), and an
    inverted range is refused. *)
Record list_registry : Type := mkListRegistry {
  lr_modules : list dwfl_module;
  lr_fds : list Z;
  lr_images : elf_layout;
}.

Definition lr_add (n : string) (lo hi : Z) (fd : option Z) (r : list_registry) : option list_registry :=
  match find_in n (lr_modules r) with
  | Some (lo', hi') =>
      if (lo =? lo') && (hi =? hi') && negb (match fd with Some _ => true | None => false end)
      then Some r else None
  | None =>
      if hi <? lo then None
      else Some (mkListRegistry (lr_modules r ++ [mkModule n lo hi])
                                (match fd with Some d => d :: lr_fds r | None => lr_fds r end)
                                (lr_images r))
  end.

(** [dwfl_report_elf (dwfl, name, file, fd, bias)]: the image's range
    moved by the bias; a file that is not ELF is refused. *)
Definition lr_report_elf (n f : string) (fd b : Z) (r : list_registry) : option list_registry :=
  match lr_images r f with
  | Some (lo, hi) => lr_add n (lo + b) (hi + b) (Some fd) r
  | None => None
  end.

(** [dwfl_report_offline (dwfl, name, file, fd)]: the image's own range;
    with [fd < 0] the registry opens the file itself. *)
Definition lr_report_offline (n f : string) (fd : Z) (r : list_registry) : option list_registry :=
  match lr_images r f with
  | Some (lo, hi) => lr_add n lo hi (if fd <? 0 then None else Some fd) r
  | None => None
  end.

#[export] Instance ListRegistry : Registry list_registry := {
  reg_null _ := false;
  reg_modulelist := lr_modules;
  reg_report_module n lo hi r := lr_add n lo hi None r;
  reg_report_elf := lr_report_elf;
  reg_report_offline := lr_report_offline;
  reg_fds := lr_fds;
}.

(** The invariant of the reference registry: names are unique (the
    specification's data model) and every range is well formed. *)
Definition lr_wf (r : list_registry) : Prop :=
  NoDup (map mod_name (lr_modules r)) /\ Forall (fun m => mod_low m <= mod_high m) (lr_modules r).

#[export] Instance lr_wf_dec r : Decision (lr_wf r).
Proof. unfold lr_wf. apply _. Defined.

(** ** The reference implementation satisfies the laws *)

Lemma find_in_app_none n ms m :
  find_in n ms = None -> find_in n (ms ++ [m]) = if streq (mod_name m) n then Some (mod_low m, mod_high m) else None.
Proof.
  induction ms as [|m' ms IH]; simpl; [reflexivity|].
  destruct (streq (mod_name m') n); [discriminate | exact IH].
Qed.

Lemma find_in_app_other n ms m :
  mod_name m <> n -> find_in n (ms ++ [m]) = find_in n ms.
Proof.
  intros Hne. induction ms as [|m' ms IH]; simpl.
  - destruct (streq_spec (mod_name m) n); [contradiction | reflexivity].
  - destruct (streq (mod_name m') n); [reflexivity | exact IH].
Qed.

Lemma find_in_app_some n ms m v : find_in n ms = Some v -> find_in n (ms ++ [m]) = Some v.
Proof.
  induction ms as [|m' ms IH]; simpl; [discriminate|].
  destruct (streq (mod_name m') n); [exact id | exact IH].
Qed.

Lemma find_in_none_notin n ms : find_in n ms = None -> n ∉ map mod_name ms.
Proof.
  induction ms as [|m ms IH]; simpl; [intros _; apply not_elem_of_nil|].
  destruct (streq_spec (mod_name m) n) as [|Hne]; [discriminate|].
  intros Hf. rewrite elem_of_cons. intros [->|Hin]; [contradiction | exact (IH Hf Hin)].
Qed.

(** What [lr_add] can do: return the registry when the module is there
    with this range and no descriptor comes with it, or append it. *)
Lemma lr_add_Some n lo hi fd r r' :
  lr_add n lo hi fd r = Some r' ->
  (find_in n (lr_modules r) = Some (lo, hi) /\ fd = None /\ r' = r) \/
  (find_in n (lr_modules r) = None /\ lo <= hi /\
   r' = mkListRegistry (lr_modules r ++ [mkModule n lo hi])
                       (match fd with Some d => d :: lr_fds r | None => lr_fds r end) (lr_images r)).
Proof.
  unfold lr_add. destruct (find_in n (lr_modules r)) as [[lo' hi']|].
  - destruct (Z.eqb_spec lo lo'), (Z.eqb_spec hi hi'), fd; simpl; intros Hr; try discriminate.
    injection Hr as <-. subst. left. auto.
  - destruct (Z.ltb_spec hi lo); intros Hr; [discriminate|]. injection Hr as <-. right. auto.
Qed.

Lemma lr_add_found n lo hi fd r r' : lr_add n lo hi fd r = Some r' -> find_in n (lr_modules r') = Some (lo, hi).
Proof.
  intros [(F & _ & ->) | (F & _ & ->)]%lr_add_Some; [exact F|]. simpl.
  rewrite find_in_app_none by exact F. simpl. destruct (streq_spec n n); [reflexivity | contradiction].
Qed.

Lemma lr_add_other n lo hi fd r r' n' :
  lr_add n lo hi fd r = Some r' -> n' <> n -> find_in n' (lr_modules r') = find_in n' (lr_modules r).
Proof.
  intros [(_ & _ & ->) | (_ & _ & ->)]%lr_add_Some Hne; [reflexivity|].
  apply find_in_app_other. simpl. congruence.
Qed.

(** [lr_add] keeps every module found. *)
Lemma lr_add_monotone n lo hi fd r r' n' v :
  lr_add n lo hi fd r = Some r' -> find_in n' (lr_modules r) = Some v -> find_in n' (lr_modules r') = Some v.
Proof. intros [(_ & _ & ->) | (_ & _ & ->)]%lr_add_Some; [exact id | apply find_in_app_some]. Qed.

(** The descriptor that comes with a report is the registry's; no other is
    dropped or added. *)
Lemma lr_add_fds n lo hi fd r r' :
  lr_add n lo hi fd r = Some r' ->
  lr_fds r' = match fd with Some d => d :: lr_fds r | None => lr_fds r end.
Proof. intros [(_ & -> & ->) | (_ & _ & ->)]%lr_add_Some; reflexivity. Qed.

Lemma lr_add_wf n lo hi fd r r' : lr_add n lo hi fd r = Some r' -> lr_wf r -> lr_wf r'.
Proof.
  intros [(_ & _ & ->) | (F & Hle & ->)]%lr_add_Some; [exact id|]. intros [Hnd Hf]. split; simpl.
  - rewrite map_app, NoDup_app. split; [exact Hnd|]. split; [|apply NoDup_singleton].
    intros x Hx. cbn [map mod_name]. rewrite list_elem_of_singleton. intros ->. exact (find_in_none_notin _ _ F Hx).
  - apply Forall_app. split; [exact Hf | constructor; [exact Hle | constructor]].
Qed.

Lemma lr_report_elf_Some n f fd b r r' :
  lr_report_elf n f fd b r = Some r' ->
  exists lo hi, lr_images r f = Some (lo, hi) /\ lr_add n (lo + b) (hi + b) (Some fd) r = Some r'.
Proof. unfold lr_report_elf. destruct (lr_images r f) as [[lo hi]|]; [eauto | discriminate]. Qed.

Lemma lr_report_offline_Some n f fd r r' :
  lr_report_offline n f fd r = Some r' ->
  exists lo hi, lr_images r f = Some (lo, hi) /\ lr_add n lo hi (if fd <? 0 then None else Some fd) r = Some r'.
Proof. unfold lr_report_offline. destruct (lr_images r f) as [[lo hi]|]; [eauto | discriminate]. Qed.

(** The three reports of the reference registry keep its invariant. *)
Lemma lr_report_module_wf n lo hi r r' : reg_report_module n lo hi r = Some r' -> lr_wf r -> lr_wf r'.
Proof. apply lr_add_wf. Qed.

Lemma lr_report_elf_wf n f fd b r r' : reg_report_elf n f fd b r = Some r' -> lr_wf r -> lr_wf r'.
Proof. intros (lo & hi & _ & E)%lr_report_elf_Some. exact (lr_add_wf _ _ _ _ _ _ E). Qed.

Lemma lr_report_offline_wf n f fd r r' : reg_report_offline n f fd r = Some r' -> lr_wf r -> lr_wf r'.
Proof. intros (lo & hi & _ & E)%lr_report_offline_Some. exact (lr_add_wf _ _ _ _ _ _ E). Qed.

#[export] Instance ListRegistry_laws : RegistryLaws list_registry.
Proof.
  split; unfold find_module; simpl.
  - intros n lo hi r r'. apply lr_add_found.
  - intros n lo hi r F. unfold lr_add. rewrite F, !Z.eqb_refl. reflexivity.
  - intros n lo hi r r' n'. apply lr_add_other.
  - intros n f fd b r r' (lo & hi & _ & E)%lr_report_elf_Some. rewrite (lr_add_fds _ _ _ _ _ _ E).
    split; [left; reflexivity | intros x Hx; right; exact Hx].
  - intros n f fd b r r' (lo & hi & _ & E)%lr_report_elf_Some. eauto using lr_add_found.
  - intros n f fd r r' (lo & hi & _ & E)%lr_report_offline_Some. rewrite (lr_add_fds _ _ _ _ _ _ E).
    destruct (fd <? 0); intros x Hx; simpl; auto.
  - intros n lo hi r r' E. exact (lr_add_fds _ _ _ _ _ _ E).
  - intros n lo hi r r' n' v. apply lr_add_monotone.
  - intros n f fd b r r' n' v (lo & hi & _ & E)%lr_report_elf_Some. exact (lr_add_monotone _ _ _ _ _ _ _ _ E).
  - intros n f fd r r' n' v (lo & hi & _ & E)%lr_report_offline_Some. exact (lr_add_monotone _ _ _ _ _ _ _ _ E).
  - intros r H. discriminate H.
Qed.

(** A [NULL] [Dwfl *]: nothing to read, every report refused. *)
Definition NullDwfl : Registry unit := {|
  reg_null _ := true;
  reg_modulelist _ := [];
  reg_report_module _ _ _ _ := None;
  reg_report_elf _ _ _ _ _ := None;
  reg_report_offline _ _ _ _ := None;
  reg_fds _ := [];
|}.
