(* ===== verification/Kallsyms.v ===== *)
(** * Kernel bounds from [/proc/kallsyms]: [intuit_kernel_bounds]

    [intuit_kernel_bounds] (C lines 299-346) reads the live symbol table
    line by line with [getline], takes the first line's address as the
    start, keeps the address of each following line as the end until a
    line whose last character before the newline is [']'] (the first
    module symbol), and rounds both outward to the page size.

    [getline]'s result is stored in a [size_t n]; at end of file [getline]
    returns [-1], which [n] holds as [SIZE_MAX]. The model keeps [n] at
    that width, and models the line buffer ([linebuf]): never allocated,
    allocated but never written (the first [getline] hit end of file), or
    holding the last line read. Reading [line[n - 2]] outside the buffer,
    or parsing a buffer that was never written, is [Undefined]. *)

From Stdlib Require Import ZArith Lia String Ascii List Bool.
From stdpp Require Import base list strings gmap.
From S2P Require Import Prelude CNum Os.

Local Open Scope Z_scope.

Definition KSYMSFILE : string := "/proc/kallsyms".

(** ** getline *)

Inductive linebuf : Type :=
| LBNull               (** [char *line = NULL] *)
| LBUninit             (** allocated by [getline], nothing stored *)
| LBData (s : string). (** holds the last line read *)

(** [n = getline (&line, &linesz, f)] on the remaining lines: [n] as a
    [size_t], and the buffer afterwards. At end of file [getline] returns
    [-1] and allocates the buffer without writing it. *)
Definition getline (buf : linebuf) (ls : list string) : Z * linebuf :=
  match ls with
  | l :: _ => (Z.of_nat (String.length l), LBData l)
  | [] => (U64_MAX, match buf with LBNull => LBUninit | b => b end)
  end.

(** [line[i]]. *)
Definition line_at (buf : linebuf) (i : Z) : exec ascii :=
  match buf with
  | LBData s =>
      if (0 <=? i) && (i <? Z.of_nat (String.length s)) then
        match char_at s (Z.to_nat i) with
        | Some c => Done c
        | None => Undefined "line[i] past the line"
        end
      else Undefined "line[n - 2] outside the line buffer"
  | _ => Undefined "line[i] of a line buffer never written"
  end.

(** [strtoull (line, &p, 16)]: the value and [p - line]. *)
Definition line_strtoull (buf : linebuf) : exec (Z * nat) :=
  match buf with
  | LBData s => Done (strtoull 16 s)
  | _ => Undefined "strtoull on a line buffer never written"
  end.

(** ** The loop

    [while ((n = getline (&line, &linesz, f)) > 1 && line[n - 2] != ']')
       { p = NULL; last = strtoull (line, &p, 16);
         if (p == NULL || p == line || last == 0) { result = -1; break; } }]

    The loop either breaks ([LBreak]) or its test fails ([LTest]), with
    the last [n] and buffer, and for the test the value of [last]. *)
Inductive loop_exit : Type :=
| LBreak (n : Z) (buf : linebuf)
| LTest (n : Z) (buf : linebuf) (last : Z).

(** The last [getline] met the end of the stream: it returned [-1], or
    read a last line without newline. *)
Definition getline_at_end (n : Z) (buf : linebuf) : bool :=
  (n =? U64_MAX) || match buf with LBData l => line_reaches_end l | _ => false end.

Fixpoint scan_symbols (buf : linebuf) (ls : list string) (last : Z) : exec loop_exit :=
  let '(n, buf') := getline buf ls in
  if 1 <? n then
    match line_at buf' (n - 2) with
    | Undefined w => Undefined w
    | Done c =>
        if chr_eqb c "]"%char then Done (LTest n buf' last)
        else match line_strtoull buf' with
             | Undefined w => Undefined w
             | Done (v, used) =>
                 if (used =? 0)%nat || (v =? 0) then Done (LBreak n buf')
                 else match ls with
                      | _ :: ls' => scan_symbols buf' ls' v
                      | [] => Undefined "getline past the end of the file"
                      end
             end
    end
  else Done (LTest n buf' last).

(** ** Rounding (C lines 329-332) *)
Definition round_bounds (page first last : Z) : Z * Z :=
  let round_kernel := u64 page in
  let first' := Z.land first (u64 (- round_kernel)) in
  let last' := u64 (last + u64 (round_kernel - 1)) in
  (first', Z.land last' (u64 (- round_kernel))).

(** ** The function

    The body from the first [getline] to [free (line)], on the stream's
    contents: [result] there ([-1] after the loop's [break]), the bounds
    when [*start] and [*end] are written, and whether a [getline] met the
    end of the stream ([fin] says what it met there: [feof] holds only
    at the end of the file). *)
Definition kallsyms_scan (page : Z) (contents : string) (fin : stream_end)
  : exec (Z * option (Z * Z) * bool) :=
  let ls := split_lines contents in
  let '(n, buf) := getline LBNull ls in
  if 0 <? n then
    match line_strtoull buf with
    | Undefined w => Undefined w
    | Done (first, used) =>
        if (0 <? first) && (0 <? Z.of_nat used) then
          match scan_symbols buf (tl ls) 0 with
          | Undefined w => Undefined w
          | Done (LBreak n' buf') => Done (-1, None, getline_at_end n' buf')
          | Done (LTest n' buf' last) =>
              let at_end := getline_at_end n' buf' in
              let eof := at_end && match fin with SEof => true | SErr _ => false end in
              let bracket :=
                if 1 <? n' then
                  match line_at buf' (n' - 2) with
                  | Done c => Done (chr_eqb c "]"%char)
                  | Undefined w => Undefined w
                  end
                else Done false in
              match bracket with
              | Undefined w => Undefined w
              | Done br =>
                  if ((n' =? 0) && eof) || br
                  then Done (0, Some (round_bounds page first last), at_end)
                  else Done (0, None, at_end)
              end
          end
        else Done (0, None, getline_at_end n buf)
    end
  else Done (0, None, getline_at_end n buf).

Definition intuit_kernel_bounds (w : world) : M pstate (Z * option (Z * Z)) :=
  let* f := sys_fopen w KSYMSFILE in
  match f with
  | None => let* e := get_errno in ret (e, None)
  | Some f =>
      let* '(res, bounds, at_end) := lift_exec (kallsyms_scan (w_page_size w) (st_data f) (st_end f)) in
      (* [if (result == -1) result = ferror_unlocked (f) ? errno : ENOEXEC;] *)
      let* '(ferr, _) := sys_stream_end f at_end in
      let* result := if res =? -1 then (if ferr then get_errno else ret ENOEXEC) else ret res in
      sys_close (st_fd f);;
      ret (result, bounds)
  end.

(** ** The symbol table as the kernel prints it *)

(** [%016lx], a space, the type letter, the name and, for a module
    symbol, a tab and [[module]]. *)
Definition ksym_body (a : Z) (rest : string) : string := (fixed_digits 16 16 a ++ String " " rest)%string.
Definition ksym_line (a : Z) (rest : string) : string := (ksym_body a rest ++ NL)%string.

Fixpoint ksym_text (syms : list (Z * string)) (tail : string) : string :=
  match syms with
  | [] => tail
  | (a, r) :: s => (ksym_line a r ++ ksym_text s tail)%string
  end.

(** A symbol of the kernel image, and the first module symbol. *)
Definition kernel_sym (a : Z) (r : string) : Prop :=
  0 < a < 2 ^ 64 /\ no_nl r /\ last_char r <> Some "]"%char.
Definition module_sym (a : Z) (r : string) : Prop :=
  0 <= a < 2 ^ 64 /\ no_nl r /\ last_char r = Some "]"%char.

Definition last_addr (syms : list (Z * string)) (dflt : Z) : Z :=
  fold_left (fun _ p => fst p) syms dflt.

(** ** Lemmas on lines *)

Lemma ksym_body_no_nl a r : no_nl r -> no_nl (ksym_body a r).
Proof.
  unfold no_nl, ksym_body. intros Hr.
  assert (Happ : forall x y, str_has "010"%char (x ++ y)%string =
                             str_has "010"%char x || str_has "010"%char y).
  { induction x as [|c x IH]; intros y; simpl; [reflexivity|]. rewrite IH. apply orb_assoc. }
  rewrite Happ, fixed_digits_no_nl by lia. simpl. exact Hr.
Qed.

Lemma split_lines_ksym syms tail :
  Forall (fun '(a, r) => no_nl r) syms ->
  split_lines (ksym_text syms tail) = map (fun '(a, r) => ksym_line a r) syms ++ split_lines tail.
Proof.
  induction syms as [|[a r] syms IH]; intros Hs; [reflexivity|].
  inversion Hs as [|? ? Hr Hs']; subst.
  cbn [ksym_text map]. unfold ksym_line at 1.
  rewrite split_lines_line by (apply ksym_body_no_nl; exact Hr).
  rewrite IH by exact Hs'. reflexivity.
Qed.

Lemma ksym_line_length a r : String.length (ksym_line a r) = (18 + String.length r)%nat.
Proof.
  unfold ksym_line, ksym_body. rewrite !string_append_length, fixed_digits_length. simpl. lia.
Qed.

Lemma ksym_strtoull a r : 0 <= a < 2 ^ 64 -> strtoull 16 (ksym_line a r) = (a, 16%nat).
Proof.
  intros Ha. unfold ksym_line, ksym_body. rewrite <- string_append_assoc.
  apply strtoull_fixed; unfold U64_MAX; simpl; try lia; reflexivity.
Qed.

Lemma last_char_cons c r :
  last_char (String c r) = match r with EmptyString => Some c | _ => last_char r end.
Proof.
  unfold last_char. destruct r as [|d r]; [reflexivity|].
  cbn [String.length]. replace (S (S (String.length r)) - 1)%nat with (S (String.length r)) by lia.
  replace (S (String.length r) - 1)%nat with (String.length r) by lia. reflexivity.
Qed.

(** [line[n - 2]] of a line read by [getline] is its last character before
    the newline. *)
Lemma line_at_before_nl b c :
  last_char b = Some c ->
  line_at (LBData (b ++ NL)) (Z.of_nat (String.length (b ++ NL)) - 2) = Done c.
Proof.
  intros Hc. unfold line_at. rewrite string_append_length. simpl String.length.
  assert (Hb : (String.length b <> 0)%nat).
  { intros H0. destruct b; [discriminate | discriminate]. }
  destruct (Z.leb_spec 0 (Z.of_nat (String.length b + 1) - 2)); [|lia].
  destruct (Z.ltb_spec (Z.of_nat (String.length b + 1) - 2) (Z.of_nat (String.length b + 1)));
    [|lia]. simpl.
  replace (Z.to_nat (Z.of_nat (String.length b + 1) - 2)) with (String.length b - 1)%nat by lia.
  rewrite char_at_append_l by lia. unfold last_char in Hc. rewrite Hc. reflexivity.
Qed.

Lemma ksym_line_at a r c :
  last_char (String " " r) = Some c ->
  line_at (LBData (ksym_line a r)) (Z.of_nat (String.length (ksym_line a r)) - 2) = Done c.
Proof.
  intros Hc. unfold ksym_line. apply line_at_before_nl.
  unfold ksym_body. rewrite last_char_append_r by discriminate. exact Hc.
Qed.

Lemma last_char_space_r r : r <> EmptyString -> last_char (String " " r) = last_char r.
Proof. intros Hr. rewrite last_char_cons. destruct r; [congruence | reflexivity]. Qed.

Lemma last_char_some s : s <> EmptyString -> exists c, last_char s = Some c.
Proof.
  intros Hs. unfold last_char. destruct (char_at s (String.length s - 1)) eqn:E; [eauto|].
  exfalso. destruct s as [|c s]; [congruence|].
  apply char_at_None in E. simpl in E. lia.
Qed.

(** The last character before the newline of a kernel symbol's line is
    not [']'], and that of the first module symbol is. *)
Lemma kernel_sym_test a r :
  kernel_sym a r ->
  exists c, last_char (String " " r) = Some c /\ chr_eqb c "]"%char = false.
Proof.
  intros (_ & _ & Hr). destruct r as [|d r'] eqn:Er.
  - exists " "%char. split; reflexivity.
  - rewrite <- Er in *. rewrite last_char_space_r by (subst; discriminate).
    destruct (last_char_some r) as [c Hc]; [subst; discriminate|].
    exists c. split; [exact Hc|]. destruct (chr_eqb_spec c "]"%char); [subst; tauto | reflexivity].
Qed.

Lemma module_sym_test a r : module_sym a r -> last_char (String " " r) = Some "]"%char.
Proof.
  intros (_ & _ & Hr). rewrite last_char_space_r; [exact Hr|].
  intros ->. discriminate.
Qed.

(** Lines shorter than [2^62] bytes. *)
Definition short (r : string) : Prop := Z.of_nat (String.length r) < 2 ^ 62.

(** A [getline] that read a whole line did not meet the end. *)
Lemma getline_at_end_line b :
  Z.of_nat (String.length (b ++ NL)) < U64_MAX ->
  getline_at_end (Z.of_nat (String.length (b ++ NL))) (LBData (b ++ NL)) = false.
Proof.
  intros Hl. unfold getline_at_end. rewrite line_reaches_end_nl.
  destruct (Z.eqb_spec (Z.of_nat (String.length (b ++ NL))) U64_MAX); [lia | reflexivity].
Qed.

Lemma ksym_line_at_end a r :
  Z.of_nat (String.length (ksym_line a r)) < U64_MAX ->
  getline_at_end (Z.of_nat (String.length (ksym_line a r))) (LBData (ksym_line a r)) = false.
Proof. apply getline_at_end_line. Qed.

(** The last line read after the kernel symbols. *)
Definition last_line (l : string) (syms : list (Z * string)) : string :=
  fold_left (fun _ p => ksym_line (fst p) (snd p)) syms l.

(** The loop reads each kernel symbol and keeps its address. *)
Lemma scan_symbols_kernel l syms ls last :
  Forall (fun '(a, r) => kernel_sym a r) syms ->
  scan_symbols (LBData l) (map (fun '(a, r) => ksym_line a r) syms ++ ls) last =
    scan_symbols (LBData (last_line l syms)) ls (last_addr syms last).
Proof.
  revert l last. induction syms as [|[a r] syms IH]; intros l last Hs; [reflexivity|].
  inversion Hs as [|? ? Hk Hs']; subst.
  destruct (kernel_sym_test a r Hk) as (c & Hc & Hnb).
  destruct Hk as (Ha & _).
  cbn [map app scan_symbols getline].
  destruct (Z.ltb_spec 1 (Z.of_nat (String.length (ksym_line a r)))) as [_|Hlt];
    [|rewrite ksym_line_length in Hlt; lia].
  rewrite (ksym_line_at a r c Hc), Hnb. cbn [line_strtoull].
  rewrite ksym_strtoull by lia.
  destruct (Z.eqb_spec a 0); [lia|]. cbn [orb Nat.eqb].
  apply IH; assumption.
Qed.

(** The loop stops at the first module symbol without parsing it. *)
Lemma scan_symbols_run l syms am rm ls last :
  Forall (fun '(a, r) => kernel_sym a r) syms -> module_sym am rm ->
  scan_symbols (LBData l) (map (fun '(a, r) => ksym_line a r) syms ++ ksym_line am rm :: ls) last =
    Done (LTest (Z.of_nat (String.length (ksym_line am rm))) (LBData (ksym_line am rm))
                (last_addr syms last)).
Proof.
  intros Hs Hm. rewrite scan_symbols_kernel by exact Hs.
  cbn [scan_symbols getline].
  destruct (Z.ltb_spec 1 (Z.of_nat (String.length (ksym_line am rm)))) as [_|Hc];
    [|rewrite ksym_line_length in Hc; lia].
  rewrite (ksym_line_at am rm _ (module_sym_test am rm Hm)). reflexivity.
Qed.

Lemma ksym_syms_no_nl (syms : list (Z * string)) :
  Forall (fun '(a, r) => kernel_sym a r) syms -> Forall (fun '(a, r) => no_nl r) syms.
Proof.
  intros H. induction H as [|[a r] syms [_ [? _]] _ IH]; constructor; assumption.
Qed.

Lemma split_lines_table a0 r0 syms am rm tail :
  no_nl r0 -> Forall (fun '(a, r) => kernel_sym a r) syms -> module_sym am rm ->
  split_lines (ksym_text ((a0, r0) :: syms ++ [(am, rm)]) tail) =
    ksym_line a0 r0 :: map (fun '(a, r) => ksym_line a r) syms ++ ksym_line am rm :: split_lines tail.
Proof.
  intros H0 Hs Hm. rewrite split_lines_ksym.
  - cbn [map app]. rewrite map_app, <- app_assoc. reflexivity.
  - constructor; [exact H0|]. apply Forall_app. split; [apply ksym_syms_no_nl, Hs|].
    constructor; [apply Hm | constructor].
Qed.

(** C5. On a symbol table whose first line is a kernel symbol at [a0],
    followed by kernel symbols and then a module symbol (a line ending in
    [']']), [intuit_kernel_bounds]'s scan succeeds with the first address
    and the address of the last kernel symbol before the module symbol,
    rounded outward to the page. The module symbol's own address is not
    used. *)
Theorem kallsyms_scan_bounds page a0 r0 syms am rm tail fin :
  0 < a0 < 2 ^ 64 -> no_nl r0 -> short rm ->
  Forall (fun '(a, r) => kernel_sym a r) syms -> module_sym am rm ->
  kallsyms_scan page (ksym_text ((a0, r0) :: syms ++ [(am, rm)]) tail) fin =
    Done (0, Some (round_bounds page a0 (last_addr syms 0)), false).
Proof.
  intros Ha0 Hr0 Hsh Hs Hm. unfold kallsyms_scan.
  rewrite split_lines_table by assumption. cbn [getline tl].
  destruct (Z.ltb_spec 0 (Z.of_nat (String.length (ksym_line a0 r0)))) as [_|Hl];
    [|rewrite ksym_line_length in Hl; lia].
  cbn [line_strtoull]. rewrite ksym_strtoull by lia.
  destruct (Z.ltb_spec 0 a0); [|lia]. cbn [andb Z.of_nat Z.ltb Z.compare].
  rewrite scan_symbols_run by assumption.
  destruct (Z.ltb_spec 1 (Z.of_nat (String.length (ksym_line am rm)))) as [_|Hl];
    [|rewrite ksym_line_length in Hl; lia].
  rewrite (ksym_line_at am rm _ (module_sym_test am rm Hm)).
  rewrite ksym_line_at_end by (rewrite ksym_line_length; unfold short, U64_MAX in *; lia).
  reflexivity.
Qed.

(** ** Page rounding *)

Lemma sub_mod_multiple x p : 0 < p -> (x - x mod p) mod p = 0.
Proof.
  intros Hp. rewrite (Z.mod_eq x p) at 1 by lia.
  replace (x - (x - p * (x / p))) with ((x / p) * p) by lia. apply Z.mod_mul. lia.
Qed.

(** C16. With a page size [2^k] below [2^64] and a last address at most
    one page below the top of the address space, the rounded bounds are
    page multiples, [start] is the page holding the first address and
    [end] the first page boundary at or above the last address. *)
Theorem round_bounds_cover k first last :
  0 <= k < 64 -> in_u64 first -> in_u64 last -> last <= 2 ^ 64 - 2 ^ k ->
  let '(s, e) := round_bounds (2 ^ k) first last in
  s <= first < s + 2 ^ k /\ s mod 2 ^ k = 0 /\
  last <= e < last + 2 ^ k /\ e mod 2 ^ k = 0 /\ in_u64 e.
Proof.
  intros Hk Hf Hl Htop. unfold round_bounds.
  assert (Hp : 0 < 2 ^ k < 2 ^ 64) by (split; [apply Z.pow_pos_nonneg | apply Z.pow_lt_mono_r]; lia).
  rewrite (u64_small (2 ^ k)) by (unfold in_u64; lia).
  rewrite (u64_small (2 ^ k - 1)) by (unfold in_u64; lia).
  rewrite (u64_small (last + (2 ^ k - 1))) by (unfold in_u64 in *; lia).
  rewrite !land_neg_pow2 by (unfold in_u64 in *; lia).
  pose proof (Z.mod_pos_bound first (2 ^ k) ltac:(lia)).
  pose proof (Z.mod_pos_bound (last + (2 ^ k - 1)) (2 ^ k) ltac:(lia)).
  unfold in_u64 in *.
  repeat split; try lia; apply sub_mod_multiple; lia.
Qed.

(** When the last address lies in the top page, [last += round_kernel
    - 1] wraps around and the end bound is [0]. *)
Lemma round_bounds_wrap k first last :
  0 <= k < 64 -> in_u64 last -> 2 ^ 64 - 2 ^ k < last ->
  snd (round_bounds (2 ^ k) first last) = 0.
Proof.
  intros Hk Hl Htop. unfold round_bounds. simpl.
  assert (Hp : 0 < 2 ^ k < 2 ^ 64) by (split; [apply Z.pow_pos_nonneg | apply Z.pow_lt_mono_r]; lia).
  rewrite (u64_small (2 ^ k)) by (unfold in_u64; lia).
  rewrite (u64_small (2 ^ k - 1)) by (unfold in_u64; lia).
  assert (Hw : u64 (last + (2 ^ k - 1)) = last + (2 ^ k - 1) - 2 ^ 64).
  { unfold u64, in_u64 in *. rewrite <- (Z.mod_add _ (-1)) by lia.
    apply Z.mod_small. lia. }
  rewrite Hw, land_neg_pow2 by (unfold in_u64 in *; lia).
  rewrite Z.mod_small by (unfold in_u64 in *; lia). lia.
Qed.

(** ** Where the scan goes wrong *)

Lemma scan_head b rest :
  no_nl b ->
  split_lines ((b ++ NL) ++ rest)%string = (b ++ NL)%string :: split_lines rest.
Proof. apply split_lines_line. Qed.

Lemma split_lines_text_app a0 r0 syms t :
  no_nl r0 -> Forall (fun '(a, r) => kernel_sym a r) syms ->
  split_lines (ksym_text ((a0, r0) :: syms) t) =
    ksym_line a0 r0 :: map (fun '(a, r) => ksym_line a r) syms ++ split_lines t.
Proof.
  intros H0 Hs. rewrite split_lines_ksym; [reflexivity|].
  constructor; [exact H0 | apply ksym_syms_no_nl, Hs].
Qed.

(** The first [getline] and [strtoull] of the scan on a table that starts
    with a kernel symbol at [a0]. *)
Lemma kallsyms_scan_first page a0 r0 syms t fin :
  0 < a0 < 2 ^ 64 -> no_nl r0 -> Forall (fun '(a, r) => kernel_sym a r) syms ->
  kallsyms_scan page (ksym_text ((a0, r0) :: syms) t) fin =
    match scan_symbols (LBData (last_line (ksym_line a0 r0) syms)) (split_lines t)
                       (last_addr syms 0) with
    | Undefined w => Undefined w
    | Done (LBreak n' buf') => Done (-1, None, getline_at_end n' buf')
    | Done (LTest n' buf' last) =>
        match (if 1 <? n' then
                 match line_at buf' (n' - 2) with
                 | Done c => Done (chr_eqb c "]"%char)
                 | Undefined w => Undefined w
                 end
               else Done false) with
        | Undefined w => Undefined w
        | Done br =>
            if ((n' =? 0) && (getline_at_end n' buf' && match fin with SEof => true | SErr _ => false end)) || br
            then Done (0, Some (round_bounds page a0 last), getline_at_end n' buf')
            else Done (0, None, getline_at_end n' buf')
        end
    end.
Proof.
  intros Ha0 Hr0 Hs. unfold kallsyms_scan.
  rewrite split_lines_text_app by assumption. cbn [getline tl].
  destruct (Z.ltb_spec 0 (Z.of_nat (String.length (ksym_line a0 r0)))) as [_|Hl];
    [|rewrite ksym_line_length in Hl; lia].
  cbn [line_strtoull]. rewrite ksym_strtoull by lia.
  destruct (Z.ltb_spec 0 a0); [|lia]. cbn [andb Z.of_nat Z.ltb Z.compare].
  rewrite scan_symbols_kernel by assumption. reflexivity.
Qed.

(** [/proc/kallsyms] shows every address as [0] to a reader without
    the privilege to see them ([kptr_restrict]). When the first line's
    address reads as [0], the scan returns [0] without writing the
    bounds. *)
Theorem kallsyms_scan_zero_first page b rest fin :
  no_nl b -> short b -> fst (strtoull 16 (b ++ NL)) = 0 ->
  kallsyms_scan page ((b ++ NL) ++ rest)%string fin = Done (0, None, false).
Proof.
  intros Hb Hsh H0. unfold kallsyms_scan. rewrite scan_head by exact Hb. cbn [getline].
  destruct (Z.ltb_spec 0 (Z.of_nat (String.length (b ++ NL)))) as [_|Hl];
    [|rewrite string_append_length in Hl; simpl in Hl; lia].
  cbn [line_strtoull]. destruct (strtoull 16 (b ++ NL)) as [first used].
  simpl in H0. subst first. cbn [Z.ltb Z.compare andb].
  rewrite getline_at_end_line; [reflexivity|].
  rewrite string_append_length. unfold short, U64_MAX in *. simpl String.length. lia.
Qed.


Lemma line_at_eof l :
  Z.of_nat (String.length l) < 2 ^ 63 ->
  line_at (LBData l) (U64_MAX - 2) = Undefined "line[n - 2] outside the line buffer".
Proof.
  intros Hl. unfold line_at, U64_MAX.
  destruct (Z.ltb_spec (2 ^ 64 - 1 - 2) (Z.of_nat (String.length l))); [lia|].
  rewrite andb_false_r. reflexivity.
Qed.

Lemma last_line_short l syms :
  Z.of_nat (String.length l) < 2 ^ 63 -> Forall (fun '(_, r) => short r) syms ->
  Z.of_nat (String.length (last_line l syms)) < 2 ^ 63.
Proof.
  unfold last_line. revert l. induction syms as [|[a r] syms IH]; intros l Hl Hs; [exact Hl|].
  inversion Hs as [|? ? Hr Hs']; subst. cbn [fold_left fst snd]. apply IH; [|exact Hs'].
  rewrite ksym_line_length. unfold short in Hr. lia.
Qed.

(** C21. A table with no module symbol: after its last line [getline]
    returns [-1], at the end of the file as after a read error, [n] is
    [SIZE_MAX], and the loop test reads [line[SIZE_MAX - 2]], far outside
    the line buffer; the [ferror] test after the loop is never reached. *)
Theorem kallsyms_scan_eof_undefined page a0 r0 syms fin :
  0 < a0 < 2 ^ 64 -> no_nl r0 -> short r0 ->
  Forall (fun '(a, r) => kernel_sym a r) syms -> Forall (fun '(_, r) => short r) syms ->
  kallsyms_scan page (ksym_text ((a0, r0) :: syms) EmptyString) fin =
    Undefined "line[n - 2] outside the line buffer".
Proof.
  intros Ha0 Hr0 Hsh0 Hs Hsh. rewrite kallsyms_scan_first by assumption.
  cbn [split_lines scan_symbols getline].
  rewrite line_at_eof; [reflexivity|].
  apply last_line_short; [|exact Hsh]. rewrite ksym_line_length. unfold short in Hsh0. lia.
Qed.

(** An empty line among the kernel symbols ends the loop ([n] is 1)
    and the scan returns [0] without writing the bounds. *)
Theorem kallsyms_scan_blank_line page a0 r0 syms tail fin :
  0 < a0 < 2 ^ 64 -> no_nl r0 -> Forall (fun '(a, r) => kernel_sym a r) syms ->
  kallsyms_scan page (ksym_text ((a0, r0) :: syms) (NL ++ tail)) fin = Done (0, None, false).
Proof.
  intros Ha0 Hr0 Hs. rewrite kallsyms_scan_first by assumption. reflexivity.
Qed.

(** A line among the kernel symbols whose address reads as [0]
    (missing or zero) breaks out of the loop with [result = -1]. *)
Lemma kallsyms_scan_bad_address page a0 r0 syms b tail fin :
  0 < a0 < 2 ^ 64 -> no_nl r0 -> Forall (fun '(a, r) => kernel_sym a r) syms ->
  no_nl b -> short b -> last_char b <> Some "]"%char -> b <> EmptyString ->
  fst (strtoull 16 (b ++ NL)) = 0 ->
  kallsyms_scan page (ksym_text ((a0, r0) :: syms) ((b ++ NL) ++ tail)) fin = Done (-1, None, false).
Proof.
  intros Ha0 Hr0 Hs Hb Hsh Hlast Hne H0. rewrite kallsyms_scan_first by assumption.
  rewrite scan_head by exact Hb. cbn [scan_symbols getline].
  destruct (Z.ltb_spec 1 (Z.of_nat (String.length (b ++ NL)))) as [_|Hl];
    [|rewrite string_append_length in Hl; destruct b; [congruence|simpl in Hl; lia]].
  destruct (last_char_some b Hne) as [c Hc].
  rewrite (line_at_before_nl b c Hc).
  destruct (chr_eqb_spec c "]"%char); [subst; congruence|].
  cbn [line_strtoull]. destruct (strtoull 16 (b ++ NL)) as [v used]. simpl in H0. subst v.
  rewrite orb_true_r. rewrite getline_at_end_line; [reflexivity|].
  rewrite string_append_length. unfold short, U64_MAX in *. simpl String.length. lia.
Qed.

(** A last line without newline whose address reads as [0] breaks out
    of the loop, and its [getline] met the end of the stream. *)
Lemma kallsyms_scan_bad_last page a0 r0 syms b fin :
  0 < a0 < 2 ^ 64 -> no_nl r0 -> Forall (fun '(a, r) => kernel_sym a r) syms ->
  no_nl b -> (2 <= String.length b)%nat ->
  char_at b (String.length b - 2) <> Some "]"%char -> fst (strtoull 16 b) = 0 ->
  kallsyms_scan page (ksym_text ((a0, r0) :: syms) b) fin = Done (-1, None, true).
Proof.
  intros Ha0 Hr0 Hs Hb Hl Hc H0. rewrite kallsyms_scan_first by assumption.
  assert (Hne : b <> EmptyString) by (intros ->; simpl in Hl; lia).
  rewrite split_lines_partial by assumption. cbn [scan_symbols getline].
  destruct (Z.ltb_spec 1 (Z.of_nat (String.length b))) as [_|Hl']; [|lia].
  unfold line_at at 1.
  replace ((0 <=? Z.of_nat (String.length b) - 2) && (Z.of_nat (String.length b) - 2 <? Z.of_nat (String.length b)))
    with true by (symmetry; apply andb_true_iff; split; [apply Z.leb_le | apply Z.ltb_lt]; lia).
  replace (Z.to_nat (Z.of_nat (String.length b) - 2)) with (String.length b - 2)%nat by lia.
  destruct (char_at b (String.length b - 2)) as [c|] eqn:E; [|apply char_at_None in E; lia].
  destruct (chr_eqb_spec c "]"%char) as [->|_]; [congruence|].
  cbn [line_strtoull]. destruct (strtoull 16 b) as [v used]. simpl in H0. subst v.
  rewrite orb_true_r. unfold getline_at_end. rewrite line_reaches_end_partial by assumption.
  rewrite orb_true_r. reflexivity.
Qed.

(** ** The function with its stream *)

Lemma intuit_kernel_bounds_found w s c res b at_end :
  file_lookup w KSYMSFILE = inr c -> fds_below s ->
  kallsyms_scan (w_page_size w) c (stream_end_of w KSYMSFILE) = Done (res, b, at_end) ->
  read_failure (stream_end_of w KSYMSFILE) at_end = None ->
  intuit_kernel_bounds w s =
    Done ((if res =? -1 then ENOEXEC else res, b),
          mkPstate (ps_errno s) (ps_fds s) (ps_next_fd s + 1) (ps_log s ++ [KSYMSFILE])
                   (ps_uts_release s)).
Proof.
  intros Hf Hb Hs Hr. unfold intuit_kernel_bounds.
  rewrite (bind_Done _ _ _ _ _ (sys_fopen_ok w KSYMSFILE c s Hf)).
  unfold lift_exec. cbn [st_data st_end st_fd]. rewrite bind_unfold, Hs. cbv beta iota.
  rewrite bind_unfold, (sys_stream_end_ok (mkStream _ _ _) _ _ Hr). cbv beta iota.
  destruct (res =? -1); rewrite bind_unfold; cbn [ret]; unfold sys_close, modify, ret, bind; simpl;
    rewrite Z.eqb_refl; simpl; rewrite filter_not_in by (apply fds_below_fresh; exact Hb); reflexivity.
Qed.

(** A read error at the end of the stream: a [break] returns its
    [errno], which the failed read left in [errno]. *)
Lemma intuit_kernel_bounds_read_fails w s c res b at_end e :
  file_lookup w KSYMSFILE = inr c -> fds_below s ->
  kallsyms_scan (w_page_size w) c (stream_end_of w KSYMSFILE) = Done (res, b, at_end) ->
  read_failure (stream_end_of w KSYMSFILE) at_end = Some e ->
  intuit_kernel_bounds w s =
    Done ((if res =? -1 then e else res, b),
          mkPstate e (ps_fds s) (ps_next_fd s + 1) (ps_log s ++ [KSYMSFILE]) (ps_uts_release s)).
Proof.
  intros Hf Hb Hs Hr. unfold intuit_kernel_bounds.
  rewrite (bind_Done _ _ _ _ _ (sys_fopen_ok w KSYMSFILE c s Hf)).
  unfold lift_exec. cbn [st_data st_end st_fd]. rewrite bind_unfold, Hs. cbv beta iota.
  rewrite bind_unfold, (sys_stream_end_fail (mkStream _ _ _) _ _ _ Hr). cbv beta iota.
  destruct (res =? -1); rewrite bind_unfold; cbn [ret get_errno]; unfold sys_close, modify, ret, bind; simpl;
    rewrite Z.eqb_refl; simpl; rewrite filter_not_in by (apply fds_below_fresh; exact Hb); reflexivity.
Qed.

(** Without [/proc/kallsyms] (absent, or not readable), the function
    returns the [errno] of [fopen] and writes no bounds; the caller takes
    [ENOENT] as "look for the vmlinux file instead". *)
Lemma intuit_kernel_bounds_no_file w s e :
  file_lookup w KSYMSFILE = inl e ->
  intuit_kernel_bounds w s =
    Done ((e, None), mkPstate e (ps_fds s) (ps_next_fd s) (ps_log s ++ [KSYMSFILE])
                              (ps_uts_release s)).
Proof.
  intros Hf. unfold intuit_kernel_bounds.
  rewrite (bind_Done _ _ _ _ _ (sys_fopen_err w KSYMSFILE e s Hf)). reflexivity.
Qed.

(** C23. When the last line of [/proc/kallsyms] has no newline and its
    address reads as [0], [intuit_kernel_bounds] fails with [ENOEXEC]
    if the file simply ended there; if reading past that line failed (a
    read error, [ferror]), it returns that read's [errno], which it also
    leaves in [errno]. No bounds are written. *)
Theorem intuit_kernel_bounds_read_error w s a0 r0 syms b :
  0 < a0 < 2 ^ 64 -> no_nl r0 -> Forall (fun '(a, r) => kernel_sym a r) syms ->
  no_nl b -> (2 <= String.length b)%nat ->
  char_at b (String.length b - 2) <> Some "]"%char -> fst (strtoull 16 b) = 0 ->
  file_lookup w KSYMSFILE = inr (ksym_text ((a0, r0) :: syms) b) -> fds_below s ->
  intuit_kernel_bounds w s =
    match stream_end_of w KSYMSFILE with
    | SErr e => Done ((Zpos e, None), mkPstate (Zpos e) (ps_fds s) (ps_next_fd s + 1)
                                           (ps_log s ++ [KSYMSFILE]) (ps_uts_release s))
    | SEof => Done ((ENOEXEC, None), mkPstate (ps_errno s) (ps_fds s) (ps_next_fd s + 1)
                                                (ps_log s ++ [KSYMSFILE]) (ps_uts_release s))
    end.
Proof.
  intros Ha0 Hr0 Hs Hb Hl Hc H0 Hf Hfd.
  destruct (stream_end_of w KSYMSFILE) as [|e] eqn:He;
    pose proof (kallsyms_scan_bad_last (w_page_size w) a0 r0 syms b (stream_end_of w KSYMSFILE)
                  Ha0 Hr0 Hs Hb Hl Hc H0) as Hscan.
  - rewrite (intuit_kernel_bounds_found w s _ _ _ _ Hf Hfd Hscan); [reflexivity | rewrite He; reflexivity].
  - rewrite (intuit_kernel_bounds_read_fails w s _ _ _ _ (Zpos e) Hf Hfd Hscan); [reflexivity | rewrite He; reflexivity].
Qed.

(** Whatever the file holds, a defined run of [intuit_kernel_bounds]
    opens only [/proc/kallsyms] and closes the stream it opened. *)
Lemma intuit_kernel_bounds_closes w s r s' :
  fds_below s -> intuit_kernel_bounds w s = Done (r, s') ->
  ps_fds s' = ps_fds s /\ ps_log s' = ps_log s ++ [KSYMSFILE].
Proof.
  intros Hb Hrun. destruct (file_lookup w KSYMSFILE) as [e|c] eqn:Hf.
  - rewrite (intuit_kernel_bounds_no_file w s e Hf) in Hrun.
    injection Hrun as _ <-. split; reflexivity.
  - destruct (kallsyms_scan (w_page_size w) c (stream_end_of w KSYMSFILE)) as [[[res b] at_end]|why] eqn:Hs.
    + destruct (read_failure (stream_end_of w KSYMSFILE) at_end) as [e|] eqn:Hr.
      * rewrite (intuit_kernel_bounds_read_fails w s c res b at_end e Hf Hb Hs Hr) in Hrun.
        injection Hrun as _ <-. split; reflexivity.
      * rewrite (intuit_kernel_bounds_found w s c res b at_end Hf Hb Hs Hr) in Hrun.
        injection Hrun as _ <-. split; reflexivity.
    + unfold intuit_kernel_bounds in Hrun.
      rewrite (bind_Done _ _ _ _ _ (sys_fopen_ok w KSYMSFILE c s Hf)) in Hrun.
      unfold bind, lift_exec in Hrun. cbn [st_data st_end] in Hrun. rewrite Hs in Hrun. discriminate.
Qed.

(** ** Witnesses *)

(** Discharges [kernel_sym], [module_sym], [no_nl] and [short] on concrete
    lines. *)
Ltac ksym_facts :=
  repeat constructor; cbn beta iota; repeat split;
  try lia; try reflexivity; try (unfold short; simpl; lia); try (vm_compute; discriminate).

(** The scenario of the specification: [startup_64] at
    [0xffffffff81000000], kernel symbols up to [_end], then a symbol of
    module [nfsd] at [0xffffffffa0612000]. *)
Definition spec_kernel_syms : list (Z * string) :=
  [(0xffffffff81000100, "T x86_64_start_kernel"); (0xffffffff81e00000, "D _end")].

Definition spec_kallsyms : string :=
  ksym_text ((0xffffffff81000000, "T startup_64") :: spec_kernel_syms ++
             [(0xffffffffa0612000, "b nfsd_x [nfsd]")]) EmptyString.

Lemma kallsyms_scan_bounds_witness :
  kallsyms_scan 4096 spec_kallsyms SEof =
    Done (0, Some (round_bounds 4096 0xffffffff81000000 (last_addr spec_kernel_syms 0)), false).
Proof.
  apply kallsyms_scan_bounds; ksym_facts.
Defined.

(** The end bound is [_end]'s page, not the page after the [nfsd] symbol
    the specification's scenario expects. *)
Lemma kallsyms_spec_scenario :
  kallsyms_scan 4096 spec_kallsyms SEof = Done (0, Some (0xffffffff81000000, 0xffffffff81e00000), false) /\
  0xffffffff81e00000 < 0xffffffffa0612000.
Proof. split; [vm_compute; reflexivity | lia]. Qed.

Lemma round_bounds_cover_witness :
  let '(s, e) := round_bounds (2 ^ 12) 0xffffffff81000123 0xffffffff81e00001 in
  s <= 0xffffffff81000123 < s + 2 ^ 12 /\ s mod 2 ^ 12 = 0 /\
  0xffffffff81e00001 <= e < 0xffffffff81e00001 + 2 ^ 12 /\ e mod 2 ^ 12 = 0 /\ in_u64 e.
Proof. apply round_bounds_cover; unfold in_u64; lia. Defined.

Lemma round_bounds_wrap_witness :
  snd (round_bounds (2 ^ 12) 0xffffffff81000000 0xfffffffffffff800) = 0.
Proof. apply round_bounds_wrap; unfold in_u64; lia. Defined.

Lemma kallsyms_scan_zero_first_witness :
  kallsyms_scan 4096 ((ksym_body 0 "T startup_64" ++ NL) ++ spec_kallsyms)%string SEof = Done (0, None, false).
Proof. apply kallsyms_scan_zero_first; [vm_compute; reflexivity | unfold short; simpl; lia | vm_compute; reflexivity]. Defined.

Lemma kallsyms_scan_eof_undefined_witness :
  kallsyms_scan 4096 (ksym_text ((0xffffffff81000000, "T startup_64") :: spec_kernel_syms)
                                EmptyString) SEof =
    Undefined "line[n - 2] outside the line buffer".
Proof.
  apply kallsyms_scan_eof_undefined; ksym_facts.
Defined.

Lemma kallsyms_scan_blank_line_witness :
  kallsyms_scan 4096 (ksym_text ((0xffffffff81000000, "T startup_64") :: spec_kernel_syms)
                                (NL ++ spec_kallsyms)) SEof = Done (0, None, false).
Proof.
  apply kallsyms_scan_blank_line; ksym_facts.
Defined.

Lemma kallsyms_scan_bad_address_witness :
  kallsyms_scan 4096 (ksym_text ((0xffffffff81000000, "T startup_64") :: spec_kernel_syms)
                                (("zzzz T broken" ++ NL) ++ spec_kallsyms)) SEof =
    Done (-1, None, false).
Proof.
  apply kallsyms_scan_bad_address; ksym_facts.
Defined.

(** A host whose [/proc/kallsyms] is the scenario's, and one without it. *)
Definition host_kallsyms (contents : option string) : world :=
  mkWorld (match contents with Some c => {[ KSYMSFILE := FReg c ]} | None => ∅ end)
          ∅ (Some "2.6.23") 0 4096 None (fun _ _ => inl ENOENT) [].

Definition pstate0 : pstate := mkPstate 0 [] 3 [] EmptyString.


Lemma intuit_kernel_bounds_closes_witness :
  fds_below pstate0 /\
  ps_fds (mkPstate 0 [] 4 [KSYMSFILE] EmptyString) = ps_fds pstate0 /\
  ps_log (mkPstate 0 [] 4 [KSYMSFILE] EmptyString) = ps_log pstate0 ++ [KSYMSFILE].
Proof.
  assert (Hb : fds_below pstate0) by constructor.
  split; [exact Hb|].
  apply (intuit_kernel_bounds_closes (host_kallsyms (Some spec_kallsyms)) pstate0
           (0, Some (0xffffffff81000000, 0xffffffff81e00000))); [exact Hb|].
  vm_compute. reflexivity.
Defined.

(** [/proc/kallsyms] cut short by an I/O error inside a malformed line. *)
Definition broken_kallsyms : string :=
  ksym_text ((0xffffffff81000000, "T startup_64") :: spec_kernel_syms) "zzzz T broken".

Definition host_kallsyms_eio : world :=
  mkWorld {[ KSYMSFILE := FRegErr broken_kallsyms 5 ]}
          ∅ (Some "2.6.23") 0 4096 None (fun _ _ => inl ENOENT) [].

Lemma intuit_kernel_bounds_read_error_witness :
  intuit_kernel_bounds host_kallsyms_eio pstate0 =
    Done ((EIO, None), mkPstate EIO [] 4 [KSYMSFILE] EmptyString).
Proof.
  etransitivity.
  - apply (intuit_kernel_bounds_read_error host_kallsyms_eio pstate0 0xffffffff81000000 "T startup_64"
             spec_kernel_syms "zzzz T broken");
      [lia | vm_compute; reflexivity | ksym_facts | vm_compute; reflexivity | simpl; lia
      | vm_compute; discriminate | vm_compute; reflexivity | vm_compute; reflexivity | constructor].
  - vm_compute. reflexivity.
Defined.
