(* ===== verification/SectionAddress.v ===== *)
(** * Section addresses from sysfs: [dwfl_linux_kernel_module_section_address]

    [dwfl_linux_kernel_module_section_address] (C lines 500-599) reads the
    address of section [secname] of module [modname] from
    [/sys/module/modname/sections/secname]. When that file does not exist
    ([ENOENT]) it
    - answers "absent" ([*addr = -1], [DWARF_CB_OK]) for [.modinfo],
      [.data.percpu] and the [.exit*] sections;
    - for an [.init*] section tries the name with [_] for the leading [.];
    - for a name of [MODULE_SECT_NAME_LEN] characters or more, tries the
      name truncated to each length from [strlen - 1] down to
      [MODULE_SECT_NAME_LEN - 1], each with its [_] variant for [.init*];
    and otherwise returns [DWARF_CB_ABORT] with [errno] from the last
    [fopen]. A file found is read with [fscanf (f, "%" PRIx64 "\n", addr)].

    [section_address] is the C function; [resolve_spec] is the contract
    (the ordered list of candidate files, first readable one wins) and
    [section_address_refines] shows the function implements it when no
    allocation fails. The function returns an [int]: a failed [asprintf]
    returns [ENOMEM], outside [DWARF_CB_OK]/[DWARF_CB_ABORT]
    ([section_address_result]). *)

From Stdlib Require Import ZArith Lia String Ascii List Bool.
From stdpp Require Import base list strings gmap.
From S2P Require Import Prelude Evolves CNum Scanf Os.

Local Open Scope Z_scope.

(** The function returns an [int]: one of [enum { DWARF_CB_OK = 0,
    DWARF_CB_ABORT }] of [libdw.h], or [ENOMEM] when [asprintf] fails. *)
Definition cb_result : Type := Z.
Definition DWARF_CB_OK : cb_result := 0.
Definition DWARF_CB_ABORT : cb_result := 1.

Definition MODULE_SECT_NAME_LEN : nat := 32.

(** [SECADDRDIRFMT], ["/sys/module/%s/sections/"]. *)
Definition secaddr_dir (modname : string) : string :=
  ("/sys/module/" ++ modname ++ "/sections/")%string.

(** The sections the kernel never keeps loaded (C lines 528-530). *)
Definition never_loaded (secname : string) : bool :=
  streq secname ".modinfo" || streq secname ".data.percpu" || starts_with ".exit" secname.

(** [!strncmp (secname, ".init", 5)] (C line 541). *)
Definition is_init (secname : string) : bool := starts_with ".init" secname.

(** The [k] first characters of [secname], with the first one replaced by
    [_] when [underscore] holds: [sysfile] after [*--end = '\0'], and
    after [sysfile[len - namelen] = '_']. *)
Definition trunc_name (secname : string) (k : nat) (underscore : bool) : string :=
  if underscore then ("_" ++ substring 1 (k - 1) secname)%string else substring 0 k secname.

(** The format of C line 590. *)
Definition secaddr_format : string := ("%" ++ PRIx64 ++ NL)%string.

Definition scanned_addr (vals : list scan_val) : option Z :=
  match vals with VNum v :: _ => Some v | _ => None end.

(** One iteration's [fopen] calls (C lines 566-573): the truncated name,
    then for an [.init*] section its [_] variant if the first is missing. *)
Definition trunc_try (w : world) (dir secname : string) (init : bool) (k : nat)
  : M pstate (option stream) :=
  let* f := sys_fopen w (dir ++ trunc_name secname k false) in
  match f with
  | Some _ => ret f
  | None =>
      let* e := get_errno in
      if init && (e =? ENOENT) then sys_fopen w (dir ++ trunc_name secname k true)
      else ret None
  end.

(** The truncation loop of C lines 564-576, one iteration per value [k]
    of [end - &sysfile[len - namelen]]: a stream, or [NULL] with [errno]
    from the last [fopen]. *)
Fixpoint trunc_loop (w : world) (dir secname : string) (init : bool) (k : nat)
  : M pstate (option stream) :=
  let* f := trunc_try w dir secname init k in
  match f with
  | Some _ => ret f
  | None =>
      let* e := get_errno in
      if (e =? ENOENT) && (MODULE_SECT_NAME_LEN <=? k)%nat then
        match k with
        | S k' => trunc_loop w dir secname init k'
        | O => ret None
        end
      else ret None
  end.

(** Reading the value at [ok:] (C lines 587-598): the return value, and
    [*addr] when it was written. [fscanf] met the end of the stream when
    it returned [EOF] (white space, then nothing); the flags are read
    only when it did not return 1. *)
Definition read_addr (f : stream) : M pstate (cb_result * option Z) :=
  let '(n, vals) := fscanf secaddr_format (st_data f) in
  let* result :=
    if n =? 1 then ret 0
    else let* '(ferr, _) := sys_stream_end f (n =? EOF) in
         if ferr then get_errno else ret ENOEXEC in
  sys_close (st_fd f);;
  if result =? 0 then ret (DWARF_CB_OK, scanned_addr vals)
  else set_errno result;; ret (DWARF_CB_ABORT, None).

(** The fallbacks for a missing file (C lines 536-581): a stream, or the
    value to return ([ENOMEM] when an [asprintf] fails). *)
Definition sec_fallbacks (w : world) (dir secname : string)
  : M pstate ((cb_result * option Z) + stream) :=
  let init := is_init secname in
  let* f1 := if init then
               let* a := sys_asprintf w (dir ++ "_" ++ str_drop 1 secname) in
               match a with
               | None => ret (inl (ENOMEM, None))
               | Some sysfile => let* f := sys_fopen w sysfile in ret (inr f)
               end
             else ret (inr None) in
  match f1 with
  | inl r => ret (inl r)
  | inr (Some h) => ret (inr h)
  | inr None =>
      if (MODULE_SECT_NAME_LEN <=? String.length secname)%nat then
        let* a := sys_asprintf w (dir ++ secname) in
        match a with
        | None => ret (inl (ENOMEM, None))
        | Some _ =>
            let* f2 := trunc_loop w dir secname init (String.length secname - 1) in
            match f2 with
            | Some h => ret (inr h)
            | None => ret (inl (DWARF_CB_ABORT, None))
            end
        end
      else ret (inl (DWARF_CB_ABORT, None))
  end.

(** The function: its return value and [*addr] when written. *)
Definition section_address (w : world) (modname secname : string)
  : M pstate (cb_result * option Z) :=
  let dir := secaddr_dir modname in
  let* a := sys_asprintf w (dir ++ secname) in
  match a with
  | None => ret (ENOMEM, None)
  | Some sysfile =>
      let* f := sys_fopen w sysfile in
      let* found :=
        match f with
        | Some h => ret (inr h)
        | None =>
            let* e := get_errno in
            if e =? ENOENT then
              if never_loaded secname then ret (inl (DWARF_CB_OK, Some U64_MAX))
              else sec_fallbacks w dir secname
            else ret (inl (DWARF_CB_ABORT, None))
        end in
      match found with
      | inl r => ret r
      | inr f => read_addr f
      end
  end.

(** ** The contract *)

(** What a call tells its caller: the section is at an address, is not
    loaded, or the lookup failed with an [errno]. *)
Inductive sec_outcome : Type :=
| Mapped (addr : Z)
| Absent
| Failed (errno : Z).

(** How the C function encodes an outcome: return value and [*addr];
    a failure also leaves its code in [errno]. *)
Definition to_c (o : sec_outcome) : cb_result * option Z :=
  match o with
  | Mapped a => (DWARF_CB_OK, Some a)
  | Absent => (DWARF_CB_OK, Some U64_MAX)
  | Failed _ => (DWARF_CB_ABORT, None)
  end.

(** The value of a section file: its number, or a failure: the [errno]
    of a read error met before any number, [ENOEXEC] for anything else. *)
Definition parse_sysfs_value (contents : string) (fin : stream_end) : sec_outcome :=
  let '(n, vals) := fscanf secaddr_format contents in
  if n =? 1 then
    match scanned_addr vals with Some v => Mapped v | None => Failed ENOEXEC end
  else Failed (match read_failure fin (n =? EOF) with Some e => e | None => ENOEXEC end).

(** The values of [end - &sysfile[len - namelen]] the loop goes through. *)
Fixpoint trunc_lengths (k : nat) : list nat :=
  k :: (if (MODULE_SECT_NAME_LEN <=? k)%nat then
          match k with S k' => trunc_lengths k' | O => [] end
        else []).

(** The files tried after the section's own file is found missing, in
    order. *)
Definition sec_candidates (modname secname : string) : list string :=
  let dir := secaddr_dir modname in
  let init := is_init secname in
  (if init then [(dir ++ "_" ++ str_drop 1 secname)%string] else []) ++
  (if (MODULE_SECT_NAME_LEN <=? String.length secname)%nat then
     flat_map (fun k => (dir ++ trunc_name secname k false)%string ::
                        (if init then [(dir ++ trunc_name secname k true)%string] else []))
              (trunc_lengths (String.length secname - 1))
   else []).

Fixpoint first_found (w : world) (paths : list string) : option (string * stream_end) :=
  match paths with
  | [] => None
  | p :: ps => match file_lookup w p with
               | inr c => Some (c, stream_end_of w p)
               | inl _ => first_found w ps
               end
  end.

(** The paths opened until the first that exists. *)
Fixpoint probed (w : world) (paths : list string) : list string :=
  match paths with
  | [] => []
  | p :: ps => p :: match file_lookup w p with inr _ => [] | inl _ => probed w ps end
  end.

Definition resolve_spec (w : world) (modname secname : string) : sec_outcome :=
  match file_lookup w (secaddr_dir modname ++ secname) with
  | inr c => parse_sysfs_value c (stream_end_of w (secaddr_dir modname ++ secname))
  | inl e =>
      if e =? ENOENT then
        if never_loaded secname then Absent
        else match first_found w (sec_candidates modname secname) with
             | Some (c, fin) => parse_sysfs_value c fin
             | None => Failed ENOENT
             end
      else Failed e
  end.

Definition resolve_probes (w : world) (modname secname : string) : list string :=
  let direct := (secaddr_dir modname ++ secname)%string in
  direct :: match file_lookup w direct with
            | inl e => if (e =? ENOENT) && negb (never_loaded secname)
                       then probed w (sec_candidates modname secname) else []
            | inr _ => []
            end.

(** Every candidate that cannot be opened is missing ([ENOENT]), the case
    the fallbacks are written for. *)
Definition enoent_only (w : world) (paths : list string) : Prop :=
  Forall (fun p => match file_lookup w p with inl e => e = ENOENT | inr _ => True end) paths.

(** Opening candidates in order until one opens. *)
Fixpoint probe_first (w : world) (paths : list string) : M pstate (option stream) :=
  match paths with
  | [] => ret None
  | p :: ps =>
      let* f := sys_fopen w p in
      match f with Some h => ret (Some h) | None => probe_first w ps end
  end.

(** ** Lemmas *)

(** Past the first [asprintf], which succeeds without memory exhaustion. *)
Ltac sa_start :=
  unfold section_address; rewrite bind_unfold, sys_asprintf_ok by auto with kmod; cbv beta iota.


Lemma secaddr_format_directives : parse_format secaddr_format = [DConv false (CNum 16); DWs].
Proof. reflexivity. Qed.

(** [fscanf] with the one-conversion format assigns a number when it
    returns 1. *)
Lemma fscanf_secaddr_one c :
  fst (fscanf secaddr_format c) = 1 -> exists v, scanned_addr (snd (fscanf secaddr_format c)) = Some v.
Proof.
  unfold fscanf. rewrite secaddr_format_directives. cbn [vscanf].
  destruct (str_drop (ws_len c) c) as [|ch r]; [simpl; discriminate|].
  destruct (conv_one (CNum 16) (String ch r)) as [[v n]|] eqn:Hk; [|simpl; discriminate].
  unfold conv_one in Hk. destruct (scan_number 16 (String ch r)) as [[z m]|]; [|discriminate].
  injection Hk as <- _. intros _. exists z. reflexivity.
Qed.

Lemma read_addr_spec f s :
  read_addr f s =
    Done (to_c (parse_sysfs_value (st_data f) (st_end f)),
          mkPstate (match parse_sysfs_value (st_data f) (st_end f) with Failed e => e | _ => ps_errno s end)
                   (List.filter (fun x => negb (x =? st_fd f)) (ps_fds s))
                   (ps_next_fd s) (ps_log s) (ps_uts_release s)).
Proof.
  unfold read_addr, parse_sysfs_value.
  pose proof (fscanf_secaddr_one (st_data f)) as Hone.
  destruct (fscanf secaddr_format (st_data f)) as [n vals]. simpl in Hone.
  destruct (Z.eqb_spec n 1) as [->|Hn].
  - destruct (Hone eq_refl) as [v Hv]. rewrite Hv. reflexivity.
  - rewrite bind_assoc, bind_unfold.
    destruct (read_failure (st_end f) (n =? EOF)) as [e|] eqn:Hr.
    + rewrite (sys_stream_end_fail f _ e s Hr). cbv beta iota.
      pose proof (read_failure_pos _ _ _ Hr) as He.
      unfold get_errno, bind, sys_close, set_errno, modify, ret. cbn.
      destruct (Z.eqb_spec e 0); [lia | reflexivity].
    + rewrite (sys_stream_end_ok f _ s Hr). reflexivity.
Qed.

Lemma enoent_head w p ps e :
  enoent_only w (p :: ps) -> file_lookup w p = inl e -> e = ENOENT.
Proof. intros Hok Hf. inversion Hok as [|? ? Hp _]; subst. rewrite Hf in Hp. exact Hp. Qed.

(** Probing a list of missing-or-present files: the first present one is
    opened, every path up to it is logged, [errno] stays [ENOENT]. *)
Lemma probe_first_spec w ps s :
  enoent_only w ps -> ps_errno s = ENOENT ->
  probe_first w ps s =
    Done (match first_found w ps with Some (c, fin) => Some (mkStream (ps_next_fd s) c fin) | None => None end,
          match first_found w ps with
          | Some _ => mkPstate ENOENT (ps_next_fd s :: ps_fds s) (ps_next_fd s + 1)
                               (ps_log s ++ probed w ps) (ps_uts_release s)
          | None => mkPstate ENOENT (ps_fds s) (ps_next_fd s) (ps_log s ++ probed w ps)
                             (ps_uts_release s)
          end).
Proof.
  revert s. induction ps as [|p ps IH]; intros s Hok He.
  - destruct s; simpl in *; subst. rewrite app_nil_r. reflexivity.
  - inversion Hok as [|? ? Hp Hps]; subst. cbn [probe_first first_found probed].
    destruct (file_lookup w p) as [e|c] eqn:Hf.
    + rewrite (bind_fopen_err w p e _ s Hf). subst e.
      rewrite IH by (try exact Hps; reflexivity). cbn.
      rewrite <- app_assoc. destruct (first_found w ps); reflexivity.
    + rewrite (bind_fopen_ok w p c _ s Hf). rewrite He. reflexivity.
Qed.

Definition trunc_probes (dir secname : string) (init : bool) (k : nat) : list string :=
  (dir ++ trunc_name secname k false)%string ::
  (if init then [(dir ++ trunc_name secname k true)%string] else []).

Lemma probe_first_app w xs ys s :
  probe_first w (xs ++ ys) s =
    bind (probe_first w xs)
         (fun f => match f with Some h => ret (Some h) | None => probe_first w ys end) s.
Proof.
  revert s. induction xs as [|p xs IH]; intros s; [reflexivity|].
  cbn [app probe_first]. rewrite bind_assoc. unfold bind at 1 2.
  destruct (sys_fopen w p s) as [[[h|] s1]|why]; [reflexivity | apply IH | reflexivity].
Qed.

(** A probe of missing files leaves [errno] at [ENOENT]. *)
Lemma probe_first_none_errno w ps s s1 :
  enoent_only w ps -> ps <> [] -> probe_first w ps s = Done (None, s1) -> ps_errno s1 = ENOENT.
Proof.
  revert s. induction ps as [|p ps IH]; intros s Hok Hne Hrun; [congruence|].
  inversion Hok as [|? ? Hp Hps]; subst. cbn [probe_first] in Hrun.
  destruct (file_lookup w p) as [e|c] eqn:Hf.
  - rewrite (bind_fopen_err w p e _ s Hf) in Hrun.
    rewrite (enoent_head w p ps e Hok Hf) in Hrun. destruct ps as [|q ps].
    + injection Hrun as <-. reflexivity.
    + eapply IH; [exact Hps | discriminate | exact Hrun].
  - rewrite (bind_fopen_ok w p c _ s Hf) in Hrun. discriminate.
Qed.

Lemma trunc_try_probe w dir secname init k s :
  enoent_only w (trunc_probes dir secname init k) ->
  trunc_try w dir secname init k s = probe_first w (trunc_probes dir secname init k) s.
Proof.
  unfold trunc_try, trunc_probes. intros Hok. inversion Hok as [|? ? H1 Halt]; subst.
  cbn [probe_first].
  destruct (file_lookup w (dir ++ trunc_name secname k false)%string) as [e1|c1] eqn:F1.
  - rewrite !(bind_fopen_err w _ e1 _ s F1). rewrite (enoent_head w _ _ e1 Hok F1).
    unfold bind at 1. cbn [get_errno]. destruct init; [|reflexivity].
    cbn [andb Z.eqb probe_first]. inversion Halt as [|? ? H2 _]; subst.
    destruct (file_lookup w (dir ++ trunc_name secname k true)%string) as [e2|c2] eqn:F2.
    + rewrite (bind_fopen_err w _ e2 _ _ F2). apply sys_fopen_err, F2.
    + rewrite (bind_fopen_ok w _ c2 _ _ F2). apply sys_fopen_ok, F2.
  - rewrite !(bind_fopen_ok w _ c1 _ s F1). reflexivity.
Qed.

(** The truncation loop is [probe_first] over its candidate names. *)
Lemma trunc_loop_probe w dir secname init k s :
  enoent_only w (flat_map (trunc_probes dir secname init) (trunc_lengths k)) ->
  trunc_loop w dir secname init k s =
    probe_first w (flat_map (trunc_probes dir secname init) (trunc_lengths k)) s.
Proof.
  revert s. induction k as [|k IH]; intros s Hok;
    cbn [trunc_lengths flat_map] in *; apply Forall_app in Hok as [Hhere Hrest];
    rewrite probe_first_app; cbn [trunc_loop]; unfold bind at 1 3;
    rewrite (trunc_try_probe w dir secname init _ s Hhere);
    destruct (probe_first w (trunc_probes dir secname init _) s) as [[[h|] s1]|why] eqn:E;
    try reflexivity;
    (assert (He : ps_errno s1 = ENOENT)
      by (eapply probe_first_none_errno; [exact Hhere | unfold trunc_probes; discriminate | exact E]));
    unfold bind, get_errno; rewrite He; cbn [Z.eqb Pos.eqb andb].
  - destruct (MODULE_SECT_NAME_LEN <=? 0)%nat; reflexivity.
  - destruct (MODULE_SECT_NAME_LEN <=? S k)%nat; [|reflexivity].
    cbn -[trunc_loop probe_first]. apply IH. exact Hrest.
Qed.

Lemma bind_probe_first_app {A} w xs ys (K : option stream -> M pstate A) s :
  bind (probe_first w (xs ++ ys)) K s =
    bind (probe_first w xs)
         (fun f => match f with Some h => K (Some h) | None => bind (probe_first w ys) K end) s.
Proof.
  revert s. induction xs as [|p xs IH]; intros s; [reflexivity|].
  cbn [app probe_first]. rewrite !bind_assoc. unfold bind at 1 3.
  destruct (sys_fopen w p s) as [[[h|] s1]|why]; [reflexivity | apply IH | reflexivity].
Qed.

Lemma probe_first_single w p s :
  probe_first w [p] s =
    bind (sys_fopen w p) (fun f => match f with Some h => ret (Some h) | None => ret None end) s.
Proof. reflexivity. Qed.

(** The fallbacks are a probe of [sec_candidates], first found wins. *)
Lemma sec_fallbacks_probe w modname secname s :
  w_nomem w = [] -> enoent_only w (sec_candidates modname secname) ->
  sec_fallbacks w (secaddr_dir modname) secname s =
    bind (probe_first w (sec_candidates modname secname))
         (fun f => ret (match f with Some h => inr h | None => inl (DWARF_CB_ABORT, @None Z) end)) s.
Proof.
  unfold sec_fallbacks, sec_candidates. intros Hm Hok.
  apply Forall_app in Hok as [Hinit Htrunc].
  rewrite bind_probe_first_app.
  assert (Htail : forall s1,
    (if (MODULE_SECT_NAME_LEN <=? String.length secname)%nat then
       let* a := sys_asprintf w (secaddr_dir modname ++ secname) in
       match a with
       | None => ret (inl (ENOMEM, @None Z))
       | Some _ =>
           let* f2 := trunc_loop w (secaddr_dir modname) secname (is_init secname)
                                 (String.length secname - 1) in
           match f2 with Some h => ret (inr h) | None => ret (inl (DWARF_CB_ABORT, @None Z)) end
       end
     else ret (inl (DWARF_CB_ABORT, @None Z))) s1 =
    bind (probe_first w (if (MODULE_SECT_NAME_LEN <=? String.length secname)%nat then
                           flat_map (trunc_probes (secaddr_dir modname) secname (is_init secname))
                                    (trunc_lengths (String.length secname - 1)) else []))
         (fun f => ret (match f with Some h => inr h | None => inl (DWARF_CB_ABORT, @None Z) end)) s1).
  { intros s1. destruct (MODULE_SECT_NAME_LEN <=? String.length secname)%nat; [|reflexivity].
    rewrite bind_unfold, sys_asprintf_ok by auto with kmod. cbv beta iota.
    unfold bind at 1 2. rewrite trunc_loop_probe by exact Htrunc.
    destruct (probe_first _ _ s1) as [[[h|] s2]|why]; reflexivity. }
  destruct (is_init secname).
  - cbn [probe_first]. rewrite !bind_assoc.
    rewrite (bind_Done (sys_asprintf w (secaddr_dir modname ++ "_" ++ str_drop 1 secname)%string) _ s
               (Some (secaddr_dir modname ++ "_" ++ str_drop 1 secname)%string) s)
      by (apply sys_asprintf_ok; auto with kmod).
    cbv beta iota. rewrite bind_assoc.
    destruct (sys_fopen w (secaddr_dir modname ++ "_" ++ str_drop 1 secname)%string s)
      as [[[h|] s1]|why] eqn:E.
    + rewrite !(bind_Done _ _ _ _ _ E). reflexivity.
    + rewrite !(bind_Done _ _ _ _ _ E). apply Htail.
    + rewrite !(bind_Undefined _ _ _ _ E). reflexivity.
  - cbn [probe_first]. rewrite bind_ret_l. apply Htail.
Qed.

Lemma bind_sec_fallbacks {A} w modname secname (K : _ -> M pstate A) s :
  w_nomem w = [] -> enoent_only w (sec_candidates modname secname) ->
  bind (sec_fallbacks w (secaddr_dir modname) secname) K s =
    bind (probe_first w (sec_candidates modname secname))
         (fun f => K (match f with Some h => inr h | None => inl (DWARF_CB_ABORT, None) end)) s.
Proof.
  intros Hm Hok. unfold bind at 1. rewrite sec_fallbacks_probe by assumption.
  unfold bind. destruct (probe_first w _ s) as [[f s1]|why]; reflexivity.
Qed.

(** [read_addr] on the stream just opened: the outcome of the contents,
    and the descriptor set of before the [fopen]. *)
Lemma read_addr_fresh c fin e fds n l u :
  ~ In n fds ->
  read_addr (mkStream n c fin) (mkPstate e (n :: fds) (n + 1) l u) =
    Done (to_c (parse_sysfs_value c fin),
          mkPstate (match parse_sysfs_value c fin with Failed e' => e' | _ => e end) fds (n + 1) l u).
Proof.
  intros Hn. rewrite read_addr_spec. cbn [ps_fds ps_errno ps_next_fd ps_log ps_uts_release st_fd st_data st_end].
  rewrite close_fresh by exact Hn. reflexivity.
Qed.

(** C1. Refinement: when every candidate file is either present or
    missing, [dwfl_linux_kernel_module_section_address] returns the
    encoding of [resolve_spec] (the first readable candidate, in the order
    of [sec_candidates], parsed with [fscanf]; "absent" for sections never
    loaded; [ENOENT] when none exists), leaves the failure's code in
    [errno], opens exactly the files of [resolve_probes] in that order, and
    closes every stream it opened. *)
Theorem section_address_refines w modname secname s :
  w_nomem w = [] ->
  fds_below s -> enoent_only w (sec_candidates modname secname) ->
  exists s',
    section_address w modname secname s = Done (to_c (resolve_spec w modname secname), s') /\
    ps_fds s' = ps_fds s /\
    ps_log s' = ps_log s ++ resolve_probes w modname secname /\
    (forall e, resolve_spec w modname secname = Failed e -> ps_errno s' = e).
Proof.
  intros Hm Hb Hok. pose proof (fds_below_fresh s Hb) as Hfresh.
  sa_start. unfold resolve_spec, resolve_probes.
  destruct (file_lookup w (secaddr_dir modname ++ secname)%string) as [e|c] eqn:Fd.
  - rewrite (bind_fopen_err _ _ e _ s Fd). rewrite bind_assoc, bind_get_errno. cbn [ps_errno].
    destruct (Z.eqb_spec e ENOENT) as [->|He]; cbn [andb negb].
    + destruct (never_loaded secname) eqn:Hn; cbn [negb andb].
      * eexists. split; [reflexivity|]. split; [reflexivity|]. split; [reflexivity|].
        discriminate.
      * rewrite (bind_sec_fallbacks w modname secname _ _ Hm Hok).
        erewrite bind_Done; [| apply probe_first_spec; [exact Hok | reflexivity]].
        cbn [ps_next_fd ps_fds ps_log ps_uts_release].
        destruct (first_found w (sec_candidates modname secname)) as [[c' fin]|].
        -- rewrite read_addr_fresh by exact Hfresh.
           eexists. split; [reflexivity|]. split; [reflexivity|].
           split; [rewrite <- app_assoc; reflexivity|].
           intros e' He'. rewrite He'. reflexivity.
        -- eexists. split; [reflexivity|]. split; [reflexivity|].
           split; [rewrite <- app_assoc; reflexivity|].
           intros e' He'. injection He' as <-. reflexivity.
    + eexists. split; [reflexivity|]. split; [reflexivity|]. split; [reflexivity|].
      intros e' He'. injection He' as <-. reflexivity.
  - rewrite (bind_fopen_ok _ _ c _ s Fd). rewrite bind_ret_l.
    rewrite read_addr_fresh by exact Hfresh.
    eexists. split; [reflexivity|]. split; [reflexivity|]. split; [reflexivity|].
    intros e' He'. rewrite He'. reflexivity.
Qed.

(** ** Each branch of the function *)

Lemma parse_sysfs_value_0x n v rest fin :
  (1 <= n)%nat -> 0 <= v < 16 ^ Z.of_nat n -> v <= U64_MAX -> sep_start rest ->
  parse_sysfs_value ("0x" ++ fixed_digits 16 n v ++ rest)%string fin = Mapped v.
Proof.
  intros Hn Hv Hmax Hr. unfold parse_sysfs_value, fscanf. rewrite secaddr_format_directives.
  rewrite (vscanf_conv false (CNum 16) [DWs] _ (VNum v) (2 + n)%nat 0); [reflexivity | reflexivity
    | discriminate | apply conv_num_0x; assumption].
Qed.

Lemma section_address_direct w modname secname c s :
  w_nomem w = [] ->
  file_lookup w (secaddr_dir modname ++ secname)%string = inr c -> fds_below s ->
  section_address w modname secname s =
    Done (to_c (parse_sysfs_value c (stream_end_of w (secaddr_dir modname ++ secname))),
          mkPstate (match parse_sysfs_value c (stream_end_of w (secaddr_dir modname ++ secname)) with
                    | Failed e => e | _ => ps_errno s end)
                   (ps_fds s) (ps_next_fd s + 1) (ps_log s ++ [secaddr_dir modname ++ secname]%string)
                   (ps_uts_release s)).
Proof.
  intros Hm Fd Hb. sa_start.
  rewrite (bind_fopen_ok _ _ c _ s Fd), bind_ret_l.
  apply read_addr_fresh, fds_below_fresh, Hb.
Qed.

(** C34. The section's own file holds the address as the kernel prints it
    ([0x%lx] and a newline, or anything after a white space): the function
    returns [DWARF_CB_OK] with that address, having opened and closed that
    one file. *)
Theorem section_address_value w modname secname n v rest s :
  w_nomem w = [] ->
  file_lookup w (secaddr_dir modname ++ secname)%string =
    inr ("0x" ++ fixed_digits 16 n v ++ rest)%string ->
  (1 <= n)%nat -> 0 <= v < 16 ^ Z.of_nat n -> v <= U64_MAX -> sep_start rest -> fds_below s ->
  section_address w modname secname s =
    Done ((DWARF_CB_OK, Some v),
          mkPstate (ps_errno s) (ps_fds s) (ps_next_fd s + 1)
                   (ps_log s ++ [secaddr_dir modname ++ secname]%string) (ps_uts_release s)).
Proof.
  intros Hm Fd Hn Hv Hmax Hr Hb. rewrite (section_address_direct w modname secname _ s Hm Fd Hb).
  rewrite parse_sysfs_value_0x by assumption. reflexivity.
Qed.

(** A missing file for [.modinfo], [.data.percpu] or an [.exit*]
    section means "not loaded": [DWARF_CB_OK] with [*addr = -1], and no
    other file is tried. *)
Theorem section_address_absent w modname secname s :
  w_nomem w = [] ->
  file_lookup w (secaddr_dir modname ++ secname)%string = inl ENOENT ->
  never_loaded secname = true ->
  section_address w modname secname s =
    Done ((DWARF_CB_OK, Some U64_MAX),
          mkPstate ENOENT (ps_fds s) (ps_next_fd s)
                   (ps_log s ++ [secaddr_dir modname ++ secname]%string) (ps_uts_release s)).
Proof.
  intros Hm Fd Hn. sa_start.
  rewrite (bind_fopen_err _ _ _ _ s Fd), bind_assoc, bind_get_errno. cbn [ps_errno].
  rewrite Z.eqb_refl, Hn. reflexivity.
Qed.

Lemma init_not_never_loaded secname : is_init secname = true -> never_loaded secname = false.
Proof.
  unfold is_init. intros H. destruct (starts_with_inv _ _ H) as [t ->]. reflexivity.
Qed.

(** For an [.init*] section whose file is missing, the name with [_]
    for the leading [.] is tried next; when it exists its contents give the
    answer, after exactly those two files were opened. *)
Theorem section_address_init_fallback w modname secname c s :
  w_nomem w = [] ->
  file_lookup w (secaddr_dir modname ++ secname)%string = inl ENOENT ->
  is_init secname = true ->
  file_lookup w (secaddr_dir modname ++ "_" ++ str_drop 1 secname)%string = inr c ->
  fds_below s ->
  section_address w modname secname s =
    Done (to_c (parse_sysfs_value c (stream_end_of w (secaddr_dir modname ++ "_" ++ str_drop 1 secname))),
          mkPstate (match parse_sysfs_value c (stream_end_of w (secaddr_dir modname ++ "_" ++ str_drop 1 secname))
                    with Failed e => e | _ => ENOENT end)
                   (ps_fds s) (ps_next_fd s + 1)
                   (ps_log s ++ [secaddr_dir modname ++ secname;
                                 secaddr_dir modname ++ "_" ++ str_drop 1 secname]%string)
                   (ps_uts_release s)).
Proof.
  intros Hm Fd Hi Fu Hb. sa_start.
  rewrite (bind_fopen_err _ _ _ _ s Fd), bind_assoc, bind_get_errno. cbn [ps_errno].
  rewrite Z.eqb_refl, (init_not_never_loaded _ Hi).
  unfold sec_fallbacks. rewrite Hi, !bind_assoc, bind_asprintf_ok by auto with kmod. cbv beta iota.
  rewrite bind_assoc, (bind_fopen_ok _ _ c _ _ Fu), !bind_ret_l. cbn [ps_next_fd ps_fds ps_log ps_uts_release].
  rewrite read_addr_fresh by (apply fds_below_fresh, Hb).
  rewrite <- app_assoc. reflexivity.
Qed.

(** A failure to open the file other than [ENOENT] (permission, I/O)
    is returned as is: [DWARF_CB_ABORT] with that [errno], and no fallback
    name is tried. *)
Lemma section_address_errno w modname secname e s :
  w_nomem w = [] ->
  file_lookup w (secaddr_dir modname ++ secname)%string = inl e -> e <> ENOENT ->
  section_address w modname secname s =
    Done ((DWARF_CB_ABORT, None),
          mkPstate e (ps_fds s) (ps_next_fd s)
                   (ps_log s ++ [secaddr_dir modname ++ secname]%string) (ps_uts_release s)).
Proof.
  intros Hm Fd He. sa_start.
  rewrite (bind_fopen_err _ _ _ _ s Fd), bind_assoc, bind_get_errno. cbn [ps_errno].
  destruct (Z.eqb_spec e ENOENT); [contradiction | reflexivity].
Qed.

(** A file whose contents do not start with a hex number, read to its
    end without error, gives [DWARF_CB_ABORT] with [errno] set to
    [ENOEXEC]. *)
Lemma section_address_malformed w modname secname c s :
  w_nomem w = [] ->
  file_lookup w (secaddr_dir modname ++ secname)%string = inr c ->
  stream_end_of w (secaddr_dir modname ++ secname)%string = SEof ->
  fst (fscanf secaddr_format c) <> 1 -> fds_below s ->
  section_address w modname secname s =
    Done ((DWARF_CB_ABORT, None),
          mkPstate ENOEXEC (ps_fds s) (ps_next_fd s + 1)
                   (ps_log s ++ [secaddr_dir modname ++ secname]%string) (ps_uts_release s)).
Proof.
  intros Hm Fd Fe Hn Hb. rewrite (section_address_direct w modname secname c s Hm Fd Hb), Fe.
  unfold parse_sysfs_value. destruct (fscanf secaddr_format c) as [n vals]. simpl in Hn.
  destruct (Z.eqb_spec n 1); [contradiction|]. unfold read_failure. destruct (n =? EOF); reflexivity.
Qed.

(** [fscanf] on nothing but white space fails for want of input. *)
Lemma fscanf_secaddr_eof c :
  str_drop (ws_len c) c = EmptyString -> fscanf secaddr_format c = (EOF, []).
Proof. intros Hws. unfold fscanf. rewrite secaddr_format_directives. cbn [vscanf]. rewrite Hws. reflexivity. Qed.

(** C24. A section file that opens but holds nothing before its end but
    white space: when the read there failed (an I/O error, [ferror]),
    the function returns [DWARF_CB_ABORT] with that read's [errno];
    when the file simply ended, with [ENOEXEC]. The file is closed. *)
Theorem section_address_read_error w modname secname c s :
  w_nomem w = [] ->
  file_lookup w (secaddr_dir modname ++ secname)%string = inr c ->
  str_drop (ws_len c) c = EmptyString -> fds_below s ->
  section_address w modname secname s =
    Done ((DWARF_CB_ABORT, None),
          mkPstate (match stream_end_of w (secaddr_dir modname ++ secname)%string with
                    | SErr e => Zpos e | SEof => ENOEXEC end)
                   (ps_fds s) (ps_next_fd s + 1)
                   (ps_log s ++ [secaddr_dir modname ++ secname]%string) (ps_uts_release s)).
Proof.
  intros Hm Fd Hws Hb. rewrite (section_address_direct w modname secname c s Hm Fd Hb).
  unfold parse_sysfs_value. rewrite (fscanf_secaddr_eof c Hws).
  destruct (stream_end_of w _); reflexivity.
Qed.

(** The truncation loop's lengths: [strlen - 1] down to
    [MODULE_SECT_NAME_LEN - 1], one each. *)
Lemma trunc_lengths_countdown n :
  (MODULE_SECT_NAME_LEN <= n)%nat -> trunc_lengths (n - 1) = rev (seq 31 (n - 31)).
Proof.
  unfold MODULE_SECT_NAME_LEN. intros Hn.
  replace (n - 1)%nat with (31 + (n - 32))%nat by lia.
  replace (n - 31)%nat with (S (n - 32)) by lia.
  generalize (n - 32)%nat as d. induction d as [|d IH]; [reflexivity|].
  replace (31 + S d)%nat with (S (31 + d)) by lia. cbn [trunc_lengths].
  change MODULE_SECT_NAME_LEN with 32%nat. destruct (Nat.leb_spec 32 (S (31 + d))); [|lia].
  rewrite IH, (seq_S (S d) 31), rev_app_distr. cbn [rev app]. f_equal.
Qed.

Lemma first_found_missing w ps :
  Forall (fun p => file_lookup w p = inl ENOENT) ps -> first_found w ps = None /\ probed w ps = ps.
Proof.
  induction 1 as [|p ps Hp _ [IH1 IH2]]; [split; reflexivity|].
  cbn [first_found probed]. rewrite Hp, IH1, IH2. split; reflexivity.
Qed.

Lemma missing_enoent_only w ps :
  Forall (fun p => file_lookup w p = inl ENOENT) ps -> enoent_only w ps.
Proof.
  unfold enoent_only. intros H. eapply List.Forall_impl; [|exact H]. intros p Hp. cbv beta. rewrite Hp.
  reflexivity.
Qed.

(** C15. When none of the truncated names exists, the loop opens the
    section's name truncated to [strlen - 1], [strlen - 2], ..., down to
    [MODULE_SECT_NAME_LEN - 1] characters, in that order and no other, and
    ends with [NULL] and [ENOENT]. *)
Theorem trunc_loop_exhausts w dir secname s :
  (MODULE_SECT_NAME_LEN <= String.length secname)%nat -> ps_errno s = ENOENT ->
  Forall (fun k => file_lookup w (dir ++ trunc_name secname k false)%string = inl ENOENT)
         (seq 31 (String.length secname - 31)) ->
  trunc_loop w dir secname false (String.length secname - 1) s =
    Done (None, mkPstate ENOENT (ps_fds s) (ps_next_fd s)
                  (ps_log s ++ map (fun k => dir ++ trunc_name secname k false)%string
                                   (rev (seq 31 (String.length secname - 31))))
                  (ps_uts_release s)).
Proof.
  intros Hn He Hmiss.
  assert (Hlist : flat_map (trunc_probes dir secname false) (trunc_lengths (String.length secname - 1))
                  = map (fun k => dir ++ trunc_name secname k false)%string
                        (rev (seq 31 (String.length secname - 31)))).
  { rewrite trunc_lengths_countdown by exact Hn. unfold trunc_probes.
    induction (rev _) as [|k ks IH]; [reflexivity|]. simpl. f_equal. }
  assert (Hm : Forall (fun p => file_lookup w p = inl ENOENT)
                      (flat_map (trunc_probes dir secname false)
                                (trunc_lengths (String.length secname - 1)))).
  { rewrite Hlist. apply List.Forall_map. apply List.Forall_rev. exact Hmiss. }
  rewrite trunc_loop_probe by (apply missing_enoent_only, Hm).
  rewrite probe_first_spec by (try apply missing_enoent_only, Hm; exact He).
  destruct (first_found_missing w _ Hm) as [-> ->]. rewrite Hlist. reflexivity.
Qed.

(** ** The values the function returns *)

(** [DWARF_CB_OK], [DWARF_CB_ABORT], or [ENOMEM] when an allocation
    failed. *)
Definition cb_or_nomem (w : world) (r : cb_result) : Prop :=
  r = DWARF_CB_OK \/ r = DWARF_CB_ABORT \/ (r = ENOMEM /\ w_nomem w <> []).

Lemma yields_asprintf w p : yields (fun o => o = None -> w_nomem w <> []) (sys_asprintf w p).
Proof.
  intros s a s'. unfold sys_asprintf. destruct (alloc_fails w (AAsprintf p)) eqn:A.
  - intros _ _. exact (alloc_fails_nonempty _ _ A).
  - intros [= <- _]. discriminate.
Qed.

Lemma yields_read_addr w f : yields (fun x => cb_or_nomem w (fst x)) (read_addr f).
Proof.
  intros s a s'. rewrite read_addr_spec. intros [= <- _]. unfold cb_or_nomem.
  destruct (parse_sysfs_value _ _); cbn; auto.
Qed.

Lemma yields_sec_fallbacks w dir secname :
  yields (fun x => match x with inl r => cb_or_nomem w (fst r) | inr _ => True end)
         (sec_fallbacks w dir secname).
Proof.
  unfold sec_fallbacks, cb_or_nomem.
  apply (yields_bind (fun f1 => match f1 with inl r => cb_or_nomem w (fst r) | inr _ => True end)).
  - destruct (is_init secname); [|apply yields_ret; exact I].
    apply (yields_bind _ _ _ _ (yields_asprintf w _)). intros [p|] Hq.
    + apply (yields_bind _ _ _ _ (yields_any _)). intros f _. apply yields_ret. exact I.
    + apply yields_ret. unfold cb_or_nomem. cbn. auto.
  - intros [r|[h|]] Hr; [apply yields_ret; exact Hr | apply yields_ret; exact I|].
    destruct (MODULE_SECT_NAME_LEN <=? String.length secname)%nat; [|apply yields_ret; cbn; auto].
    apply (yields_bind _ _ _ _ (yields_asprintf w _)). intros [p|] Hq.
    + apply (yields_bind _ _ _ _ (yields_any _)). intros [h|] _; apply yields_ret; cbn; auto.
    + apply yields_ret. cbn. auto.
Qed.

(** C19. [dwfl_linux_kernel_module_section_address] is declared to return
    [DWARF_CB_OK] or [DWARF_CB_ABORT] and does on every path but one: when
    an [asprintf] fails it returns [ENOMEM], 12, a value outside that
    enumeration. Every value it returns is one of the three, and [ENOMEM]
    only when memory ran out. *)
Theorem section_address_result w modname secname :
  yields (fun x => cb_or_nomem w (fst x)) (section_address w modname secname).
Proof.
  unfold section_address. apply (yields_bind _ _ _ _ (yields_asprintf w _)). intros [p|] Hq.
  - apply (yields_bind _ _ _ _ (yields_any _)). intros f _.
    apply (yields_bind (fun x => match x with inl r => cb_or_nomem w (fst r) | inr _ => True end)).
    + destruct f as [h|]; [apply yields_ret; exact I|].
      apply (yields_bind _ _ _ _ (yields_any _)). intros e _.
      destruct (e =? ENOENT); [destruct (never_loaded secname)|];
        [apply yields_ret; unfold cb_or_nomem; cbn; auto | apply yields_sec_fallbacks
        | apply yields_ret; unfold cb_or_nomem; cbn; auto].
    + intros [r|h] Hr; [apply yields_ret, Hr | apply yields_read_addr].
  - apply yields_ret. unfold cb_or_nomem. cbn. auto.
Qed.

(** When the first [asprintf] fails: [ENOMEM], nothing opened. *)
Lemma section_address_nomem w modname secname s :
  alloc_fails w (AAsprintf (secaddr_dir modname ++ secname)) = true ->
  section_address w modname secname s = Done ((ENOMEM, None), nomem_state s).
Proof. intros A. unfold section_address. rewrite bind_unfold, sys_asprintf_fail by exact A. reflexivity. Qed.

(** ** Witnesses *)

(** [/sys/module/nfsd/sections/] of a running kernel: [.text], the
    [_init.text] name of an [.init.text] section, a file that does not hold
    a number, and a module whose sections cannot be read. *)
Definition nfsd_text_addr : Z := 0xffffffffa05d3000.
Definition nfsd_init_addr : Z := 0xffffffffa0700000.

Definition sysfs_files : gmap string fentry :=
  <[ "/sys/module/nfsd/sections/.text" := FReg ("0x" ++ fixed_digits 16 16 nfsd_text_addr ++ NL) ]>
  (<[ "/sys/module/nfsd/sections/_init.text" := FReg ("0x" ++ fixed_digits 16 16 nfsd_init_addr ++ NL) ]>
  (<[ "/sys/module/nfsd/sections/.bad" := FReg ("zz" ++ NL) ]>
  (<[ "/sys/module/nfsd/sections/.eio" := FRegErr EmptyString 5 ]>
  (<[ "/sys/module/secret/sections/.text" := FErr EACCES ]> ∅))))%string.

Definition sysfs_host : world := mkWorld sysfs_files ∅ (Some "2.6.23") 0 4096 None (fun _ _ => inl ENOENT) [].

Definition sec_pstate0 : pstate := mkPstate 0 [] 3 [] EmptyString.

(** A section name longer than [MODULE_SECT_NAME_LEN]: 39 characters. *)
Definition long_secname : string := ".text.unlikely.very_long_section_name_x".

Lemma section_address_refines_witness :
  exists s',
    section_address sysfs_host "nfsd" ".init.text" sec_pstate0 =
      Done (to_c (resolve_spec sysfs_host "nfsd" ".init.text"), s') /\
    ps_fds s' = ps_fds sec_pstate0 /\
    ps_log s' = ps_log sec_pstate0 ++ resolve_probes sysfs_host "nfsd" ".init.text" /\
    (forall e, resolve_spec sysfs_host "nfsd" ".init.text" = Failed e -> ps_errno s' = e).
Proof.
  apply section_address_refines; [reflexivity | constructor |].
  unfold enoent_only. vm_compute. repeat constructor.
Defined.

Lemma section_address_value_witness :
  section_address sysfs_host "nfsd" ".text" sec_pstate0 =
    Done ((DWARF_CB_OK, Some nfsd_text_addr),
          mkPstate 0 [] 4 ["/sys/module/nfsd/sections/.text"] EmptyString).
Proof.
  apply (section_address_value sysfs_host "nfsd" ".text" 16 nfsd_text_addr NL sec_pstate0);
    try reflexivity; try (unfold nfsd_text_addr, U64_MAX; lia); constructor.
Defined.

Lemma section_address_absent_witness :
  section_address sysfs_host "nfsd" ".modinfo" sec_pstate0 =
    Done ((DWARF_CB_OK, Some U64_MAX),
          mkPstate ENOENT [] 3 ["/sys/module/nfsd/sections/.modinfo"] EmptyString).
Proof. apply (section_address_absent sysfs_host "nfsd" ".modinfo" sec_pstate0); reflexivity. Defined.

Lemma section_address_init_fallback_witness :
  section_address sysfs_host "nfsd" ".init.text" sec_pstate0 =
    Done (to_c (parse_sysfs_value ("0x" ++ fixed_digits 16 16 nfsd_init_addr ++ NL) SEof),
          mkPstate (match parse_sysfs_value ("0x" ++ fixed_digits 16 16 nfsd_init_addr ++ NL) SEof with
                    | Failed e => e | _ => ENOENT end)
                   [] 4 ["/sys/module/nfsd/sections/.init.text"; "/sys/module/nfsd/sections/_init.text"]
                   EmptyString)%string.
Proof.
  apply (section_address_init_fallback sysfs_host "nfsd" ".init.text"
           ("0x" ++ fixed_digits 16 16 nfsd_init_addr ++ NL)%string sec_pstate0);
    try reflexivity; constructor.
Defined.

Lemma section_address_errno_witness :
  section_address sysfs_host "secret" ".text" sec_pstate0 =
    Done ((DWARF_CB_ABORT, None),
          mkPstate EACCES [] 3 ["/sys/module/secret/sections/.text"] EmptyString).
Proof.
  apply (section_address_errno sysfs_host "secret" ".text" EACCES sec_pstate0);
    [reflexivity | reflexivity | discriminate].
Defined.

Lemma section_address_malformed_witness :
  section_address sysfs_host "nfsd" ".bad" sec_pstate0 =
    Done ((DWARF_CB_ABORT, None),
          mkPstate ENOEXEC [] 4 ["/sys/module/nfsd/sections/.bad"] EmptyString).
Proof.
  apply (section_address_malformed sysfs_host "nfsd" ".bad" ("zz" ++ NL)%string sec_pstate0);
    [reflexivity | reflexivity | reflexivity | vm_compute; discriminate | constructor].
Defined.

Lemma trunc_loop_exhausts_witness :
  trunc_loop sysfs_host (secaddr_dir "nfsd") long_secname false (String.length long_secname - 1)
             (mkPstate ENOENT [] 3 [] EmptyString) =
    Done (None, mkPstate ENOENT [] 3
                  ([] ++ map (fun k => secaddr_dir "nfsd" ++ trunc_name long_secname k false)%string
                             (rev (seq 31 (String.length long_secname - 31))))
                  EmptyString).
Proof.
  apply (trunc_loop_exhausts sysfs_host _ long_secname (mkPstate ENOENT [] 3 [] EmptyString));
    [vm_compute; lia | reflexivity | vm_compute; repeat constructor].
Defined.

(** The same host with no memory left for the first [asprintf]: the
    function returns 12. *)
Definition nomem_sysfs_host : world :=
  mkWorld sysfs_files ∅ (Some "2.6.23") 0 4096 None (fun _ _ => inl ENOENT)
          [AAsprintf "/sys/module/nfsd/sections/.text"].

Lemma section_address_result_witness :
  section_address nomem_sysfs_host "nfsd" ".text" sec_pstate0 = Done ((12, None), nomem_state sec_pstate0) /\
  cb_or_nomem nomem_sysfs_host (fst (12, @None Z)).
Proof.
  split; [vm_compute; reflexivity|].
  apply (section_address_result nomem_sysfs_host "nfsd" ".text" sec_pstate0 _ (nomem_state sec_pstate0)).
  vm_compute. reflexivity.
Defined.

Lemma section_address_read_error_witness :
  section_address sysfs_host "nfsd" ".eio" sec_pstate0 =
    Done ((DWARF_CB_ABORT, None),
          mkPstate EIO [] 4 ["/sys/module/nfsd/sections/.eio"] EmptyString).
Proof.
  apply (section_address_read_error sysfs_host "nfsd" ".eio" EmptyString sec_pstate0);
    [reflexivity | reflexivity | reflexivity | constructor].
Defined.
