(* ===== verification/ModuleList.v ===== *)
(** * Live modules from [/proc/modules]: [dwfl_linux_kernel_report_modules]

    The function (C lines 602-637) opens [MODULELIST], reads it with
    [getline] and parses each line with
    [sscanf (line, "%128s %lu %*s %*s %*s %" PRIx64 " %*s\n", ...)]; while
    the three fields are assigned it reports [modname] with the range
    [[modaddr, modaddr + modsz)] to the registry, stopping with [-1] at a
    refusal. After the loop a zero result becomes [0] when the stream is
    at end of file and [ENOEXEC] otherwise.

    [modules_loop] is the loop on the lines of the file, for any registry
    of the [Registry] class; [dwfl_linux_kernel_report_modules] is the
    whole function on the process state paired with the registry.
    [modaddr + modsz] is a [Dwarf_Addr] sum, kept at 64 bits. [%128s]
    stores up to 128 characters and a NUL into [char modname[128]]: a
    128-character name is a write past the array, [Undefined]. *)

From Stdlib Require Import ZArith Lia String Ascii List Bool.
From stdpp Require Import base list strings gmap.
From S2P Require Import Prelude CNum Scanf Os Registry.

Local Open Scope Z_scope.

Definition MODULELIST : string := "/proc/modules".

(** [char modname[128]]. *)
Definition MODNAME_SIZE : nat := 128.

Definition modules_format : string :=
  ("%128s %lu %*s %*s %*s %" ++ PRIx64 ++ " %*s" ++ NL)%string.

(** [sscanf] stored more than [sizeof modname] bytes: the string it
    assigned first and its NUL do not fit. *)
Definition modname_overflow (vals : list scan_val) : bool :=
  match vals with
  | VStr x :: _ => (MODNAME_SIZE <=? String.length x)%nat
  | _ => false
  end.

Section WithRegistry.
Context {R : Type} `{Registry R}.

(** The loop on the remaining lines: [result], whether a [getline] met
    the end of the stream, the registry. *)
Fixpoint modules_loop (ls : list string) (r : R) : exec (Z * bool * R) :=
  match ls with
  | [] => Done (0, true, r)
  | l :: ls' =>
      let '(cnt, vals) := sscanf modules_format l in
      if modname_overflow vals then Undefined "sscanf stores past the end of modname[128]"
      else match cnt =? 3, vals with
           | true, VStr name :: VNum modsz :: VNum modaddr :: _ =>
               match reg_report_module name modaddr (u64 (modaddr + modsz)) r with
               | None => Done (-1, line_reaches_end l, r)
               | Some r' => modules_loop ls' r'
               end
           | _, _ => Done (0, line_reaches_end l, r)
           end
  end.

(** [result == 0 ? (ferror ? errno : feof ? 0 : ENOEXEC) : result]. *)
Definition modules_result (result : Z) (ferror : bool) (errno : Z) (eof : bool) : Z :=
  if result =? 0 then (if ferror then errno else if eof then 0 else ENOEXEC) else result.

Definition dwfl_linux_kernel_report_modules (w : world) : M (pstate * R) Z :=
  let* f := lift_fst (sys_fopen w MODULELIST) in
  match f with
  | None => lift_fst get_errno
  | Some f =>
      let* '(result, at_end) :=
        with_reg (fun r => match modules_loop (split_lines (st_data f)) r with
                           | Done (res, at_end, r') => Done ((res, at_end), r')
                           | Undefined why => Undefined why
                           end) in
      let* '(ferr, eof) := lift_fst (sys_stream_end f at_end) in
      let* e := lift_fst get_errno in
      lift_fst (sys_close (st_fd f));;
      ret (modules_result result ferr e eof)
  end.

(** ** The contract

    Each module of the file reported in order, stopping at the first
    refusal with [-1]. *)
Fixpoint report_all (es : list (string * Z * Z)) (r : R) : Z * R :=
  match es with
  | [] => (0, r)
  | (n, lo, hi) :: es' =>
      match reg_report_module n lo hi r with
      | None => (-1, r)
      | Some r' => report_all es' r'
      end
  end.

End WithRegistry.

(** ** Lines as the kernel prints them

    [m_show] of the kernel's [module.c]: the name, the size in decimal,
    the reference count, the dependencies, the state, the address as
    [0x] and hex digits, optionally the taint flags, and a newline. *)
Definition modules_body (name : string) (nsz : nat) (size : Z) (refs deps state : string)
    (naddr : nat) (addr : Z) (taint : string) : string :=
  (name ++ " " ++ fixed_digits 10 nsz size ++ " " ++ refs ++ " " ++ deps ++ " " ++ state
   ++ " 0x" ++ fixed_digits 16 naddr addr ++ taint)%string.

Definition modules_line (name : string) (nsz : nat) (size : Z) (refs deps state : string)
    (naddr : nat) (addr : Z) (taint : string) : string :=
  (modules_body name nsz size refs deps state naddr addr taint ++ NL)%string.

(** The taint field: absent, or a space and a token. *)
Definition taint_ok (t : string) : Prop :=
  t = EmptyString \/ exists x, t = (" " ++ x)%string /\ token x.

(** The fields of [m_show] as [sscanf] wants them. *)
Definition entry_ok (name : string) (nsz : nat) (size : Z) (refs deps state : string)
    (naddr : nat) (addr : Z) (taint : string) : Prop :=
  token name /\ token refs /\ token deps /\ token state /\
  (1 <= nsz)%nat /\ 0 <= size < 10 ^ Z.of_nat nsz /\ size <= U64_MAX /\
  (1 <= naddr)%nat /\ 0 <= addr < 16 ^ Z.of_nat naddr /\ addr <= U64_MAX /\ taint_ok taint.

(** A line [sscanf] reads completely: the name, size and address it
    assigns, a name that fits [modname], and a newline at its end. *)
Definition parsed_line (l : string) (e : string * Z * Z) : Prop :=
  let '(name, size, addr) := e in
  sscanf modules_format l = (3, [VStr name; VNum size; VNum addr]) /\
  (String.length name < MODNAME_SIZE)%nat /\ line_reaches_end l = false.

(** The report a parsed line makes: [modaddr, modaddr + modsz]. *)
Definition entry_range (e : string * Z * Z) : string * Z * Z :=
  let '(name, size, addr) := e in (name, addr, u64 (addr + size)).

(** The state after [fopen] of an existing file and [fclose]. *)
Definition after_open_close (s : pstate) (path : string) : pstate :=
  mkPstate (ps_errno s) (ps_fds s) (ps_next_fd s + 1) (ps_log s ++ [path]) (ps_uts_release s).

(** A module as [m_show] prints it, and the file of such lines. *)
Record kmodule : Type := mkKmodule {
  km_name : string;
  km_nsz : nat;
  km_size : Z;
  km_refs : string;
  km_deps : string;
  km_state : string;
  km_naddr : nat;
  km_addr : Z;
  km_taint : string;
}.

Definition km_body (m : kmodule) : string :=
  modules_body (km_name m) (km_nsz m) (km_size m) (km_refs m) (km_deps m) (km_state m)
               (km_naddr m) (km_addr m) (km_taint m).

Definition km_line (m : kmodule) : string := (km_body m ++ NL)%string.

Definition km_ok (m : kmodule) : Prop :=
  entry_ok (km_name m) (km_nsz m) (km_size m) (km_refs m) (km_deps m) (km_state m)
           (km_naddr m) (km_addr m) (km_taint m) /\
  (String.length (km_name m) < MODNAME_SIZE)%nat /\ str_has "000"%char (km_line m) = false.

Fixpoint proc_modules (ms : list kmodule) : string :=
  match ms with
  | [] => EmptyString
  | m :: ms' => (km_line m ++ proc_modules ms')%string
  end.

(** What [sscanf] assigns from the module's line. *)
Definition km_entry (m : kmodule) : string * Z * Z := (km_name m, km_size m, km_addr m).

(** ** Lemmas on the format *)

Lemma modules_format_directives :
  parse_format modules_format =
    [DConv false (CStr (Some 128%nat)); DWs; DConv false (CNum 10); DWs;
     DConv true (CStr None); DWs; DConv true (CStr None); DWs; DConv true (CStr None); DWs;
     DConv false (CNum 16); DWs; DConv true (CStr None); DWs].
Proof. reflexivity. Qed.

Lemma vscanf_field sup k f t r v n done :
  ws_len (t ++ r)%string = 0%nat -> t <> EmptyString ->
  conv_one k (t ++ r)%string = Some (v, n) -> n = String.length t ->
  vscanf (DConv sup k :: f) (t ++ r)%string done =
    if sup then vscanf f r done
    else let '(c, vs) := vscanf f r (done + 1) in (c, v :: vs).
Proof.
  intros Hws Hne Hk ->.
  rewrite (vscanf_conv _ _ _ _ v (String.length t)); [| exact Hws | | exact Hk].
  - rewrite str_drop_app. reflexivity.
  - destruct t; [congruence | discriminate].
Qed.

Lemma vscanf_space f x done :
  ws_len x = 0%nat -> vscanf (DWs :: f) (String " " x) done = vscanf f x done.
Proof. intros Hx. rewrite vscanf_ws. cbn [ws_len c_isspace]. simpl. rewrite Hx. reflexivity. Qed.

(** A [%s] field read from a token. *)
Lemma vscanf_token sup w f t r done :
  token t -> sep_start r ->
  (match w with Some k => String.length t <= k | None => True end)%nat ->
  vscanf (DConv sup (CStr w) :: f) (t ++ r)%string done =
    if sup then vscanf f r done
    else let '(c, vs) := vscanf f r (done + 1) in (c, VStr t :: vs).
Proof.
  intros Ht Hr Hw. apply (vscanf_field _ _ _ _ _ _ (String.length t)); [apply ws_len_token, Ht | apply Ht | | reflexivity].
  apply conv_str_token; assumption.
Qed.

(** A white-space directive, then a suppressed [%*s] on a token. *)
Lemma vscanf_skip_token f t r done :
  token t -> sep_start r ->
  vscanf (DWs :: DConv true (CStr None) :: f) (String " " (t ++ r)) done = vscanf f r done.
Proof.
  intros Ht Hr. rewrite vscanf_space by (apply ws_len_token, Ht).
  apply (vscanf_token true None); [exact Ht | exact Hr | exact I].
Qed.

(** [sscanf] reads back the name, size and address of a line of
    [/proc/modules]. *)
Lemma sscanf_modules_line name nsz size refs deps state naddr addr taint :
  entry_ok name nsz size refs deps state naddr addr taint ->
  (String.length name <= 128)%nat ->
  str_has "000"%char (modules_line name nsz size refs deps state naddr addr taint) = false ->
  sscanf modules_format (modules_line name nsz size refs deps state naddr addr taint) =
    (3, [VStr name; VNum size; VNum addr]).
Proof.
  intros (Hn & Hr & Hd & Hs & Hnsz & Hsz & Hszm & Hna & Ha & Ham & Ht) Hlen Hnul.
  unfold sscanf. rewrite c_str_no_nul by exact Hnul. rewrite modules_format_directives.
  unfold modules_line, modules_body. rewrite <- !string_append_assoc.
  rewrite (vscanf_token false); [| exact Hn | reflexivity | exact Hlen].
  cbn [String.append]. rewrite vscanf_space by (apply fixed_head; lia).
  erewrite vscanf_field; [| apply fixed_head; lia | destruct nsz; [lia | discriminate]
    | apply conv_num_fixed; [lia | lia | lia | lia | reflexivity]
    | symmetry; apply fixed_digits_length].
  cbn [String.append]. rewrite !vscanf_skip_token by (assumption || reflexivity).
  rewrite vscanf_space by reflexivity.
  change (String "0" (String "x" ?X)) with ("0x" ++ X)%string. rewrite string_append_assoc.
  erewrite vscanf_field; [| reflexivity | discriminate
    | apply conv_num_0x; [lia | lia | lia | destruct Ht as [-> | [x [-> _]]]; reflexivity]
    | rewrite string_append_length, fixed_digits_length; reflexivity].
  destruct Ht as [-> | [x [-> Hx]]]; [reflexivity|].
  cbn [String.append]. rewrite vscanf_skip_token by (assumption || reflexivity). reflexivity.
Qed.

(** ** The loop and the function *)

Section LoopLemmas.
Context {R : Type} `{Registry R}.

(** Lines read completely report their modules in order; the loop goes on
    to the rest of the file unless a report is refused. *)
Lemma modules_loop_app ls es tail (r : R) :
  Forall2 parsed_line ls es ->
  modules_loop (ls ++ tail) r =
    let '(res, r') := report_all (map entry_range es) r in
    if res =? 0 then modules_loop tail r' else Done (res, false, r').
Proof.
  intros HF. revert r. induction HF as [|l [[name size] addr] ls es Hl HF IH]; intros r.
  - reflexivity.
  - destruct Hl as (Hsc & Hlen & Heof). cbn [app modules_loop map entry_range report_all].
    rewrite Hsc. unfold modname_overflow.
    replace (MODNAME_SIZE <=? String.length name)%nat with false
      by (symmetry; apply Nat.leb_gt; exact Hlen).
    cbn [Z.eqb Pos.eqb]. destruct (reg_report_module name addr (u64 (addr + size)) r).
    + apply IH.
    + rewrite Heof. reflexivity.
Qed.

Lemma report_all_result es (r : R) : fst (report_all es r) = 0 \/ fst (report_all es r) = -1.
Proof.
  revert r. induction es as [|[[n lo] hi] es IH]; intros r; simpl; [left; reflexivity|].
  destruct (reg_report_module n lo hi r); [apply IH | right; reflexivity].
Qed.

Lemma modules_loop_lines ls es (r : R) :
  Forall2 parsed_line ls es ->
  modules_loop ls r =
    let '(res, r') := report_all (map entry_range es) r in Done (res, res =? 0, r').
Proof.
  intros HF. rewrite <- (app_nil_r ls), (modules_loop_app ls es [] r HF).
  destruct (report_all (map entry_range es) r) as [res r'].
  destruct (Z.eqb_spec res 0); [subst|]; reflexivity.
Qed.

(** The whole function when [/proc/modules] opens and reads to its end
    without error. *)
Lemma report_modules_run w contents s (r : R) :
  file_lookup w MODULELIST = inr contents -> stream_end_of w MODULELIST = SEof -> fds_below s ->
  dwfl_linux_kernel_report_modules w (s, r) =
    match modules_loop (split_lines contents) r with
    | Done (res, eof, r') => Done (modules_result res false (ps_errno s) eof, (after_open_close s MODULELIST, r'))
    | Undefined why => Undefined why
    end.
Proof.
  intros Hf He Hfd. unfold dwfl_linux_kernel_report_modules.
  rewrite (bind_lift_fopen_ok w MODULELIST contents _ s r Hf). rewrite He.
  unfold bind at 1, with_reg. cbv beta iota. cbn [st_data st_end st_fd].
  destruct (modules_loop (split_lines contents) r) as [[[res eof] r']|why]; [|reflexivity].
  destruct eof; cbn; rewrite Z.eqb_refl; cbn [negb]; rewrite filter_not_in by (apply fds_below_fresh, Hfd);
    reflexivity.
Qed.

(** The same when reading past the contents fails with [errno] [e]. *)
Lemma report_modules_run_fails w contents e s (r : R) :
  file_lookup w MODULELIST = inr contents -> stream_end_of w MODULELIST = SErr e -> fds_below s ->
  dwfl_linux_kernel_report_modules w (s, r) =
    match modules_loop (split_lines contents) r with
    | Done (res, true, r') =>
        Done (modules_result res true (Zpos e) false,
              (after_open_close (mkPstate (Zpos e) (ps_fds s) (ps_next_fd s) (ps_log s) (ps_uts_release s))
                                MODULELIST, r'))
    | Done (res, false, r') =>
        Done (modules_result res false (ps_errno s) false, (after_open_close s MODULELIST, r'))
    | Undefined why => Undefined why
    end.
Proof.
  intros Hf He Hfd. unfold dwfl_linux_kernel_report_modules.
  rewrite (bind_lift_fopen_ok w MODULELIST contents _ s r Hf). rewrite He.
  unfold bind at 1, with_reg. cbv beta iota. cbn [st_data st_end st_fd].
  destruct (modules_loop (split_lines contents) r) as [[[res eof] r']|why]; [|reflexivity].
  destruct eof; cbn; rewrite Z.eqb_refl; cbn [negb]; rewrite filter_not_in by (apply fds_below_fresh, Hfd);
    reflexivity.
Qed.

End LoopLemmas.

(** ** Lines of the kernel's file *)

Lemma no_ws_no_nl t : no_ws t = true -> no_nl t.
Proof.
  unfold no_nl. induction t as [|c t IH]; simpl; [reflexivity|]. intros Hw.
  apply andb_true_iff in Hw as [Hc Hw]. rewrite IH by exact Hw.
  destruct (chr_eqb_spec c "010"%char); [subst; discriminate | reflexivity].
Qed.

Lemma taint_no_nl t : taint_ok t -> no_nl t.
Proof.
  intros [-> | [x [-> [_ Hx]]]]; [reflexivity|]. apply no_ws_no_nl in Hx. exact Hx.
Qed.

Lemma km_body_no_nl m : km_ok m -> no_nl (km_body m).
Proof.
  intros ((Hn & Hr & Hd & Hs & _ & _ & _ & _ & _ & _ & Ht) & _ & _).
  unfold no_nl, km_body, modules_body. rewrite !str_has_app, !fixed_digits_no_nl by lia.
  rewrite (no_ws_no_nl _ (proj2 Hn)), (no_ws_no_nl _ (proj2 Hr)), (no_ws_no_nl _ (proj2 Hd)),
    (no_ws_no_nl _ (proj2 Hs)), (taint_no_nl _ Ht).
  reflexivity.
Qed.

Lemma km_line_parsed m : km_ok m -> parsed_line (km_line m) (km_entry m).
Proof.
  intros Hm. pose proof Hm as (He & Hlen & Hnul). unfold parsed_line, km_entry.
  split; [| split; [exact Hlen | apply line_reaches_end_nl]].
  apply sscanf_modules_line; [exact He | unfold MODNAME_SIZE in Hlen; lia | exact Hnul].
Qed.

Lemma split_lines_proc ms : Forall km_ok ms -> split_lines (proc_modules ms) = map km_line ms.
Proof.
  induction 1 as [|m ms Hm _ IH]; [reflexivity|]. cbn [proc_modules map]. unfold km_line.
  rewrite split_lines_line by (apply km_body_no_nl, Hm). rewrite IH. reflexivity.
Qed.

Lemma proc_modules_parsed ms : Forall km_ok ms -> Forall2 parsed_line (map km_line ms) (map km_entry ms).
Proof. induction 1; constructor; [apply km_line_parsed|]; assumption. Qed.

Section Properties.
Context {R : Type} `{Registry R}.

Lemma modules_result_report_all es (r : R) e :
  modules_result (fst (report_all es r)) false e (fst (report_all es r) =? 0) = fst (report_all es r).
Proof.
  destruct (report_all_result es r) as [E|E]; rewrite E; reflexivity.
Qed.

(** A report leaves the ranges of names it does not report. *)
Lemma report_all_other `{!RegistryLaws R} es (r : R) n :
  ~ In n (map (fun e => fst (fst e)) es) ->
  find_module n (snd (report_all es r)) = find_module n r.
Proof.
  revert r. induction es as [|[[n' lo] hi] es IH]; intros r Hn; simpl in *; [reflexivity|].
  destruct (reg_report_module n' lo hi r) as [r'|] eqn:E; [|reflexivity].
  rewrite IH by tauto. eapply report_module_other; [exact E | intros ->; tauto].
Qed.

Lemma modules_loop_stop ls es l rest (r : R) cnt vals :
  Forall2 parsed_line ls es -> fst (report_all (map entry_range es) r) = 0 ->
  sscanf modules_format l = (cnt, vals) -> cnt <> 3 -> modname_overflow vals = false ->
  modules_loop (ls ++ l :: rest) r = Done (0, line_reaches_end l, snd (report_all (map entry_range es) r)).
Proof.
  intros HF Hres Hsc Hcnt Hov. rewrite (modules_loop_app _ _ _ r HF).
  destruct (report_all (map entry_range es) r) as [res r']. simpl in Hres. subst res.
  cbn [Z.eqb modules_loop]. rewrite Hsc, Hov.
  destruct (Z.eqb_spec cnt 3); [contradiction | reflexivity].
Qed.

(** For a registry with the laws, when all reports succeed and the names
    are distinct, each range is the one found under its name afterwards. *)
Lemma report_all_found `{!RegistryLaws R} es (r : R) :
  NoDup (map (fun e => fst (fst e)) es) -> fst (report_all es r) = 0 ->
  Forall (fun e => find_module (fst (fst e)) (snd (report_all es r)) = Some (snd (fst e), snd e)) es.
Proof.
  revert r. induction es as [|[[n lo] hi] es IH]; intros r Hnd Hres; [constructor|].
  inversion Hnd as [|? ? Hn Hnd']; subst. simpl in *.
  destruct (reg_report_module n lo hi r) as [r'|] eqn:E; [|discriminate].
  constructor; [|apply IH; assumption]. simpl.
  rewrite report_all_other by (intros Hin; apply Hn, list_elem_of_In, Hin). eapply report_module_found, E.
Qed.

End Properties.

(** ** Properties of [dwfl_linux_kernel_report_modules] *)

Section Claims.
Context {R : Type} `{Registry R}.

(** C2. Refinement: when every line of [/proc/modules] is read
    completely by [sscanf], the function reports the modules of the lines
    in order with [[modaddr, modaddr + modsz)] (64-bit sum), stops at the
    first refusal, and returns what that contract returns ([0], or [-1] at
    a refusal); the stream is closed and the descriptors are as before. *)
Theorem report_modules_refines w contents es s (r : R) :
  file_lookup w MODULELIST = inr contents -> fds_below s ->
  stream_end_of w MODULELIST = SEof ->
  Forall2 parsed_line (split_lines contents) es ->
  dwfl_linux_kernel_report_modules w (s, r) =
    Done (fst (report_all (map entry_range es) r),
          (after_open_close s MODULELIST, snd (report_all (map entry_range es) r))).
Proof.
  intros Hf Hfd He HF. rewrite (report_modules_run w contents s r Hf He Hfd), (modules_loop_lines _ _ r HF).
  rewrite <- (modules_result_report_all (map entry_range es) r (ps_errno s)).
  destruct (report_all (map entry_range es) r); reflexivity.
Qed.

(** C14. End to end: on a file of lines as the kernel prints them
    (name, decimal size, reference count, dependencies, state, [0x]
    address, optional taint flags; names shorter than [modname]), every
    module is reported with its address and size as printed. *)
Theorem report_modules_kernel w ms s (r : R) :
  file_lookup w MODULELIST = inr (proc_modules ms) -> fds_below s -> Forall km_ok ms ->
  stream_end_of w MODULELIST = SEof ->
  dwfl_linux_kernel_report_modules w (s, r) =
    Done (fst (report_all (map (fun m => entry_range (km_entry m)) ms) r),
          (after_open_close s MODULELIST,
           snd (report_all (map (fun m => entry_range (km_entry m)) ms) r))).
Proof.
  intros Hf Hfd Hms He. rewrite (report_modules_run w _ s r Hf He Hfd), split_lines_proc by exact Hms.
  rewrite (modules_loop_lines _ _ r (proc_modules_parsed ms Hms)), map_map.
  rewrite <- (modules_result_report_all (map (fun m => entry_range (km_entry m)) ms) r (ps_errno s)).
  destruct (report_all _ r); reflexivity.
Qed.

(** C30. For a registry with the laws of [RegistryLaws]: when the
    function returns [0] on a file of kernel-printed lines with distinct
    names, the registry finds each module under its name with the range
    [[address, address + size)] (64-bit sum) printed on its line. *)
Theorem report_modules_registers `{!RegistryLaws R} w ms s (r : R) s' r' :
  file_lookup w MODULELIST = inr (proc_modules ms) -> fds_below s -> Forall km_ok ms ->
  stream_end_of w MODULELIST = SEof ->
  NoDup (map km_name ms) ->
  dwfl_linux_kernel_report_modules w (s, r) = Done (0, (s', r')) ->
  Forall (fun m => find_module (km_name m) r' = Some (km_addr m, u64 (km_addr m + km_size m))) ms.
Proof.
  intros Hf Hfd Hms He Hnd. rewrite (report_modules_run w _ s r Hf He Hfd), split_lines_proc by exact Hms.
  rewrite (modules_loop_lines _ _ r (proc_modules_parsed ms Hms)), map_map.
  set (es := map (fun m => entry_range (km_entry m)) ms).
  assert (Hnd' : NoDup (map (fun e => fst (fst e)) es)) by (unfold es; rewrite map_map; exact Hnd).
  pose proof (report_all_found es r Hnd') as Hfound. pose proof (report_all_result es r) as H01.
  destruct (report_all es r) as [res r0]. simpl in H01, Hfound.
  intros Hrun. injection Hrun as Hres _ <-.
  destruct H01 as [-> | ->]; [|discriminate].
  specialize (Hfound eq_refl). unfold es in Hfound. apply List.Forall_map in Hfound. exact Hfound.
Qed.

(** C38. A line [sscanf] does not read completely (fewer than three
    fields), ending with a newline, stops the loop with [ENOEXEC]; the
    modules of the lines before it stay reported. *)
Theorem report_modules_malformed w contents ls es l rest cnt vals s (r : R) :
  file_lookup w MODULELIST = inr contents -> fds_below s ->
  stream_end_of w MODULELIST = SEof ->
  split_lines contents = ls ++ l :: rest -> Forall2 parsed_line ls es ->
  fst (report_all (map entry_range es) r) = 0 ->
  sscanf modules_format l = (cnt, vals) -> cnt <> 3 -> modname_overflow vals = false ->
  line_reaches_end l = false ->
  dwfl_linux_kernel_report_modules w (s, r) =
    Done (ENOEXEC, (after_open_close s MODULELIST, snd (report_all (map entry_range es) r))).
Proof.
  intros Hf Hfd He Hls HF Hres Hsc Hcnt Hov Heof.
  rewrite (report_modules_run w contents s r Hf He Hfd), Hls.
  rewrite (modules_loop_stop _ _ _ _ r _ _ HF Hres Hsc Hcnt Hov), Heof. reflexivity.
Qed.

(** The same line as the last of the file, without its newline,
    leaves the stream at end of file: the function returns [0], as if the
    file had ended before it. *)
Theorem report_modules_truncated_last w contents ls es l cnt vals s (r : R) :
  file_lookup w MODULELIST = inr contents -> fds_below s ->
  stream_end_of w MODULELIST = SEof ->
  split_lines contents = ls ++ [l] -> Forall2 parsed_line ls es ->
  fst (report_all (map entry_range es) r) = 0 ->
  sscanf modules_format l = (cnt, vals) -> cnt <> 3 -> modname_overflow vals = false ->
  line_reaches_end l = true ->
  dwfl_linux_kernel_report_modules w (s, r) =
    Done (0, (after_open_close s MODULELIST, snd (report_all (map entry_range es) r))).
Proof.
  intros Hf Hfd He Hls HF Hres Hsc Hcnt Hov Heof.
  rewrite (report_modules_run w contents s r Hf He Hfd), Hls.
  rewrite (modules_loop_stop _ _ _ _ r _ _ HF Hres Hsc Hcnt Hov), Heof. reflexivity.
Qed.

(** [sscanf] on a line whose first field is a name of 128 characters or
    more: [%128s] stores 128 characters. *)
Lemma sscanf_long_name name tail :
  token name -> (128 <= String.length name)%nat -> str_has "000"%char (name ++ tail) = false ->
  exists cnt x vals, sscanf modules_format (name ++ tail) = (cnt, VStr x :: vals) /\ String.length x = 128%nat.
Proof.
  intros Ht Hl Hnul. unfold sscanf. rewrite c_str_no_nul by exact Hnul. rewrite modules_format_directives.
  apply vscanf_long_str; [exact Ht | lia].
Qed.

(** C20. A line of [/proc/modules] whose module name has 128 characters
    or more, after lines read and reported in full: [%128s] stores 128
    characters and the NUL, one byte past [char modname[128]]; the run
    is undefined. *)
Theorem report_modules_long_name w contents ls es name tail rest s (r : R) :
  file_lookup w MODULELIST = inr contents -> fds_below s ->
  split_lines contents = ls ++ (name ++ tail)%string :: rest -> Forall2 parsed_line ls es ->
  fst (report_all (map entry_range es) r) = 0 ->
  token name -> (128 <= String.length name)%nat -> str_has "000"%char (name ++ tail) = false ->
  exists why, dwfl_linux_kernel_report_modules w (s, r) = Undefined why.
Proof.
  intros Hf Hfd Hls HF Hres Ht Hlen Hnul.
  destruct (sscanf_long_name name tail Ht Hlen Hnul) as (cnt & x & vals & Hsc & Hx).
  assert (Hloop : exists why, modules_loop (split_lines contents) r = Undefined why).
  { rewrite Hls, (modules_loop_app _ _ _ r HF).
    destruct (report_all (map entry_range es) r) as [res r']. simpl in Hres. subst res.
    cbn [Z.eqb modules_loop]. rewrite Hsc. unfold modname_overflow. rewrite Hx. eexists. reflexivity. }
  destruct Hloop as [why Hloop]. exists why.
  destruct (stream_end_of w MODULELIST) as [|e] eqn:He.
  - rewrite (report_modules_run w contents s r Hf He Hfd), Hloop. reflexivity.
  - rewrite (report_modules_run_fails w contents e s r Hf He Hfd), Hloop. reflexivity.
Qed.

(** Whatever [/proc/modules] holds, a defined run closes what it
    opened: the open descriptors afterwards are those before. *)
Theorem report_modules_closes w s (r : R) res s' r' :
  fds_below s -> dwfl_linux_kernel_report_modules w (s, r) = Done (res, (s', r')) ->
  ps_fds s' = ps_fds s.
Proof.
  intros Hfd. destruct (file_lookup w MODULELIST) as [e|c] eqn:Hf.
  - unfold dwfl_linux_kernel_report_modules. rewrite (bind_lift_fopen_err w _ e _ s r Hf).
    intros Hrun. injection Hrun as <- <- <-. reflexivity.
  - destruct (stream_end_of w MODULELIST) as [|e] eqn:He;
      [rewrite (report_modules_run w c s r Hf He Hfd) | rewrite (report_modules_run_fails w c e s r Hf He Hfd)];
      destruct (modules_loop (split_lines c) r) as [[[? []] ?]|]; intros Hrun; try discriminate;
      injection Hrun as <- <- <-; reflexivity.
Qed.

(** C22. When reading [/proc/modules] fails with [errno] [e] after the
    lines the kernel printed (an I/O error instead of the end of the
    file): if every module was accepted, the function returns [e], not
    [0], and leaves [e] in [errno]; the modules stay reported. A refusal
    still returns [-1]. *)
Theorem report_modules_read_error w ms e s (r : R) :
  file_lookup w MODULELIST = inr (proc_modules ms) -> stream_end_of w MODULELIST = SErr e ->
  fds_below s -> Forall km_ok ms ->
  dwfl_linux_kernel_report_modules w (s, r) =
    let '(res, r') := report_all (map (fun m => entry_range (km_entry m)) ms) r in
    if res =? 0
    then Done (Zpos e, (after_open_close (mkPstate (Zpos e) (ps_fds s) (ps_next_fd s) (ps_log s)
                                                   (ps_uts_release s)) MODULELIST, r'))
    else Done (res, (after_open_close s MODULELIST, r')).
Proof.
  intros Hf He Hfd Hms. rewrite (report_modules_run_fails w _ e s r Hf He Hfd), split_lines_proc by exact Hms.
  rewrite (modules_loop_lines _ _ r (proc_modules_parsed ms Hms)), map_map.
  destruct (report_all _ r) as [res r']. unfold modules_result.
  destruct (Z.eqb_spec res 0); reflexivity.
Qed.

(** When [fopen] fails, the function returns its [errno] and reports
    nothing. *)
Lemma report_modules_fopen_error w e s (r : R) :
  file_lookup w MODULELIST = inl e ->
  dwfl_linux_kernel_report_modules w (s, r) =
    Done (e, (mkPstate e (ps_fds s) (ps_next_fd s) (ps_log s ++ [MODULELIST]) (ps_uts_release s), r)).
Proof.
  intros Hf. unfold dwfl_linux_kernel_report_modules. rewrite (bind_lift_fopen_err w _ e _ s r Hf).
  reflexivity.
Qed.

End Claims.

(** C39. [modaddr + modsz] is a 64-bit sum: for a module whose end
    passes [2^64] the high address wraps below the low one, and the
    registry of the specification refuses the inverted range, so the
    function stops with [-1] and reports nothing. *)
Theorem report_modules_wraps w contents l rest name size addr s (r : list_registry) :
  file_lookup w MODULELIST = inr contents -> fds_below s -> split_lines contents = l :: rest ->
  stream_end_of w MODULELIST = SEof ->
  parsed_line l (name, size, addr) -> find_module name r = None ->
  0 <= addr <= U64_MAX -> 0 <= size <= U64_MAX -> 2 ^ 64 <= addr + size ->
  u64 (addr + size) < addr /\
  dwfl_linux_kernel_report_modules w (s, r) = Done (-1, (after_open_close s MODULELIST, r)).
Proof.
  intros Hf Hfd Hls He Hl Hnone Ha Hs Hwrap. unfold U64_MAX in *.
  assert (Hlt : u64 (addr + size) < addr) by (rewrite u64_wrap by lia; lia).
  split; [exact Hlt|].
  rewrite (report_modules_run w contents s r Hf He Hfd), Hls.
  change (l :: rest) with ([l] ++ rest).
  rewrite (modules_loop_app [l] [(name, size, addr)] rest r); [|constructor; [exact Hl | constructor]].
  cbn [map entry_range report_all reg_report_module ListRegistry lr_add].
  unfold find_module in Hnone. cbn in Hnone. unfold lr_add. rewrite Hnone.
  destruct (Z.ltb_spec (u64 (addr + size)) addr); [reflexivity | lia].
Qed.

(** ** Witnesses *)

(** The line of the specification, [nfsd 471040 1 - Live
    0xffffffffa05d3000 -], and a module depending on it. *)
Definition nfsd_module : kmodule :=
  mkKmodule "nfsd" 6 471040 "1" "-" "Live" 16 0xffffffffa05d3000 " -".
Definition lockd_module : kmodule :=
  mkKmodule "lockd" 5 94208 "1" "nfsd," "Live" 16 0xffffffffa05b5000 "".

Lemma nfsd_module_line : km_line nfsd_module = "nfsd 471040 1 - Live 0xffffffffa05d3000 -
"%string.
Proof. reflexivity. Qed.

Definition host_modules (text : string) : world :=
  mkWorld {[ MODULELIST := FReg text ]} ∅ (Some "2.6.23") 0 4096 None (fun _ _ => inl ENOENT) [].

Definition mod_pstate0 : pstate := mkPstate 0 [] 3 [] EmptyString.
Definition lr_empty : list_registry := mkListRegistry [] [] no_images.

(** A name of 128 characters. *)
Definition long_modname : string := fixed_digits 10 128 0.

(** Closed side conditions: structure, then comparisons by evaluation. *)
Ltac modules_facts :=
  repeat match goal with
  | |- Forall _ _ => constructor
  | |- Forall2 _ _ _ => constructor
  | |- _ /\ _ => split
  end;
  try discriminate; try reflexivity;
  try (apply Z.ltb_lt; vm_compute; reflexivity); try (apply Z.leb_le; vm_compute; reflexivity);
  try (apply Nat.ltb_lt; vm_compute; reflexivity); try (apply Nat.leb_le; vm_compute; reflexivity).

Lemma nfsd_module_ok : km_ok nfsd_module.
Proof.
  unfold km_ok, entry_ok, taint_ok, token. cbn -[Z.pow]. modules_facts.
  right. exists "-"%string. modules_facts.
Qed.

Lemma lockd_module_ok : km_ok lockd_module.
Proof. unfold km_ok, entry_ok, taint_ok, token. cbn -[Z.pow]. modules_facts. left; reflexivity. Qed.

Lemma report_modules_refines_witness :
  dwfl_linux_kernel_report_modules (host_modules (proc_modules [nfsd_module; lockd_module]))
    (mod_pstate0, lr_empty) =
    Done (fst (report_all (map entry_range (map km_entry [nfsd_module; lockd_module])) lr_empty),
          (after_open_close mod_pstate0 MODULELIST,
           snd (report_all (map entry_range (map km_entry [nfsd_module; lockd_module])) lr_empty))).
Proof.
  apply (report_modules_refines _ (proc_modules [nfsd_module; lockd_module])); [reflexivity | constructor | reflexivity |].
  rewrite split_lines_proc by (constructor; [exact nfsd_module_ok | constructor; [exact lockd_module_ok | constructor]]).
  apply proc_modules_parsed.
  constructor; [exact nfsd_module_ok | constructor; [exact lockd_module_ok | constructor]].
Defined.

Lemma report_modules_kernel_witness :
  dwfl_linux_kernel_report_modules (host_modules (proc_modules [nfsd_module; lockd_module]))
    (mod_pstate0, lr_empty) =
    Done (fst (report_all (map (fun m => entry_range (km_entry m)) [nfsd_module; lockd_module]) lr_empty),
          (after_open_close mod_pstate0 MODULELIST,
           snd (report_all (map (fun m => entry_range (km_entry m)) [nfsd_module; lockd_module]) lr_empty))).
Proof.
  apply (report_modules_kernel _ [nfsd_module; lockd_module]); [reflexivity | constructor | | reflexivity].
  constructor; [exact nfsd_module_ok | constructor; [exact lockd_module_ok | constructor]].
Defined.

(** The registry then holds [nfsd] at
    [[0xffffffffa05d3000, 0xffffffffa05d3000 + 471040)]. *)
Lemma spec_nfsd_registry :
  snd (report_all (map (fun m => entry_range (km_entry m)) [nfsd_module]) lr_empty) =
    mkListRegistry [mkModule "nfsd" 0xffffffffa05d3000 (0xffffffffa05d3000 + 471040)] [] no_images.
Proof. vm_compute. reflexivity. Qed.

Lemma report_modules_registers_witness :
  Forall (fun m => find_module (km_name m)
                     (snd (report_all (map (fun m => entry_range (km_entry m)) [nfsd_module; lockd_module])
                                      lr_empty))
                   = Some (km_addr m, u64 (km_addr m + km_size m)))
         [nfsd_module; lockd_module].
Proof.
  apply (report_modules_registers (R := list_registry) (host_modules (proc_modules [nfsd_module; lockd_module]))
           _ mod_pstate0 lr_empty (after_open_close mod_pstate0 MODULELIST)); [reflexivity | constructor | | reflexivity | |].
  - constructor; [exact nfsd_module_ok | constructor; [exact lockd_module_ok | constructor]].
  - apply (bool_decide_unpack _). vm_compute. reflexivity.
  - vm_compute. reflexivity.
Defined.

Definition malformed_text : string :=
  (km_line nfsd_module ++ "garbage" ++ NL ++ km_line lockd_module)%string.

Lemma report_modules_malformed_witness :
  dwfl_linux_kernel_report_modules (host_modules malformed_text) (mod_pstate0, lr_empty) =
    Done (ENOEXEC, (after_open_close mod_pstate0 MODULELIST,
                    snd (report_all (map entry_range [km_entry nfsd_module]) lr_empty))).
Proof.
  apply (report_modules_malformed _ malformed_text [km_line nfsd_module] [km_entry nfsd_module]
           ("garbage" ++ NL)%string [km_line lockd_module] 1 [VStr "garbage"]);
    try reflexivity; try constructor; try discriminate.
  - exact (km_line_parsed _ nfsd_module_ok).
  - constructor.
Defined.

Definition truncated_text : string := (km_line nfsd_module ++ "lockd 94208")%string.

Lemma report_modules_truncated_last_witness :
  dwfl_linux_kernel_report_modules (host_modules truncated_text) (mod_pstate0, lr_empty) =
    Done (0, (after_open_close mod_pstate0 MODULELIST,
              snd (report_all (map entry_range [km_entry nfsd_module]) lr_empty))).
Proof.
  apply (report_modules_truncated_last _ truncated_text [km_line nfsd_module] [km_entry nfsd_module]
           "lockd 94208" 2 [VStr "lockd"; VNum 94208]);
    try reflexivity; try constructor; try discriminate.
  - exact (km_line_parsed _ nfsd_module_ok).
  - constructor.
Defined.

Definition long_name_text : string := (long_modname ++ " 4096 0 - Live 0xffffffffa0000000" ++ NL)%string.

Lemma report_modules_long_name_witness :
  exists why, dwfl_linux_kernel_report_modules (host_modules long_name_text) (mod_pstate0, lr_empty) =
              Undefined why.
Proof.
  apply (report_modules_long_name _ long_name_text [] [] long_modname
           (" 4096 0 - Live 0xffffffffa0000000" ++ NL) []);
    try reflexivity; try constructor; vm_compute; try reflexivity; discriminate.
Defined.

Lemma report_modules_closes_witness :
  ps_fds (after_open_close mod_pstate0 MODULELIST) = ps_fds mod_pstate0.
Proof.
  apply (report_modules_closes (host_modules malformed_text) mod_pstate0 lr_empty ENOEXEC _
           (snd (report_all (map entry_range [km_entry nfsd_module]) lr_empty)));
    [constructor | vm_compute; reflexivity].
Defined.

Definition host_no_modules : world :=
  mkWorld {[ MODULELIST := FErr EACCES ]} ∅ (Some "2.6.23") 0 4096 None (fun _ _ => inl ENOENT) [].


(** A module at the last pages of the address space. *)
Definition wrap_line : string := ("wrapmod 8192 0 - Live 0xfffffffffffff000" ++ NL)%string.

Lemma report_modules_wraps_witness :
  u64 (0xfffffffffffff000 + 8192) < 0xfffffffffffff000 /\
  dwfl_linux_kernel_report_modules (host_modules wrap_line) (mod_pstate0, lr_empty) =
    Done (-1, (after_open_close mod_pstate0 MODULELIST, lr_empty)).
Proof.
  apply (report_modules_wraps _ wrap_line wrap_line [] "wrapmod" 8192 0xfffffffffffff000);
    [reflexivity | constructor | reflexivity | reflexivity | | reflexivity | modules_facts..].
  unfold parsed_line. modules_facts.
Defined.

(** [/proc/modules] on a device that fails after the two lines. *)
Definition host_modules_eio : world :=
  mkWorld {[ MODULELIST := FRegErr (proc_modules [nfsd_module; lockd_module]) 5 ]} ∅ (Some "2.6.23") 0 4096
          None (fun _ _ => inl ENOENT) [].

Lemma report_modules_read_error_witness :
  dwfl_linux_kernel_report_modules host_modules_eio (mod_pstate0, lr_empty) =
    Done (EIO, (after_open_close (mkPstate EIO (ps_fds mod_pstate0) (ps_next_fd mod_pstate0)
                                           (ps_log mod_pstate0) (ps_uts_release mod_pstate0)) MODULELIST,
                snd (report_all (map (fun m => entry_range (km_entry m)) [nfsd_module; lockd_module])
                                lr_empty))).
Proof.
  etransitivity.
  - apply (report_modules_read_error host_modules_eio [nfsd_module; lockd_module] 5 mod_pstate0 lr_empty);
      [reflexivity | reflexivity | constructor |].
    constructor; [exact nfsd_module_ok | constructor; [exact lockd_module_ok | constructor]].
  - vm_compute. reflexivity.
Defined.
