(* ===== verification/Kernel.v ===== *)
(** * The kernel image: [kernel_release], [try_kernel_name],
    [find_kernel_elf], [report_kernel], [dwfl_linux_kernel_report_kernel]

    - [kernel_release] (C lines 111-119) caches [uname]'s release in a
      static [struct utsname] ([ps_uts_release]); it calls [uname] while
      the cached release is empty.
    - [try_kernel_name] (C lines 77-109) opens the candidate file itself
      unless the debuginfo path starts with [:], then asks
      [dwfl_standard_find_debuginfo] for the file's basename and then for
      its default [.debug] name; when it had to search, the file name
      becomes what the search found ([NULL] when nothing).
    - [find_kernel_elf] (C lines 121-139) tries [RELEASE/vmlinux] for a
      release that is a directory, else [/boot/vmlinux-RELEASE] and then
      [/lib/modules/RELEASE/vmlinux].
    - [report_kernel] (C lines 141-190) returns [-1] for a [NULL] [dwfl];
      [report_kernel_body] (the rest) finds the image, asks the
      predicate, and hands the descriptor to [dwfl_report_elf].
    - [dwfl_linux_kernel_report_kernel] (C lines 348-379) reads
      [dwfl->modulelist] (undefined through a [NULL] [dwfl]), answers
      from the registry when a module [kernel] is there, else from
      [intuit_kernel_bounds], else from the image file.

    A failed [asprintf] leaves its pointer untouched (glibc): [out_name]
    says what [*fname] holds, and [report_kernel]'s final [free (fname)]
    is undefined when it was never written. The predicate is a function
    of the module name and file name that returns [want] and may set
    [errno]. The last theorems follow the image into the reference
    registry [ListRegistry]: the module [kernel] over the range the
    image's headers give, or, for a file that is not ELF, a refusal after
    which [report_kernel] closes the descriptor. *)

From Stdlib Require Import ZArith Lia String Ascii List Bool.
From stdpp Require Import base list strings gmap.
From S2P Require Import Prelude CNum Os Registry Kallsyms.

Local Open Scope Z_scope.

Definition KERNEL_MODNAME : string := "kernel".

Definition MODULEDIRFMT (release : string) : string := ("/lib/modules/" ++ release)%string.

(** [DEFAULT_DEBUGINFO_PATH] of libdwfl. *)
Definition DEFAULT_DEBUGINFO_PATH : string := ":.debug:/usr/lib/debug".

(** GNU [basename]: what follows the last [/]. *)
Fixpoint basename_go (s acc : string) : string :=
  match s with
  | EmptyString => acc
  | String c r => if chr_eqb c "/"%char then basename_go r EmptyString
                  else basename_go r (acc ++ String c EmptyString)
  end.

Definition basename (s : string) : string := basename_go s EmptyString.

(** The predicate: [want] and the [errno] it leaves, if it sets one. *)
Definition predicate : Type := string -> option string -> Z * option Z.

Definition call_predicate (p : predicate) (m : string) (f : option string) : M pstate Z :=
  let '(want, e) := p m f in
  match e with Some e' => set_errno e';; ret want | None => ret want end.

(** ** [kernel_release] *)

Definition kernel_release (w : world) : M pstate (option string) :=
  let* cached := get_uts_release in
  if streq cached EmptyString then
    let* u := sys_uname w in
    match u with
    | Some r => set_uts_release r;; ret (Some r)
    | None => ret None
    end
  else ret (Some cached).

(** ** [try_kernel_name] and [find_kernel_elf] *)

Definition debuginfo_path (w : world) : string :=
  match w_debuginfo_path w with Some p => p | None => DEFAULT_DEBUGINFO_PATH end.

Definition try_kernel_name (w : world) (fname : option string) : M pstate (Z * option string) :=
  match fname with
  | None => ret (-1, None)
  | Some f =>
      let* fd := if starts_with ":" (debuginfo_path w) then ret (-1) else sys_open64 w f in
      if fd <? 0 then
        let* '(fd1, d1) := sys_find_debuginfo w f (Some (basename f)) in
        if fd1 <? 0 then sys_find_debuginfo w f None
        else ret (fd1, d1)
      else ret (fd, Some f)
  end.

(** What a caller finds in a [char **] out-parameter: not written, a
    [NULL], a path, or a path whose storage was freed. A failed
    [asprintf] leaves its pointer untouched (glibc). *)
Inductive out_name : Type :=
| NameUnset
| NameNull
| NameSet (path : string)
| NameFreed (path : string).

Definition name_of (f : option string) : out_name :=
  match f with Some p => NameSet p | None => NameNull end.

(** [free] of [*fname], then a failed [asprintf] into [fname]. *)
Definition freed (f : option string) : out_name :=
  match f with Some p => NameFreed p | None => NameNull end.

(** The value of a pointer that may be freed: [NULL] or a live string. *)
Definition valid_ptr (n : out_name) : option (option string) :=
  match n with
  | NameNull => Some None
  | NameSet p => Some (Some p)
  | NameUnset | NameFreed _ => None
  end.

Definition find_kernel_elf (w : world) (release : string) : M pstate (Z * out_name) :=
  let dir := starts_with "/" release in
  let* a := sys_asprintf w (if dir then (release ++ "/vmlinux")%string
                            else ("/boot/vmlinux-" ++ release)%string) in
  match a with
  | None => ret (-1, NameUnset)
  | Some fname =>
      let* '(fd, fname') := try_kernel_name w (Some fname) in
      if (fd <? 0) && negb dir then
        let* a2 := sys_asprintf w (MODULEDIRFMT release ++ "/vmlinux")%string in
        match a2 with
        | None => ret (-1, freed fname')
        | Some fname2 =>
            let* '(fd2, fname2') := try_kernel_name w (Some fname2) in ret (fd2, name_of fname2')
        end
      else ret (fd, name_of fname')
  end.

(** ** [report_kernel] *)

Section WithRegistry.
Context {R : Type} `{Registry R}.

Definition get_reg : M (pstate * R) R := fun '(s, r) => Done (r, (s, r)).
Definition put_reg (r : R) : M (pstate * R) unit := fun '(s, _) => Done (tt, (s, r)).

(** [errno ?: ENOENT]. *)
Definition errno_or_enoent : M pstate Z :=
  let* e := get_errno in ret (if e =? 0 then ENOENT else e).

(** The body after the [dwfl == NULL] test: the result and [*release]
    afterwards. *)
Definition report_kernel_body (w : world) (release : option string) (pred : option predicate)
  : M (pstate * R) (Z * option string) :=
  let* rel := lift_fst (match release with Some r => ret (Some r) | None => kernel_release w end) in
  match rel with
  | None => let* e := lift_fst get_errno in ret (e, release)
  | Some release_string =>
      let* '(fd, name) := lift_fst (find_kernel_elf w release_string) in
      (* The final [free (fname)] needs a [NULL] or a live pointer. *)
      match valid_ptr name with
      | None => fun _ => Undefined "free (fname) of an fname never written or already freed"
      | Some fname =>
      if fd <? 0 then
        let* result := lift_fst
          (match pred with
           | Some p => let* want := call_predicate p KERNEL_MODNAME None in
                       if want =? 0 then ret 0 else errno_or_enoent
           | None => errno_or_enoent
           end) in
        ret (result, Some release_string)
      else
        let* '(result, report) := lift_fst
          (match pred with
           | Some p => let* want := call_predicate p KERNEL_MODNAME fname in
                       if want <? 0 then let* e := get_errno in ret (e, 0 <? want)
                       else ret (0, 0 <? want)
           | None => ret (0, true)
           end) in
        if report then
          let* r := get_reg in
          match reg_report_elf KERNEL_MODNAME (match fname with Some f => f | None => EmptyString end) fd 0 r with
          | Some r' => put_reg r';; ret (result, Some release_string)
          | None => lift_fst (sys_close fd);; ret (-1, Some release_string)
          end
        else ret (result, Some release_string)
      end
  end.

Definition report_kernel (w : world) (release : option string) (pred : option predicate)
  : M (pstate * R) (Z * option string) :=
  let* dwfl := get_reg in
  if reg_null dwfl then ret (-1, release) else report_kernel_body w release pred.

(** ** [dwfl_linux_kernel_report_kernel] *)

(** The nested [report]. *)
Definition report_bounds (start end_ : Z) : M (pstate * R) Z :=
  let* r := get_reg in
  match reg_report_module KERNEL_MODNAME start end_ r with
  | Some r' => put_reg r';; ret 0
  | None => ret (-1)
  end.

Definition dwfl_linux_kernel_report_kernel (w : world) : M (pstate * R) Z :=
  let* r := get_reg in
  if reg_null r then fun _ => Undefined "dwfl->modulelist read through a NULL dwfl" else
  match find_module KERNEL_MODNAME r with
  | Some (lo, hi) => report_bounds lo hi
  | None =>
      let* '(result, bounds) := lift_fst (intuit_kernel_bounds w) in
      if result =? 0 then
        match bounds with
        | Some (start, end_) => report_bounds start end_
        | None => fun _ => Undefined "start and end are read uninitialized"
        end
      else if negb (result =? ENOENT) then ret result
      else let* '(res, _) := report_kernel w None None in ret res
  end.

End WithRegistry.

(** ** [kernel_release] *)

Lemma kernel_release_cached w s :
  ps_uts_release s <> EmptyString -> kernel_release w s = Done (Some (ps_uts_release s), s).
Proof.
  intros H. unfold kernel_release. rewrite bind_unfold. cbn [get_uts_release].
  destruct (streq_spec (ps_uts_release s) EmptyString); [contradiction | reflexivity].
Qed.

Lemma kernel_release_none w s s' :
  kernel_release w s = Done (None, s') -> ps_errno s' = w_uname_errno w.
Proof.
  unfold kernel_release. rewrite bind_unfold. cbn [get_uts_release].
  destruct (streq (ps_uts_release s) EmptyString); [|discriminate].
  unfold sys_uname. destruct (w_uname w); [discriminate|]. intros [= <-]. reflexivity.
Qed.

(** [kernel_release] caches: once it has returned a non-empty
    release, every later call returns it without asking [uname] again,
    whatever [uname] would now say, and changes nothing. *)
Lemma kernel_release_caches w s r s' :
  kernel_release w s = Done (Some r, s') -> r <> EmptyString ->
  forall w', kernel_release w' s' = Done (Some r, s').
Proof.
  intros Hrun Hr w'. unfold kernel_release in Hrun. rewrite bind_unfold in Hrun.
  cbn [get_uts_release] in Hrun. revert Hrun.
  destruct (streq_spec (ps_uts_release s) EmptyString) as [E|E]; intros Hrun.
  - unfold sys_uname in Hrun. destruct (w_uname w) as [u|]; [|discriminate].
    injection Hrun as -> <-. rewrite kernel_release_cached; [reflexivity | exact Hr].
  - injection Hrun as <- <-. apply kernel_release_cached. exact E.
Qed.

(** ** Reporting the kernel *)

Lemma lift_fst_Done {S T A} (m : M S A) (s : S) (t : T) a st :
  lift_fst m (s, t) = Done (a, st) -> exists s', m s = Done (a, s') /\ st = (s', t).
Proof. rewrite lift_fst_unfold. destruct (m s) as [[a' s']|]; intros [= -> <-]; eauto. Qed.

Lemma errno_or_enoent_nonzero s e s' : errno_or_enoent s = Done (e, s') -> e <> 0.
Proof.
  unfold errno_or_enoent, bind, get_errno, ret. intros [= <- _].
  destruct (Z.eqb_spec (ps_errno s) 0); unfold ENOENT; lia.
Qed.

Section Guard.
Context {R : Type} `{Registry R}.

Lemma report_kernel_nonnull w rel pred s (r : R) :
  reg_null r = false -> report_kernel w rel pred (s, r) = report_kernel_body w rel pred (s, r).
Proof. intros Hn. unfold report_kernel. rewrite bind_unfold. cbn [get_reg]. rewrite Hn. reflexivity. Qed.

(** [if (dwfl == NULL) return -1;]: nothing else is done. *)
Lemma report_kernel_null w rel pred s (r : R) :
  reg_null r = true -> report_kernel w rel pred (s, r) = Done ((-1, rel), (s, r)).
Proof. intros Hn. unfold report_kernel. rewrite bind_unfold. cbn [get_reg]. rewrite Hn. reflexivity. Qed.

(** [dwfl_linux_kernel_report_kernel] past the read of [dwfl->modulelist]. *)
Lemma report_kernel_cb_nonnull s (r : R) (k : R -> M (pstate * R) Z) :
  reg_null r = false ->
  bind get_reg (fun r => if reg_null r then fun _ => Undefined "dwfl->modulelist read through a NULL dwfl"
                         else k r) (s, r) = k r (s, r).
Proof. intros Hn. rewrite bind_unfold. cbn [get_reg]. rewrite Hn. reflexivity. Qed.

End Guard.

Section Report.
Context {R : Type} `{Registry R} `{!RegistryLaws R}.

Lemma report_bounds_found lo hi s (r : R) st :
  report_bounds lo hi (s, r) = Done (0, st) ->
  exists r', st = (s, r') /\ find_module KERNEL_MODNAME r' = Some (lo, hi).
Proof.
  unfold report_bounds. rewrite bind_unfold. cbn [get_reg].
  destruct (reg_report_module KERNEL_MODNAME lo hi r) as [r'|] eqn:E; [|discriminate].
  intros [= <-]. exists r'. split; [reflexivity|]. eapply report_module_found, E.
Qed.

Lemma report_bounds_same lo hi s (r : R) :
  find_module KERNEL_MODNAME r = Some (lo, hi) -> report_bounds lo hi (s, r) = Done (0, (s, r)).
Proof.
  intros F. unfold report_bounds. rewrite bind_unfold. cbn [get_reg].
  rewrite (report_module_same _ _ _ _ F). reflexivity.
Qed.

(** [report_kernel] without release and predicate returns [0] only after
    [dwfl_report_elf] took the image: a module [kernel] is then found. *)
Lemma report_kernel_zero w x s (r : R) s' r' :
  w_uname_errno w <> 0 -> reg_null r = false ->
  report_kernel w None None (s, r) = Done ((0, x), (s', r')) ->
  exists lo hi, find_module KERNEL_MODNAME r' = Some (lo, hi).
Proof.
  intros Hu Hn Hrun. rewrite report_kernel_nonnull in Hrun by exact Hn. unfold report_kernel_body in Hrun.
  run_bind_in Hrun E1; [|discriminate].
  destruct (lift_fst_Done _ _ _ _ _ E1) as (s1 & Hk & ->).
  destruct o as [rel|].
  - run_bind_in Hrun E2; [|discriminate]. destruct p as [fd name].
    destruct (lift_fst_Done _ _ _ _ _ E2) as (s2 & _ & ->).
    destruct (valid_ptr name) as [fname|]; [|discriminate].
    destruct (fd <? 0).
    + run_bind_in Hrun E3; [|discriminate]. destruct (lift_fst_Done _ _ _ _ _ E3) as (s3 & He & ->).
      apply errno_or_enoent_nonzero in He. injection Hrun as -> _ _ _. contradiction.
    + rewrite bind_unfold in Hrun. cbn [lift_fst ret] in Hrun.
      rewrite bind_unfold in Hrun. cbn [get_reg] in Hrun.
      destruct (reg_report_elf _ _ fd 0 r) as [r2|] eqn:E4.
      * rewrite bind_unfold in Hrun. cbn in Hrun. injection Hrun; intros; subst.
        eapply report_elf_found, E4.
      * rewrite bind_unfold in Hrun. cbn in Hrun. discriminate.
  - rewrite bind_unfold in Hrun. cbn in Hrun. injection Hrun; intros; subst.
    apply kernel_release_none in Hk. congruence.
Qed.

End Report.

Section ReportKernelClaims.
Context {R : Type} `{Registry R}.

(** C10. [dwfl_linux_kernel_report_kernel] is idempotent for a registry
    with the laws of [RegistryLaws]: after a call that returned [0], a
    second call returns [0] from the module [kernel] in the registry and
    changes nothing, so it opens no file ([ps_log] is unchanged). *)
Theorem report_kernel_kernel_idem `{!RegistryLaws R} w s (r : R) s1 r1 :
  w_uname_errno w <> 0 ->
  dwfl_linux_kernel_report_kernel w (s, r) = Done (0, (s1, r1)) ->
  dwfl_linux_kernel_report_kernel w (s1, r1) = Done (0, (s1, r1)).
Proof.
  intros Hu Hrun.
  assert (Hf : exists lo hi, find_module KERNEL_MODNAME r1 = Some (lo, hi)).
  { unfold dwfl_linux_kernel_report_kernel in Hrun. rewrite bind_unfold in Hrun. cbn [get_reg] in Hrun.
    destruct (reg_null r) eqn:Hn; [discriminate|].
    destruct (find_module KERNEL_MODNAME r) as [[lo hi]|].
    - destruct (report_bounds_found _ _ _ _ _ Hrun) as (r' & [= <- <-] & F). eauto.
    - run_bind_in Hrun E1; [|discriminate]. destruct p as [res bounds].
      destruct (lift_fst_Done _ _ _ _ _ E1) as (s2 & _ & ->).
      destruct (Z.eqb_spec res 0).
      + destruct bounds as [[lo hi]|]; [|discriminate].
        destruct (report_bounds_found _ _ _ _ _ Hrun) as (r' & [= <- <-] & F). eauto.
      + destruct (negb (res =? ENOENT)).
        * injection Hrun; intros; subst. contradiction.
        * run_bind_in Hrun E2; [|discriminate]. match type of E2 with _ = Done (?pp, ?st) => destruct pp as [res' rel]; destruct st as [s3 r3] end.
          injection Hrun; intros; subst. eapply report_kernel_zero; [exact Hu | exact Hn | exact E2]. }
  destruct Hf as (lo & hi & F). unfold dwfl_linux_kernel_report_kernel.
  rewrite (report_kernel_cb_nonnull _ _ _ (find_module_nonnull _ _ _ F)). rewrite F. apply report_bounds_same, F.
Qed.

(** C26. When [intuit_kernel_bounds] returns [0] without writing the
    bounds (the first address of [/proc/kallsyms] reads as [0], as under
    [kptr_restrict]) and no module [kernel] is reported yet, [report]
    reads [start] and [end] uninitialized. *)
Theorem report_kernel_kernel_uninit w s (r : R) s1 :
  find_module KERNEL_MODNAME r = None ->
  intuit_kernel_bounds w s = Done ((0, None), s1) ->
  exists why, dwfl_linux_kernel_report_kernel w (s, r) = Undefined why.
Proof.
  intros F Hi. unfold dwfl_linux_kernel_report_kernel. rewrite bind_unfold. cbn [get_reg].
  destruct (reg_null r); [eexists; reflexivity|]. rewrite F.
  rewrite bind_unfold, lift_fst_unfold, Hi. eexists. reflexivity.
Qed.

(** C33. An error of [intuit_kernel_bounds] other than [ENOENT] (an
    unreadable [/proc/kallsyms], a malformed table) is returned as is: no
    kernel image is looked for and nothing is reported. *)
Theorem report_kernel_kernel_error w s (r : R) e s1 :
  reg_null r = false -> find_module KERNEL_MODNAME r = None ->
  intuit_kernel_bounds w s = Done ((e, None), s1) -> e <> 0 -> e <> ENOENT ->
  dwfl_linux_kernel_report_kernel w (s, r) = Done (e, (s1, r)).
Proof.
  intros Hn F Hi He0 HeN. unfold dwfl_linux_kernel_report_kernel. rewrite (report_kernel_cb_nonnull _ _ _ Hn), F.
  rewrite bind_unfold, lift_fst_unfold, Hi. cbv beta iota.
  destruct (Z.eqb_spec e 0); [contradiction|]. destruct (Z.eqb_spec e ENOENT); [contradiction|]. reflexivity.
Qed.

(** C8. With bounds from [intuit_kernel_bounds], the kernel is reported
    as module [kernel] with exactly those bounds. *)
Theorem report_kernel_kernel_bounds w s (r : R) lo hi s1 :
  reg_null r = false -> find_module KERNEL_MODNAME r = None ->
  intuit_kernel_bounds w s = Done ((0, Some (lo, hi)), s1) ->
  dwfl_linux_kernel_report_kernel w (s, r) =
    match reg_report_module KERNEL_MODNAME lo hi r with
    | Some r' => Done (0, (s1, r'))
    | None => Done (-1, (s1, r))
    end.
Proof.
  intros Hn F Hi. unfold dwfl_linux_kernel_report_kernel. rewrite (report_kernel_cb_nonnull _ _ _ Hn), F.
  rewrite bind_unfold, lift_fst_unfold, Hi. cbv beta iota.
  unfold report_bounds, bind, get_reg, put_reg, ret. simpl. destruct (reg_report_module KERNEL_MODNAME lo hi r); reflexivity.
Qed.

End ReportKernelClaims.

(** ** The kernel image: contract *)

(** What [try_kernel_name] finds for one candidate: the file itself when
    the path lets it be opened directly and it opens, else what the two
    searches find. *)
Definition try_spec (w : world) (f : string) : option string :=
  if negb (starts_with ":" (debuginfo_path w)) &&
     (match file_lookup w f with inr _ => true | inl _ => false end)
  then Some f
  else match w_find_debuginfo w f (Some (basename f)) with
       | inr p => Some p
       | inl _ => match w_find_debuginfo w f None with inr p => Some p | inl _ => None end
       end.

Definition kernel_candidates (release : string) : list string :=
  if starts_with "/" release then [(release ++ "/vmlinux")%string]
  else [("/boot/vmlinux-" ++ release)%string; (MODULEDIRFMT release ++ "/vmlinux")%string].

(** The first candidate for which something is found. *)
Fixpoint first_image (w : world) (cs : list string) : option string :=
  match cs with
  | [] => None
  | c :: cs' => match try_spec w c with Some p => Some p | None => first_image w cs' end
  end.

Definition kernel_image_spec (w : world) (release : string) : option string :=
  first_image w (kernel_candidates release).

(** How the descriptors change when a call opens at most one file: a
    negative result opens nothing, else the next descriptor is opened. *)
Definition opened (s s' : pstate) (fd : Z) : Prop :=
  if fd <? 0 then ps_fds s' = ps_fds s /\ ps_next_fd s' = ps_next_fd s
  else fd = ps_next_fd s /\ ps_fds s' = fd :: ps_fds s /\ ps_next_fd s' = fd + 1.

Lemma find_debuginfo_run w f l s :
  0 <= ps_next_fd s ->
  exists fd s', sys_find_debuginfo w f l s = Done ((fd, match w_find_debuginfo w f l with
                                                         | inr p => Some p | inl _ => None end), s') /\
                opened s s' fd /\ (fd < 0 <-> exists e, w_find_debuginfo w f l = inl e) /\
                (fd < 0 -> fd = -1).
Proof.
  intros Hn. unfold sys_find_debuginfo. destruct (w_find_debuginfo w f l) as [e|p].
  - eexists _, _. split; [reflexivity|]. unfold opened. cbn. split; [auto|]. split; [split; eauto; lia | lia].
  - eexists _, _. split; [reflexivity|]. unfold opened. cbn.
    destruct (Z.ltb_spec (ps_next_fd s) 0); [lia|]. split; [auto|].
    split; [split; [lia | intros [e' He]; discriminate] | lia].
Qed.

(** The two searches of [try_kernel_name]. *)
Definition search_spec (w : world) (f : string) : option string :=
  match w_find_debuginfo w f (Some (basename f)) with
  | inr p => Some p
  | inl _ => match w_find_debuginfo w f None with inr p => Some p | inl _ => None end
  end.

Definition image_result (s s' : pstate) (fd : Z) (img : option string) : Prop :=
  opened s s' fd /\ (fd < 0 <-> img = None) /\ (fd < 0 -> fd = -1).

Lemma search_run w f s :
  0 <= ps_next_fd s ->
  exists fd s',
    bind (sys_find_debuginfo w f (Some (basename f)))
         (fun '(fd1, d1) => if fd1 <? 0 then sys_find_debuginfo w f None else ret (fd1, d1)) s
      = Done ((fd, search_spec w f), s') /\ image_result s s' fd (search_spec w f).
Proof.
  intros Hn. unfold search_spec, image_result, opened. rewrite bind_unfold. unfold sys_find_debuginfo at 1.
  destruct (w_find_debuginfo w f (Some (basename f))) as [e1|p1].
  - cbn. unfold sys_find_debuginfo. destruct (w_find_debuginfo w f None) as [e2|p2]; cbn.
    + eexists _, _. split; [reflexivity|]. cbn. split; [auto | split; [split; auto; lia | lia]].
    + destruct (Z.ltb_spec (ps_next_fd s) 0); [lia|]. eexists _, _. split; [reflexivity|]. cbn.
      destruct (Z.ltb_spec (ps_next_fd s) 0); [lia|]. split; [auto | split; [split; [lia | discriminate] | lia]].
  - cbn. destruct (Z.ltb_spec (ps_next_fd s) 0); [lia|]. eexists _, _. split; [reflexivity|]. cbn.
    destruct (Z.ltb_spec (ps_next_fd s) 0); [lia|]. split; [auto | split; [split; [lia | discriminate] | lia]].
Qed.

Lemma try_kernel_name_run w f s :
  0 <= ps_next_fd s ->
  exists fd s', try_kernel_name w (Some f) s = Done ((fd, try_spec w f), s') /\
                image_result s s' fd (try_spec w f).
Proof.
  intros Hn. unfold try_kernel_name, try_spec.
  destruct (starts_with ":" (debuginfo_path w)); cbn [negb andb].
  - rewrite bind_ret_l. cbv beta. change (-1 <? 0) with true. cbv iota.
    apply search_run, Hn.
  - unfold sys_open64. rewrite bind_unfold. unfold log_path, modify at 1. cbn [bind].
    destruct (file_lookup w f) as [e|c].
    + cbn. change (-1 <? 0) with true. cbv iota.
      apply (search_run w f (mkPstate e (ps_fds s) (ps_next_fd s) (ps_log s ++ [f]) (ps_uts_release s))).
      exact Hn.
    + cbn. destruct (Z.ltb_spec (ps_next_fd s) 0); [lia|]. eexists _, _. split; [reflexivity|].
      unfold image_result, opened. cbn. destruct (Z.ltb_spec (ps_next_fd s) 0); [lia|].
      split; [auto | split; [split; [lia | discriminate] | lia]].
Qed.

Lemma opened_skip s s1 s2 fd1 fd2 :
  opened s s1 fd1 -> fd1 < 0 -> opened s1 s2 fd2 -> opened s s2 fd2.
Proof.
  unfold opened. destruct (Z.ltb_spec fd1 0); [|lia]. intros [F1 N1] _.
  destruct (Z.ltb_spec fd2 0); [intros [F2 N2]; split; congruence|].
  intros (-> & F2 & N2). rewrite F2, F1, N2, N1. auto.
Qed.

Lemma opened_next s s1 fd : opened s s1 fd -> fd < 0 -> ps_next_fd s1 = ps_next_fd s.
Proof. unfold opened. destruct (Z.ltb_spec fd 0); [tauto | lia]. Qed.

(** [find_kernel_elf] implements [kernel_image_spec]. *)
Lemma find_kernel_elf_run w rel s :
  w_nomem w = [] -> 0 <= ps_next_fd s ->
  exists fd s', find_kernel_elf w rel s = Done ((fd, name_of (kernel_image_spec w rel)), s') /\
                image_result s s' fd (kernel_image_spec w rel).
Proof.
  intros Hm Hn. unfold find_kernel_elf, kernel_image_spec, kernel_candidates.
  rewrite bind_unfold, sys_asprintf_ok by (apply alloc_fails_none, Hm). cbv beta iota.
  destruct (try_kernel_name_run w (if starts_with "/" rel then (rel ++ "/vmlinux")%string
                                   else ("/boot/vmlinux-" ++ rel)%string) s Hn) as (fd1 & s1 & E1 & R1).
  rewrite bind_unfold, E1. cbv beta iota.
  destruct (starts_with "/" rel); cbn [first_image negb andb].
  - rewrite andb_false_r. exists fd1, s1. split; [|destruct (try_spec w _); exact R1].
    destruct (try_spec w _); reflexivity.
  - destruct R1 as (O1 & Hneg & Hm1). destruct (Z.ltb_spec fd1 0) as [Hlt|Hge]; cbn [andb].
    + rewrite (proj1 Hneg Hlt).
      rewrite bind_unfold, sys_asprintf_ok by (apply alloc_fails_none, Hm). cbv beta iota.
      destruct (try_kernel_name_run w (MODULEDIRFMT rel ++ "/vmlinux")%string s1) as (fd2 & s2 & E2 & R2).
      { rewrite (opened_next _ _ _ O1 Hlt). exact Hn. }
      rewrite bind_unfold, E2. exists fd2, s2. destruct (try_spec w (MODULEDIRFMT rel ++ "/vmlinux")%string); split; try reflexivity;
        destruct R2 as (O2 & N2 & M2); (split; [exact (opened_skip _ _ _ _ _ O1 Hlt O2) | split; assumption]).
    + destruct (try_spec w ("/boot/vmlinux-" ++ rel)%string) as [p|]; [|exfalso; pose proof (proj2 Hneg eq_refl); lia].
      exists fd1, s1. split; [reflexivity|]. split; [exact O1 | split; assumption].
Qed.

Section ReportKernelPredicate.
Context {R : Type} `{Registry R}.

(** [report_kernel] with a release, up to the predicate: the image is
    found and opened as the next descriptor. *)
Lemma report_kernel_opens w rel pred s (r : R) img :
  reg_null r = false -> w_nomem w = [] -> 0 <= ps_next_fd s -> kernel_image_spec w rel = Some img ->
  exists s1, find_kernel_elf w rel s = Done ((ps_next_fd s, NameSet img), s1) /\
             ps_fds s1 = ps_next_fd s :: ps_fds s /\
             report_kernel w (Some rel) pred (s, r) =
               bind (lift_fst
                 (match pred with
                  | Some p => let* want := call_predicate p KERNEL_MODNAME (Some img) in
                              if want <? 0 then let* e := get_errno in ret (e, 0 <? want)
                              else ret (0, 0 <? want)
                  | None => ret (0, true)
                  end))
                 (fun '(result, report) =>
                    if report then
                      let* r := get_reg in
                      match reg_report_elf KERNEL_MODNAME img (ps_next_fd s) 0 r with
                      | Some r' => put_reg r';; ret (result, Some rel)
                      | None => lift_fst (sys_close (ps_next_fd s));; ret (-1, Some rel)
                      end
                    else ret (result, Some rel)) (s1, r).
Proof.
  intros Hnull Hm Hn Himg. destruct (find_kernel_elf_run w rel s Hm Hn) as (fd & s1 & E & O & N & _).
  rewrite Himg in E, N. assert (Hfd : ~ fd < 0) by (intros Hlt; discriminate (proj1 N Hlt)).
  unfold opened in O. destruct (Z.ltb_spec fd 0) as [|_]; [contradiction|]. destruct O as (-> & F & _).
  exists s1. split; [exact E|]. split; [exact F|].
  rewrite report_kernel_nonnull by exact Hnull. unfold report_kernel_body.
  rewrite bind_unfold, lift_fst_unfold. unfold ret at 1. cbv beta iota.
  rewrite bind_unfold, lift_fst_unfold, E.
  cbv beta iota zeta. destruct (Z.ltb_spec (ps_next_fd s) 0); [lia|]. reflexivity.
Qed.

(** C29. A predicate that declines the image it is shown ([want == 0])
    makes [report_kernel] return [0] without reporting it, and the
    descriptor of the image stays open: no path of the function closes
    it. *)
Theorem report_kernel_declined_leaks w rel p s (r : R) img :
  reg_null r = false -> w_nomem w = [] -> fds_below s -> 0 <= ps_next_fd s -> kernel_image_spec w rel = Some img ->
  p KERNEL_MODNAME (Some img) = (0, None) ->
  exists s', report_kernel w (Some rel) (Some p) (s, r) = Done ((0, Some rel), (s', r)) /\
             In (ps_next_fd s) (ps_fds s') /\ ~ In (ps_next_fd s) (ps_fds s).
Proof.
  intros Hnull Hm Hb Hn Himg Hp.
  destruct (report_kernel_opens w rel (Some p) s r img Hnull Hm Hn Himg) as (s1 & _ & F & ->).
  exists s1. split; [|split; [rewrite F; left; reflexivity | apply fds_below_fresh, Hb]].
  unfold call_predicate. rewrite Hp. reflexivity.
Qed.

(** C31. A predicate that fails ([want < 0]) without setting [errno]
    makes [report_kernel] return whatever [errno] the search for the image
    left, which may be [0]: the caller then sees success though nothing
    was reported (and the image's descriptor stays open). *)
Theorem report_kernel_stale_errno w rel p s (r : R) img :
  reg_null r = false -> w_nomem w = [] -> 0 <= ps_next_fd s -> kernel_image_spec w rel = Some img ->
  p KERNEL_MODNAME (Some img) = (-1, None) ->
  exists s1, find_kernel_elf w rel s = Done ((ps_next_fd s, NameSet img), s1) /\
             report_kernel w (Some rel) (Some p) (s, r) = Done ((ps_errno s1, Some rel), (s1, r)).
Proof.
  intros Hnull Hm Hn Himg Hp.
  destruct (report_kernel_opens w rel (Some p) s r img Hnull Hm Hn Himg) as (s1 & E & _ & ->).
  exists s1. split; [exact E|]. unfold call_predicate. rewrite Hp. reflexivity.
Qed.

(** C27. When the first [asprintf] of [find_kernel_elf] fails it returns
    [-1] without writing [*fname]; [report_kernel] then reaches
    [free (fname)] with its [char *fname] never initialized: undefined
    behaviour, whatever the predicate. *)
Theorem report_kernel_nomem_undefined w rel pred s (r : R) :
  reg_null r = false ->
  alloc_fails w (AAsprintf (if starts_with "/" rel then (rel ++ "/vmlinux")%string
                            else ("/boot/vmlinux-" ++ rel)%string)) = true ->
  exists why, report_kernel w (Some rel) pred (s, r) = Undefined why.
Proof.
  intros Hnull A. rewrite report_kernel_nonnull by exact Hnull. unfold report_kernel_body.
  rewrite bind_unfold, lift_fst_unfold. unfold ret at 1. cbv beta iota.
  rewrite bind_unfold, lift_fst_unfold. unfold find_kernel_elf at 1.
  rewrite bind_unfold, sys_asprintf_fail by exact A. eexists. reflexivity.
Qed.

End ReportKernelPredicate.

(** ** The kernel image on the reference registry *)

(** [report_kernel] without predicate, once the image is open: what
    [dwfl_report_elf] makes of it decides the rest. *)
Lemma report_kernel_elf w rel s (r : list_registry) img :
  w_nomem w = [] -> 0 <= ps_next_fd s -> kernel_image_spec w rel = Some img ->
  exists s1, ps_fds s1 = ps_next_fd s :: ps_fds s /\ ps_next_fd s1 = ps_next_fd s + 1 /\
    report_kernel w (Some rel) None (s, r) =
      match lr_report_elf KERNEL_MODNAME img (ps_next_fd s) 0 r with
      | Some r' => Done ((0, Some rel), (s1, r'))
      | None => Done ((-1, Some rel), (mkPstate (ps_errno s1) (List.filter (fun x => negb (x =? ps_next_fd s)) (ps_fds s1))
                                                (ps_next_fd s1) (ps_log s1) (ps_uts_release s1), r))
      end.
Proof.
  intros Hm Hn Himg.
  destruct (@report_kernel_opens list_registry ListRegistry w rel None s r img eq_refl Hm Hn Himg) as (s1 & E & F & ->).
  destruct (find_kernel_elf_run w rel s Hm Hn) as (fd & s1' & E' & O & _).
  rewrite E in E'. injection E' as <- _ <-. unfold opened in O.
  destruct (Z.ltb_spec (ps_next_fd s) 0); [lia|]. destruct O as (_ & _ & N).
  exists s1. split; [exact F | split; [exact N|]].
  unfold bind at 1, lift_fst, ret. cbn [reg_report_elf ListRegistry].
  rewrite bind_unfold. cbn [get_reg].
  destruct (lr_report_elf KERNEL_MODNAME img (ps_next_fd s) 0 r); reflexivity.
Qed.

(** C9. With no predicate, [report_kernel] hands the image it finds to
    [dwfl_report_elf] at bias [0]: when the image's ELF headers span
    [[lo, hi)] and no module [kernel] is reported yet, it returns [0],
    [kernel] is appended to the registry over exactly [[lo, hi)], and the
    image's descriptor, still open, is the registry's. *)
Theorem report_kernel_image_range w rel s r img lo hi :
  w_nomem w = [] -> 0 <= ps_next_fd s -> kernel_image_spec w rel = Some img ->
  find_in KERNEL_MODNAME (lr_modules r) = None -> lr_images r img = Some (lo, hi) -> lo <= hi ->
  exists s1, report_kernel w (Some rel) None (s, r) =
               Done ((0, Some rel), (s1, mkListRegistry (lr_modules r ++ [mkModule KERNEL_MODNAME lo hi])
                                                        (ps_next_fd s :: lr_fds r) (lr_images r))) /\
             In (ps_next_fd s) (ps_fds s1).
Proof.
  intros Hm Hn Himg F Hl Hle. destruct (report_kernel_elf w rel s r img Hm Hn Himg) as (s1 & Fd & _ & ->).
  exists s1. rewrite Fd. split; [|left; reflexivity].
  unfold lr_report_elf, lr_add. rewrite Hl, F, !Z.add_0_r. destruct (Z.ltb_spec hi lo); [lia | reflexivity].
Qed.

(** C25. When the image found is not an ELF file, [dwfl_report_elf]
    refuses it: [report_kernel] closes the image's descriptor and returns
    [-1]; the registry is unchanged and no descriptor is left open. *)
Theorem report_kernel_not_elf w rel s r img :
  w_nomem w = [] -> 0 <= ps_next_fd s -> fds_below s -> kernel_image_spec w rel = Some img ->
  lr_images r img = None ->
  exists s1, report_kernel w (Some rel) None (s, r) = Done ((-1, Some rel), (s1, r)) /\ ps_fds s1 = ps_fds s.
Proof.
  intros Hm Hn Hb Himg Hl. destruct (report_kernel_elf w rel s r img Hm Hn Himg) as (s1 & Fd & _ & ->).
  unfold lr_report_elf. rewrite Hl. eexists. split; [reflexivity|]. cbn [ps_fds].
  rewrite Fd. apply close_fresh, fds_below_fresh, Hb.
Qed.

(** ** Witnesses *)

(** A host whose image is found by the debuginfo search under its
    basename, with the given [/proc/kallsyms]. *)
Definition vmlinux_debug : string := "/usr/lib/debug/boot/vmlinux-2.6.23".

Definition kernel_finder : debuginfo_finder :=
  fun f link =>
    if streq f "/boot/vmlinux-2.6.23" && match link with Some l => streq l "vmlinux-2.6.23" | None => false end
    then inr vmlinux_debug else inl ENOENT.

Definition kernel_host (ksyms : fentry) : world :=
  mkWorld {[ KSYMSFILE := ksyms ]} ∅ (Some "2.6.23") EACCES 4096 None kernel_finder [].

(** The images of that host: the kernel image links at the bounds of
    the specification's [/proc/kallsyms]; no other file is ELF. *)
Definition kernel_images : elf_layout :=
  fun p => if streq p vmlinux_debug then Some (0xffffffff81000000, 0xffffffff81e00000) else None.

Definition kreg0 : list_registry := mkListRegistry [] [] kernel_images.
Definition kstate1 : pstate := mkPstate 0 [] 4 [KSYMSFILE] EmptyString.
Definition kernel_at_spec_bounds : list_registry :=
  mkListRegistry [mkModule KERNEL_MODNAME 0xffffffff81000000 0xffffffff81e00000] [] kernel_images.

Lemma kernel_release_caches_witness :
  kernel_release (kernel_host (FReg spec_kallsyms)) (mkPstate 0 [] 3 [] "2.6.23") =
    Done (Some "2.6.23", mkPstate 0 [] 3 [] "2.6.23").
Proof.
  apply (kernel_release_caches (kernel_host (FReg spec_kallsyms)) pstate0 "2.6.23"); [reflexivity | discriminate].
Defined.

Lemma report_kernel_kernel_idem_witness :
  dwfl_linux_kernel_report_kernel (kernel_host (FReg spec_kallsyms)) (kstate1, kernel_at_spec_bounds) =
    Done (0, (kstate1, kernel_at_spec_bounds)).
Proof.
  apply (report_kernel_kernel_idem (kernel_host (FReg spec_kallsyms)) pstate0 kreg0);
    [discriminate | vm_compute; reflexivity].
Defined.

(** [/proc/kallsyms] as a reader without privilege sees it. *)
Definition kptr_kallsyms : string :=
  ksym_text [(0, "T startup_64"); (0, "D _end"); (0, "b nfsd_x [nfsd]")] EmptyString.

Lemma report_kernel_kernel_uninit_witness :
  exists why, dwfl_linux_kernel_report_kernel (kernel_host (FReg kptr_kallsyms)) (pstate0, kreg0) = Undefined why.
Proof. apply (report_kernel_kernel_uninit _ _ _ kstate1); vm_compute; reflexivity. Defined.

Lemma report_kernel_kernel_error_witness :
  dwfl_linux_kernel_report_kernel (kernel_host (FErr EACCES)) (pstate0, kreg0) =
    Done (EACCES, (mkPstate EACCES [] 3 [KSYMSFILE] EmptyString, kreg0)).
Proof. apply report_kernel_kernel_error; try reflexivity; discriminate. Defined.

Lemma report_kernel_kernel_bounds_witness :
  dwfl_linux_kernel_report_kernel (kernel_host (FReg spec_kallsyms)) (pstate0, kreg0) =
    match reg_report_module KERNEL_MODNAME 0xffffffff81000000 0xffffffff81e00000 kreg0 with
    | Some r' => Done (0, (kstate1, r'))
    | None => Done (-1, (kstate1, kreg0))
    end.
Proof. apply report_kernel_kernel_bounds; vm_compute; reflexivity. Defined.

Lemma report_kernel_declined_leaks_witness :
  exists s', report_kernel (kernel_host (FReg spec_kallsyms)) (Some "2.6.23") (Some (fun _ _ => (0, None)))
               (pstate0, kreg0) = Done ((0, Some "2.6.23"), (s', kreg0)) /\
             In (ps_next_fd pstate0) (ps_fds s') /\ ~ In (ps_next_fd pstate0) (ps_fds pstate0).
Proof.
  apply (report_kernel_declined_leaks _ _ _ _ _ vmlinux_debug); try reflexivity;
    [constructor | unfold pstate0; simpl; lia].
Defined.

Lemma report_kernel_stale_errno_witness :
  exists s1, find_kernel_elf (kernel_host (FReg spec_kallsyms)) "2.6.23" pstate0 =
               Done ((ps_next_fd pstate0, NameSet vmlinux_debug), s1) /\
             report_kernel (kernel_host (FReg spec_kallsyms)) (Some "2.6.23") (Some (fun _ _ => (-1, None)))
               (pstate0, kreg0) = Done ((ps_errno s1, Some "2.6.23"), (s1, kreg0)).
Proof.
  apply report_kernel_stale_errno; try reflexivity. unfold pstate0; simpl; lia.
Defined.

(** With that predicate the result is [0]: success, nothing reported. *)
Lemma stale_errno_is_success :
  report_kernel (kernel_host (FReg spec_kallsyms)) (Some "2.6.23") (Some (fun _ _ => (-1, None)))
    (pstate0, kreg0) =
  Done ((0, Some "2.6.23"), (mkPstate 0 [3] 4 [vmlinux_debug] EmptyString, kreg0)).
Proof. vm_compute. reflexivity. Qed.

(** The host of the witnesses with no memory for [/boot/vmlinux-2.6.23]. *)
Definition kernel_host_nomem : world :=
  mkWorld {[ KSYMSFILE := FReg spec_kallsyms ]} ∅ (Some "2.6.23") EACCES 4096 None kernel_finder
          [AAsprintf "/boot/vmlinux-2.6.23"].

Lemma report_kernel_nomem_undefined_witness :
  exists why, report_kernel kernel_host_nomem (Some "2.6.23") None (pstate0, kreg0) = Undefined why.
Proof. apply report_kernel_nomem_undefined; reflexivity. Defined.

(** The image [/usr/lib/debug/boot/vmlinux-2.6.23] is reported over the
    range its headers give, as descriptor 3. *)
Lemma report_kernel_image_range_witness :
  exists s1, report_kernel (kernel_host (FReg spec_kallsyms)) (Some "2.6.23") None (pstate0, kreg0) =
               Done ((0, Some "2.6.23"),
                     (s1, mkListRegistry [mkModule KERNEL_MODNAME 0xffffffff81000000 0xffffffff81e00000]
                                         [ps_next_fd pstate0] kernel_images)) /\
             In (ps_next_fd pstate0) (ps_fds s1).
Proof.
  apply (report_kernel_image_range _ _ _ kreg0 vmlinux_debug 0xffffffff81000000 0xffffffff81e00000);
    try reflexivity; unfold pstate0; simpl; lia.
Defined.

(** The same host when the file found is not an ELF image. *)
Lemma report_kernel_not_elf_witness :
  exists s1, report_kernel (kernel_host (FReg spec_kallsyms)) (Some "2.6.23") None
               (pstate0, mkListRegistry [] [] no_images) =
             Done ((-1, Some "2.6.23"), (s1, mkListRegistry [] [] no_images)) /\ ps_fds s1 = ps_fds pstate0.
Proof.
  apply (report_kernel_not_elf _ _ _ _ vmlinux_debug); try reflexivity; [unfold pstate0; simpl; lia | constructor].
Defined.
