(* ===== verification/Offline.v ===== *)
(** * Offline modules: [dwfl_linux_kernel_report_offline]

    The function (C lines 198-294) first reports the kernel with
    [report_kernel], which also fixes the release. It then walks
    [/lib/modules/RELEASE] (or the release itself when it is a directory)
    with [fts] and, for every regular file whose name ends in [.ko],
    derives the module name ([ko_modname]), asks the predicate, and
    reports the file with [dwfl_report_offline]. The walk stops at the
    first [FTS_ERR], [FTS_DNR] or [FTS_NS] entry with that entry's
    [errno], at a predicate that fails, or at a refused report.

    [offline_loop] is the [while] loop on the entries [fts_read] returns
    (the [break]s out of the [switch] all end the loop);
    [dwfl_linux_kernel_report_offline] is the whole function. The
    contract [ko_files] lists the [.ko] files of a tree in the order of
    the walk. [alloc_modules_dir] is the [asprintf] of the directory;
    it and [fts_open] may fail for want of memory, and the function then
    returns [errno] with the kernel already reported. For a [NULL] [dwfl]
    [report_kernel]'s test makes the function return [-1]. *)

From Stdlib Require Import ZArith Lia String Ascii List Bool.
From stdpp Require Import base list strings gmap.
From S2P Require Import Prelude CNum Os Fts ModName Registry Kallsyms Kernel.

Local Open Scope Z_scope.

(** [modulesdir[0]]: the release itself when it is a directory, else
    [/lib/modules/RELEASE]. *)
Definition modules_dir (release : string) : string :=
  if starts_with "/" release then release else MODULEDIRFMT release.

(** The same, as the code builds it: [asprintf] only for a release that
    is not a directory; [NULL] when it fails. *)
Definition alloc_modules_dir (w : world) (release : string) : M pstate (option string) :=
  if starts_with "/" release then ret (Some release) else sys_asprintf w (MODULEDIRFMT release).

Lemma alloc_modules_dir_ok w release s :
  w_nomem w = [] -> alloc_modules_dir w release s = Done (Some (modules_dir release), s).
Proof.
  intros Hm. unfold alloc_modules_dir, modules_dir.
  destruct (starts_with "/" release); [reflexivity | apply sys_asprintf_ok; auto with kmod].
Qed.

Section WithRegistry.
Context {R : Type} `{Registry R}.

(** [dwfl_report_offline (dwfl, name, f->fts_path, -1)]. *)
Definition report_offline (name path : string) : M (pstate * R) bool :=
  let* r := get_reg in
  match reg_report_offline name path (-1) r with
  | Some r' => put_reg r';; ret true
  | None => ret false
  end.

Fixpoint offline_loop (pred : option predicate) (es : list ftsent) : M (pstate * R) Z :=
  match es with
  | [] => ret 0
  | f :: es' =>
      if fts_is_file (fts_info_of f) then
        if is_ko (fts_name f) then
          let name := ko_modname (fts_name f) in
          let* want := match pred with
                       | Some p => lift_fst (call_predicate p name (Some (fts_path f)))
                       | None => ret 1
                       end in
          if want <? 0 then ret (-1)
          else if want =? 0 then offline_loop pred es'
          else let* ok := report_offline name (fts_path f) in
               if ok then offline_loop pred es' else ret (-1)
        else offline_loop pred es'
      else if fts_is_error (fts_info_of f) then ret (fts_errno f)
      else offline_loop pred es'
  end.

Definition dwfl_linux_kernel_report_offline (w : world) (release : option string)
    (pred : option predicate) : M (pstate * R) Z :=
  let* '(result, rel) := report_kernel w release pred in
  if result =? 0 then
    match rel with
    | None => fun _ => Undefined "release[0] read through a NULL release"
    | Some release' =>
        let* dir := lift_fst (alloc_modules_dir w release') in
        match dir with
        | None => lift_fst get_errno
        | Some d =>
            let* fts := lift_fst (sys_fts_open w d) in
            match fts with
            | None => lift_fst get_errno
            | Some es => offline_loop pred es
            end
        end
    end
  else ret result.

(** ** The contract *)

(** Each module file reported in order, stopping at the first refusal. *)
Fixpoint report_offline_all (fs : list (string * string)) (r : R) : Z * R :=
  match fs with
  | [] => (0, r)
  | (name, path) :: fs' =>
      match reg_report_offline name path (-1) r with
      | Some r' => report_offline_all fs' r'
      | None => (-1, r)
      end
  end.

End WithRegistry.

(** The module files among entries, with their module names and paths. *)
Definition entry_ko (f : ftsent) : list (string * string) :=
  if fts_is_file (fts_info_of f) && is_ko (fts_name f)
  then [(ko_modname (fts_name f), fts_path f)] else [].

(** The module files of a tree, in the order [fts] returns them. *)
Fixpoint ko_files (dir : string) (n : fnode) : list (string * string) :=
  match n with
  | NFile name => if is_ko name then [(ko_modname name, fts_join dir name)] else []
  | NDir name ch =>
      (fix go (l : list fnode) : list (string * string) :=
         match l with [] => [] | c :: cs => ko_files (fts_join dir name) c ++ go cs end) ch
  | _ => []
  end.

(** A tree [fts] reads without error. *)
Fixpoint tree_ok (n : fnode) : bool :=
  match n with
  | NDir _ ch => forallb tree_ok ch
  | NUnreadable _ _ | NNoStat _ _ => false
  | _ => true
  end.

(** An entry that does not stop the walk. *)
Definition entry_ok (f : ftsent) : bool := negb (fts_is_error (fts_info_of f)).

(** ** The walk of a tree *)

Lemma ko_files_dir dir name ch :
  ko_files dir (NDir name ch) = flat_map (ko_files (fts_join dir name)) ch.
Proof. reflexivity. Qed.

Lemma fts_node_ko dir n : flat_map entry_ko (fts_node dir n) = ko_files dir n.
Proof.
  revert dir. induction n as [name|name ch IH|name e|name e|name] using fnode_ind'; intros dir;
    try reflexivity.
  - cbn. unfold entry_ko. cbn [fts_info_of fts_is_file fts_name fts_path andb].
    destruct (is_ko name); reflexivity.
  - rewrite fts_node_dir, ko_files_dir. cbn [flat_map]. rewrite flat_map_app. cbn [flat_map].
    change (entry_ko (mkFtsent FTS_D name (fts_join dir name) 0)) with (@nil (string * string)).
    change (entry_ko (mkFtsent FTS_DP name (fts_join dir name) 0)) with (@nil (string * string)).
    rewrite app_nil_l, !app_nil_r. unfold fts_children.
    induction IH as [|c cs Hc _ IHcs]; [reflexivity|]. cbn [flat_map].
    rewrite flat_map_app, Hc, IHcs. reflexivity.
Qed.

Lemma fts_node_ok dir n : tree_ok n = true -> forallb entry_ok (fts_node dir n) = true.
Proof.
  revert dir. induction n as [name|name ch IH|name e|name e|name] using fnode_ind'; intros dir Hn;
    try reflexivity; try discriminate.
  rewrite fts_node_dir. cbn [forallb]. rewrite forallb_app. cbn [forallb].
  change (entry_ok (mkFtsent FTS_D name (fts_join dir name) 0)) with true.
  change (entry_ok (mkFtsent FTS_DP name (fts_join dir name) 0)) with true.
  rewrite !andb_true_r. cbn [andb].
  unfold fts_children. cbn in Hn. induction IH as [|c cs Hc _ IHcs]; [reflexivity|].
  cbn [flat_map forallb] in *. apply andb_true_iff in Hn as [H1 H2].
  rewrite forallb_app, Hc, IHcs by assumption. reflexivity.
Qed.

Section Loop.
Context {R : Type} `{Registry R}.

Lemma offline_loop_app es1 es2 s (r : R) :
  forallb entry_ok es1 = true ->
  offline_loop None (es1 ++ es2) (s, r) =
    let '(res, r') := report_offline_all (flat_map entry_ko es1) r in
    if res =? 0 then offline_loop None es2 (s, r') else Done (res, (s, r')).
Proof.
  revert r. induction es1 as [|f es1 IH]; intros r Hok; [reflexivity|].
  cbn [forallb] in Hok. apply andb_true_iff in Hok as [Hf Hok].
  unfold entry_ok in Hf. cbn [app offline_loop flat_map]. unfold entry_ko at 1.
  destruct (fts_is_file (fts_info_of f)); cbn [andb].
  - destruct (is_ko (fts_name f)); cbn [app].
    + rewrite bind_ret_l. cbv beta. change (1 <? 0) with false. change (1 =? 0) with false. cbv iota.
      unfold report_offline. rewrite bind_unfold, bind_unfold. cbn [get_reg]. cbn [report_offline_all].
      destruct (reg_report_offline (ko_modname (fts_name f)) (fts_path f) (-1) r) as [r'|].
      * cbn. apply IH, Hok.
      * reflexivity.
    + apply IH, Hok.
  - destruct (fts_is_error (fts_info_of f)); [discriminate|]. apply IH, Hok.
Qed.

Lemma report_offline_all_app fs1 fs2 (r : R) :
  report_offline_all (fs1 ++ fs2) r =
    let '(res, r') := report_offline_all fs1 r in
    if res =? 0 then report_offline_all fs2 r' else (res, r').
Proof.
  revert r. induction fs1 as [|[n p] fs1 IH]; intros r; [reflexivity|]. cbn.
  destruct (reg_report_offline n p (-1) r); [apply IH | reflexivity].
Qed.

Lemma report_offline_all_result fs (r : R) :
  fst (report_offline_all fs r) = 0 \/ fst (report_offline_all fs r) = -1.
Proof.
  revert r. induction fs as [|[n p] fs IH]; intros r; cbn; [auto|].
  destruct (reg_report_offline n p (-1) r); [apply IH | auto].
Qed.

End Loop.

Lemma fts_children_ko dir ch : flat_map entry_ko (fts_children dir ch) = flat_map (ko_files dir) ch.
Proof.
  unfold fts_children. induction ch as [|c cs IH]; [reflexivity|].
  cbn [flat_map]. rewrite flat_map_app, fts_node_ko, IH. reflexivity.
Qed.

Lemma fts_children_ok dir ch : forallb tree_ok ch = true -> forallb entry_ok (fts_children dir ch) = true.
Proof.
  unfold fts_children. induction ch as [|c cs IH]; [reflexivity|].
  cbn [flat_map forallb]. intros Hc. apply andb_true_iff in Hc as [H1 H2].
  rewrite forallb_app, fts_node_ok, IH by assumption. reflexivity.
Qed.

(** ** Properties *)

Section Claims.
Context {R : Type} `{Registry R}.

(** C3. Refinement: once the kernel is reported, on a module tree that
    [fts] reads without error and with no predicate, the function reports
    every [.ko] file of the tree, in the order of the walk, under its
    derived module name, stops at the first refused report with [-1], and
    returns [0] when all are accepted. *)
Theorem report_offline_refines w rel s (r : R) s1 r1 ch :
  w_nomem w = [] ->
  report_kernel w (Some rel) None (s, r) = Done ((0, Some rel), (s1, r1)) ->
  w_trees w !! modules_dir rel = Some ch -> forallb tree_ok ch = true ->
  dwfl_linux_kernel_report_offline w (Some rel) None (s, r) =
    Done (fst (report_offline_all (flat_map (ko_files (modules_dir rel)) ch) r1),
          (mkPstate (ps_errno s1) (ps_fds s1) (ps_next_fd s1) (ps_log s1 ++ [modules_dir rel])
                    (ps_uts_release s1),
           snd (report_offline_all (flat_map (ko_files (modules_dir rel)) ch) r1))).
Proof.
  intros Hm Hk Ht Hok. unfold dwfl_linux_kernel_report_offline. rewrite bind_unfold, Hk. cbv beta iota.
  change (0 =? 0) with true. cbv iota.
  rewrite bind_unfold, lift_fst_unfold, alloc_modules_dir_ok by exact Hm. cbv beta iota.
  rewrite bind_unfold, lift_fst_unfold, sys_fts_open_run, (fts_walk_root w _ ch Ht) by auto with kmod.
  cbv beta iota.
  cbn [offline_loop fts_info_of fts_is_file fts_is_error].
  rewrite (offline_loop_app _ _ _ r1 (fts_children_ok _ _ Hok)), fts_children_ko.
  destruct (report_offline_all_result (flat_map (ko_files (modules_dir rel)) ch) r1) as [E|E];
    destruct (report_offline_all _ r1) as [res r']; cbn in E; subst res; reflexivity.
Qed.

(** C35. The walk stops at the first entry [fts] reports as an error
    ([FTS_ERR], [FTS_DNR], [FTS_NS]) and returns that entry's [errno];
    the module files read before it stay reported. *)
Theorem offline_loop_error es1 e es2 s (r : R) :
  forallb entry_ok es1 = true -> fts_is_error (fts_info_of e) = true ->
  fst (report_offline_all (flat_map entry_ko es1) r) = 0 ->
  offline_loop None (es1 ++ e :: es2) (s, r) =
    Done (fts_errno e, (s, snd (report_offline_all (flat_map entry_ko es1) r))).
Proof.
  intros Hok He Hres. rewrite (offline_loop_app _ _ _ r Hok).
  destruct (report_offline_all _ r) as [res r']. cbn in Hres. subst res. cbn [Z.eqb offline_loop].
  destruct (fts_is_file (fts_info_of e)) eqn:Hf; [|rewrite He; reflexivity].
  destruct (fts_info_of e); discriminate.
Qed.

(** A predicate that fails ([want < 0]) on a module file ends the
    walk with [-1], whatever [errno] it set: unlike [report_kernel], the
    cause is not returned. *)
Theorem offline_loop_pred_fails p f es s (r : R) want e :
  fts_is_file (fts_info_of f) = true -> is_ko (fts_name f) = true ->
  p (ko_modname (fts_name f)) (Some (fts_path f)) = (want, e) -> want < 0 ->
  exists s', offline_loop (Some p) (f :: es) (s, r) = Done (-1, (s', r)).
Proof.
  intros Hf Hk Hp Hw. cbn [offline_loop]. rewrite Hf, Hk. rewrite bind_unfold, lift_fst_unfold.
  unfold call_predicate. rewrite Hp.
  destruct e; cbn; destruct (Z.ltb_spec want 0); try lia; eexists; reflexivity.
Qed.

(** C36. When the module directory's name cannot be allocated, or
    [fts_open] cannot allocate its handle, the function returns [errno],
    [ENOMEM], after [report_kernel] succeeded: the kernel stays reported
    though the call fails, and no module is reported. *)
Theorem report_offline_nomem w rel pred s (r : R) s1 r1 :
  report_kernel w (Some rel) pred (s, r) = Done ((0, Some rel), (s1, r1)) ->
  (starts_with "/" rel = false /\ alloc_fails w (AAsprintf (MODULEDIRFMT rel)) = true) \/
  alloc_fails w (AFtsOpen (modules_dir rel)) = true ->
  exists s', dwfl_linux_kernel_report_offline w (Some rel) pred (s, r) = Done (ENOMEM, (s', r1)).
Proof.
  intros Hk Ha. unfold dwfl_linux_kernel_report_offline. rewrite bind_unfold, Hk. cbv beta iota.
  change (0 =? 0) with true. cbv iota. rewrite bind_unfold, lift_fst_unfold.
  destruct (alloc_modules_dir w rel s1) as [[d s2]|why] eqn:E.
  - unfold alloc_modules_dir, modules_dir, sys_asprintf in *.
    destruct (starts_with "/" rel) eqn:Hd.
    + injection E as <- <-. destruct Ha as [[? _]|A]; [discriminate|].
      rewrite bind_unfold, lift_fst_unfold, sys_fts_open_fail by exact A. eexists. reflexivity.
    + destruct (alloc_fails w (AAsprintf (MODULEDIRFMT rel))) eqn:A1; injection E as <- <-;
        [eexists; reflexivity|].
      destruct Ha as [[_ A]|A]; [congruence|].
      rewrite bind_unfold, lift_fst_unfold, sys_fts_open_fail by exact A. eexists. reflexivity.
  - unfold alloc_modules_dir, sys_asprintf in E. destruct (starts_with "/" rel);
      [discriminate | destruct (alloc_fails _ _); discriminate].
Qed.

(** C37. A [NULL] [Dwfl]: [report_kernel] tests it and returns [-1], so
    [dwfl_linux_kernel_report_offline] returns [-1] having done nothing
    (no [uname], no file opened); [dwfl_linux_kernel_report_kernel]
    tests nothing and reads [dwfl->modulelist] through the [NULL]
    pointer. *)
Theorem report_offline_null_dwfl w rel pred s (r : R) :
  reg_null r = true ->
  dwfl_linux_kernel_report_offline w rel pred (s, r) = Done (-1, (s, r)) /\
  exists why, dwfl_linux_kernel_report_kernel w (s, r) = Undefined why.
Proof.
  intros Hn. split.
  - unfold dwfl_linux_kernel_report_offline. rewrite bind_unfold, report_kernel_null by exact Hn. reflexivity.
  - unfold dwfl_linux_kernel_report_kernel. rewrite bind_unfold. cbn [get_reg]. rewrite Hn. eexists. reflexivity.
Qed.

End Claims.

(** ** Witnesses *)

(** The specification's tree: [kernel/drivers/i2c/i2c-core.ko] under the
    module root, beside files that are not modules. *)
Definition spec_tree : list fnode :=
  [NDir "kernel" [NDir "drivers" [NDir "i2c" [NFile "i2c-core.ko"; NFile "Makefile"]]];
   NFile "modules.dep"].

Definition offline_host : world :=
  mkWorld {[ KSYMSFILE := FReg spec_kallsyms ]} {[ "/lib/modules/2.6.23" := spec_tree ]}
          (Some "2.6.23") EACCES 4096 None kernel_finder [].

Definition offline_state1 : pstate := mkPstate 0 [3] 4 [vmlinux_debug] EmptyString.
(** The module's image: a relocatable object spanning [0x3000] bytes. *)
Definition i2c_path : string := "/lib/modules/2.6.23/kernel/drivers/i2c/i2c-core.ko".

Definition offline_images : elf_layout :=
  fun p => if streq p i2c_path then Some (0, 0x3000) else kernel_images p.

Definition offline_reg0 : list_registry := mkListRegistry [] [] offline_images.
Definition offline_reg1 : list_registry :=
  mkListRegistry [mkModule KERNEL_MODNAME 0xffffffff81000000 0xffffffff81e00000] [3] offline_images.

Lemma report_offline_refines_witness :
  dwfl_linux_kernel_report_offline offline_host (Some "2.6.23") None (pstate0, offline_reg0) =
    Done (fst (report_offline_all (flat_map (ko_files (modules_dir "2.6.23")) spec_tree) offline_reg1),
          (mkPstate 0 [3] 4 [vmlinux_debug; modules_dir "2.6.23"] EmptyString,
           snd (report_offline_all (flat_map (ko_files (modules_dir "2.6.23")) spec_tree) offline_reg1))).
Proof.
  apply (report_offline_refines _ _ _ _ offline_state1 offline_reg1); vm_compute; reflexivity.
Defined.

(** The module reported is [i2c_core], from that file. *)
Lemma spec_tree_modules :
  flat_map (ko_files (modules_dir "2.6.23")) spec_tree =
    [("i2c_core", "/lib/modules/2.6.23/kernel/drivers/i2c/i2c-core.ko")]%string.
Proof. vm_compute. reflexivity. Qed.

(** The scenario of the specification end to end: [kernel] from its
    image, then [i2c_core] from [i2c-core.ko] over the object's range. *)
Lemma report_offline_spec_scenario :
  dwfl_linux_kernel_report_offline offline_host (Some "2.6.23") None (pstate0, offline_reg0) =
    Done (0, (mkPstate 0 [3] 4 [vmlinux_debug; modules_dir "2.6.23"] EmptyString,
              mkListRegistry [mkModule KERNEL_MODNAME 0xffffffff81000000 0xffffffff81e00000;
                              mkModule "i2c_core" 0 0x3000] [3] offline_images)).
Proof. vm_compute. reflexivity. Qed.

Definition i2c_entry : ftsent :=
  mkFtsent FTS_F "i2c-core.ko" i2c_path 0.
Definition unreadable_entry : ftsent := mkFtsent FTS_DNR "extra" "/lib/modules/2.6.23/extra" EACCES.

Lemma offline_loop_error_witness :
  offline_loop None ([i2c_entry] ++ unreadable_entry :: [i2c_entry]) (pstate0, offline_reg0) =
    Done (fts_errno unreadable_entry,
          (pstate0, snd (report_offline_all (flat_map entry_ko [i2c_entry]) offline_reg0))).
Proof. apply offline_loop_error; reflexivity. Defined.

Lemma offline_loop_pred_fails_witness :
  exists s', offline_loop (Some (fun _ _ => (-1, Some EACCES))) [i2c_entry] (pstate0, offline_reg0) =
             Done (-1, (s', offline_reg0)).
Proof. apply (offline_loop_pred_fails _ _ _ _ _ (-1) (Some EACCES)); try reflexivity; lia. Defined.

(** The same host with no memory for [/lib/modules/2.6.23]. *)
Definition offline_host_nomem : world :=
  mkWorld {[ KSYMSFILE := FReg spec_kallsyms ]} {[ "/lib/modules/2.6.23" := spec_tree ]}
          (Some "2.6.23") EACCES 4096 None kernel_finder [AAsprintf "/lib/modules/2.6.23"].

Lemma report_offline_nomem_witness :
  exists s', dwfl_linux_kernel_report_offline offline_host_nomem (Some "2.6.23") None (pstate0, offline_reg0) =
             Done (ENOMEM, (s', offline_reg1)).
Proof.
  apply (report_offline_nomem _ _ _ _ _ offline_state1); [vm_compute; reflexivity | left; split; reflexivity].
Defined.

(** A [NULL] [Dwfl *]. *)
Lemma report_offline_null_dwfl_witness :
  @dwfl_linux_kernel_report_offline unit NullDwfl (kernel_host (FReg spec_kallsyms)) None None (pstate0, tt) =
    Done (-1, (pstate0, tt)) /\
  exists why, @dwfl_linux_kernel_report_kernel unit NullDwfl (kernel_host (FReg spec_kallsyms)) (pstate0, tt) =
              Undefined why.
Proof. apply (@report_offline_null_dwfl unit NullDwfl). reflexivity. Defined.
