(* ===== verification/FindElf.v ===== *)
(** * Finding a module's file: [dwfl_linux_kernel_find_elf]

    The [find_elf] callback (C lines 385-493) takes the running release
    ([kernel_release]); for module [kernel] it is [find_kernel_elf].
    Otherwise it walks [/lib/modules/RELEASE] with [fts] looking for a
    regular file named [MODULE_NAME.ko] or [ALTERNATE_NAME.ko]
    ([ko_match], [alternate_name]); at the first one it opens the file,
    stores a copy of its path in [*file_name], closes the walk and returns
    the descriptor. When the walk ends without a match it sets [errno] to
    [error] and returns [-1]; [error] is reset to [ENOENT] at every entry
    and set to the entry's [errno] for [FTS_ERR], [FTS_DNR] and [FTS_NS].

    [out_name] ([Kernel]) is what the caller finds in [*file_name]. The
    failures of [asprintf], [fts_open] and [strdup] are modelled
    ([open_match] closes the descriptor when the copy fails).
    [fe_step] is the same loop as a transition system, one [fts_read]
    per step; [find_elf_loop_returns] shows every run reaches the
    function's [return], with the result [find_elf_loop] computes. *)

From Stdlib Require Import ZArith Lia String Ascii List Bool.
From stdpp Require Import base list strings gmap.
From S2P Require Import Prelude Evolves CNum Os Fts ModName Kallsyms Kernel.

Local Open Scope Z_scope.

(** The matched file (C lines 463-474): [open64], [strdup] of its path,
    then [free] of [*file_name] when the open failed, or [close] when the
    copy failed. *)
Definition open_match (w : world) (path : string) : M pstate (Z * out_name) :=
  let* fd := sys_open64 w path in
  let* dup := sys_strdup w path in
  match dup with
  | Some p => if fd <? 0 then ret (fd, NameFreed p) else ret (fd, NameSet p)
  | None => if fd <? 0 then ret (fd, NameNull) else sys_close fd;; ret (-1, NameNull)
  end.

(** The [while (fts_read)] loop; [error] is its value after the last
    entry read. *)
Fixpoint find_elf_loop (w : world) (module_name alt : string) (es : list ftsent) (error : Z)
  : M pstate (Z * out_name) :=
  match es with
  | [] => set_errno error;; ret (-1, NameUnset)
  | f :: es' =>
      if fts_is_file (fts_info_of f) then
        if ko_match module_name alt (fts_name f) then open_match w (fts_path f)
        else find_elf_loop w module_name alt es' ENOENT
      else if fts_is_error (fts_info_of f) then find_elf_loop w module_name alt es' (fts_errno f)
      else find_elf_loop w module_name alt es' ENOENT
  end.

Definition dwfl_linux_kernel_find_elf (w : world) (module_name : string) : M pstate (Z * out_name) :=
  let* rel := kernel_release w in
  match rel with
  | None => let* e := get_errno in ret (e, NameUnset)
  | Some release =>
      if streq module_name KERNEL_MODNAME then find_kernel_elf w release
      else
        let* a := sys_asprintf w (MODULEDIRFMT release) in
        match a with
        | None => ret (-1, NameUnset)
        | Some dir =>
            let* fts := sys_fts_open w dir in
            match fts with
            | None => ret (-1, NameUnset)
            | Some es =>
                match alternate_name module_name with
                | Some alt => find_elf_loop w module_name alt es ENOENT
                | None => ret (-1, NameUnset)
                end
            end
        end
  end.

(** ** The contract *)

(** The first entry of the walk that is a matching regular file. *)
Fixpoint first_match (module_name alt : string) (es : list ftsent) : option ftsent :=
  match es with
  | [] => None
  | f :: es' =>
      if fts_is_file (fts_info_of f) && ko_match module_name alt (fts_name f) then Some f
      else first_match module_name alt es'
  end.

(** The [error] the loop leaves after an entry. *)
Definition entry_error (f : ftsent) : Z :=
  if fts_is_error (fts_info_of f) then fts_errno f else ENOENT.

(** What [open64] of the matched file gives. *)
Definition open_result (w : world) (s : pstate) (path : string) : exec ((Z * out_name) * pstate) :=
  match file_lookup w path with
  | inr _ => Done ((ps_next_fd s, NameSet path),
                   mkPstate (ps_errno s) (ps_next_fd s :: ps_fds s) (ps_next_fd s + 1)
                            (ps_log s ++ [path]) (ps_uts_release s))
  | inl e => Done ((-1, NameFreed path),
                   mkPstate e (ps_fds s) (ps_next_fd s) (ps_log s ++ [path]) (ps_uts_release s))
  end.

(** The loop opens the first matching file, and only it; without a match
    it leaves in [errno] the [error] of the last entry. *)
(** The loop stops at the first matching file, whatever happens there;
    without one it leaves in [errno] the [error] of the last entry. *)
Lemma find_elf_loop_first w m alt es err s :
  find_elf_loop w m alt es err s =
    match first_match m alt es with
    | Some f => open_match w (fts_path f) s
    | None => Done ((-1, NameUnset),
                    mkPstate (fold_left (fun _ f => entry_error f) es err) (ps_fds s) (ps_next_fd s)
                             (ps_log s) (ps_uts_release s))
    end.
Proof.
  revert err. induction es as [|f es IH]; intros err; [reflexivity|].
  cbn [find_elf_loop first_match fold_left]. unfold entry_error at 2.
  destruct (fts_is_file (fts_info_of f)) eqn:Hf; cbn [andb].
  - destruct (ko_match m alt (fts_name f)); [reflexivity|].
    rewrite IH. destruct (fts_info_of f); try discriminate; reflexivity.
  - destruct (fts_is_error (fts_info_of f)); apply IH.
Qed.

(** Without memory exhaustion the matched file is opened as
    [open_result] says. *)
Lemma open_match_ok w path s :
  w_nomem w = [] -> 0 <= ps_next_fd s -> open_match w path s = open_result w s path.
Proof.
  intros Hm Hn. unfold open_match, sys_open64, open_result, sys_strdup.
  rewrite (alloc_fails_none w _ Hm), bind_unfold. unfold log_path, modify at 1. cbn [bind].
  destruct (file_lookup w path); cbn; [reflexivity|].
  destruct (Z.ltb_spec (ps_next_fd s) 0); [lia | reflexivity].
Qed.

(** The loop opens the first matching file, and only it. *)
Lemma find_elf_loop_spec w m alt es err s :
  w_nomem w = [] -> 0 <= ps_next_fd s ->
  find_elf_loop w m alt es err s =
    match first_match m alt es with
    | Some f => open_result w s (fts_path f)
    | None => Done ((-1, NameUnset),
                    mkPstate (fold_left (fun _ f => entry_error f) es err) (ps_fds s) (ps_next_fd s)
                             (ps_log s) (ps_uts_release s))
    end.
Proof.
  intros Hm Hn. rewrite find_elf_loop_first.
  destruct (first_match m alt es); [apply open_match_ok; assumption | reflexivity].
Qed.

(** [kernel_release] with the release already cached. *)
Lemma find_elf_cached w m s :
  ps_uts_release s <> EmptyString ->
  dwfl_linux_kernel_find_elf w m s =
    (if streq m KERNEL_MODNAME then find_kernel_elf w (ps_uts_release s)
     else
       let* a := sys_asprintf w (MODULEDIRFMT (ps_uts_release s)) in
       match a with
       | None => ret (-1, NameUnset)
       | Some dir =>
           let* fts := sys_fts_open w dir in
           match fts with
           | None => ret (-1, NameUnset)
           | Some es =>
               match alternate_name m with
               | Some alt => find_elf_loop w m alt es ENOENT
               | None => ret (-1, NameUnset)
               end
           end
       end) s.
Proof. intros Hr. unfold dwfl_linux_kernel_find_elf. rewrite bind_unfold, kernel_release_cached by exact Hr. reflexivity. Qed.

(** For a module other than [kernel], without memory exhaustion:
    the loop on the walk of [/lib/modules/RELEASE]. *)
Lemma find_elf_walk_alloc w m s :
  alloc_fails w (AAsprintf (MODULEDIRFMT (ps_uts_release s))) = false ->
  alloc_fails w (AFtsOpen (MODULEDIRFMT (ps_uts_release s))) = false ->
  ps_uts_release s <> EmptyString -> streq m KERNEL_MODNAME = false ->
  dwfl_linux_kernel_find_elf w m s =
    find_elf_loop w m (alt_ref m) (fts_walk w (MODULEDIRFMT (ps_uts_release s))) ENOENT
      (mkPstate (ps_errno s) (ps_fds s) (ps_next_fd s) (ps_log s ++ [MODULEDIRFMT (ps_uts_release s)])
                (ps_uts_release s)).
Proof.
  intros A1 A2 Hr Hk. rewrite find_elf_cached by exact Hr. rewrite Hk.
  rewrite bind_unfold, sys_asprintf_ok by exact A1. cbv beta iota.
  rewrite bind_unfold, sys_fts_open_run by exact A2. cbv beta iota.
  rewrite alternate_name_eq. reflexivity.
Qed.

Lemma find_elf_walk w m s :
  w_nomem w = [] -> ps_uts_release s <> EmptyString -> streq m KERNEL_MODNAME = false ->
  dwfl_linux_kernel_find_elf w m s =
    find_elf_loop w m (alt_ref m) (fts_walk w (MODULEDIRFMT (ps_uts_release s))) ENOENT
      (mkPstate (ps_errno s) (ps_fds s) (ps_next_fd s) (ps_log s ++ [MODULEDIRFMT (ps_uts_release s)])
                (ps_uts_release s)).
Proof. intros Hm. apply find_elf_walk_alloc; auto with kmod. Qed.

Lemma walk_error_last w root ch err :
  w_trees w !! root = Some ch -> fold_left (fun _ f => entry_error f) (fts_walk w root) err = ENOENT.
Proof.
  intros Ht. rewrite (fts_walk_root w root ch Ht). change (mkFtsent FTS_D root root 0 :: fts_children root ch ++
    [mkFtsent FTS_DP root root 0]) with ((mkFtsent FTS_D root root 0 :: fts_children root ch) ++
    [mkFtsent FTS_DP root root 0]).
  rewrite fold_left_app. reflexivity.
Qed.

(** ** Properties *)

(** C4. Refinement: with the release known, for a module other than
    [kernel], [find_elf] walks [/lib/modules/RELEASE] and opens the first
    regular file of the walk named [NAME.ko] or [ALT.ko], where [ALT] is
    the name [alternate_name] computes ([alt_ref NAME]: its loops always
    finish), returning its descriptor and path; without one it returns [-1] with [errno] the
    [error] of the last entry read. Nothing else is opened. *)
Theorem find_elf_refines w m s :
  w_nomem w = [] -> ps_uts_release s <> EmptyString -> streq m KERNEL_MODNAME = false ->
  0 <= ps_next_fd s ->
  let dir := MODULEDIRFMT (ps_uts_release s) in
  let s1 := mkPstate (ps_errno s) (ps_fds s) (ps_next_fd s) (ps_log s ++ [dir]) (ps_uts_release s) in
  dwfl_linux_kernel_find_elf w m s =
    match first_match m (alt_ref m) (fts_walk w dir) with
    | Some f => open_result w s1 (fts_path f)
    | None => Done ((-1, NameUnset),
                    mkPstate (fold_left (fun _ f => entry_error f) (fts_walk w dir) ENOENT)
                             (ps_fds s) (ps_next_fd s) (ps_log s ++ [dir]) (ps_uts_release s))
    end.
Proof.
  intros Hm Hr Hk Hn dir s1. rewrite (find_elf_walk w m s Hm Hr Hk). apply find_elf_loop_spec; assumption.
Qed.

(** C32. Errors of the walk are lost: when the module directory exists
    and holds no matching file, [find_elf] fails with [errno] [ENOENT]
    even when [fts] reported unreadable directories or failed [stat]s,
    because [error] is reset at every entry and the last entry is the
    directory's own post-order visit. *)
Theorem find_elf_errors_lost w m s ch :
  w_nomem w = [] -> ps_uts_release s <> EmptyString -> streq m KERNEL_MODNAME = false ->
  0 <= ps_next_fd s ->
  w_trees w !! MODULEDIRFMT (ps_uts_release s) = Some ch ->
  first_match m (alt_ref m) (fts_walk w (MODULEDIRFMT (ps_uts_release s))) = None ->
  exists s', dwfl_linux_kernel_find_elf w m s = Done ((-1, NameUnset), s') /\ ps_errno s' = ENOENT.
Proof.
  intros Hm Hr Hk Hn Ht Hfm. rewrite (find_elf_walk w m s Hm Hr Hk), find_elf_loop_spec by assumption. rewrite Hfm.
  eexists. split; [reflexivity|]. cbn [ps_errno]. apply (walk_error_last w _ ch), Ht.
Qed.

(** C28. When the matching file cannot be opened, [find_elf] frees the
    copy of its path but leaves [*file_name] pointing to it: the caller
    gets [-1] and a dangling file name. *)
Theorem find_elf_open_fails w m s f e :
  w_nomem w = [] -> ps_uts_release s <> EmptyString -> streq m KERNEL_MODNAME = false ->
  0 <= ps_next_fd s ->
  first_match m (alt_ref m) (fts_walk w (MODULEDIRFMT (ps_uts_release s))) = Some f ->
  file_lookup w (fts_path f) = inl e ->
  exists s', dwfl_linux_kernel_find_elf w m s = Done ((-1, NameFreed (fts_path f)), s') /\ ps_errno s' = e.
Proof.
  intros Hm Hr Hk Hn Hfm Hf. rewrite (find_elf_walk w m s Hm Hr Hk), find_elf_loop_spec by assumption. rewrite Hfm.
  unfold open_result. rewrite Hf. eexists. split; reflexivity.
Qed.

(** C17. For module [kernel], [find_elf] is [find_kernel_elf]: the file
    name it stores is the image of [kernel_image_spec] ([NULL] when there
    is none), and the descriptor is open exactly when there is one. *)
Theorem find_elf_kernel w s :
  w_nomem w = [] -> ps_uts_release s <> EmptyString -> 0 <= ps_next_fd s ->
  exists fd s', dwfl_linux_kernel_find_elf w KERNEL_MODNAME s =
                  Done ((fd, match kernel_image_spec w (ps_uts_release s) with
                             | Some f => NameSet f | None => NameNull end), s') /\
                image_result s s' fd (kernel_image_spec w (ps_uts_release s)).
Proof.
  intros Hm Hr Hn. rewrite find_elf_cached by exact Hr.
  destruct (streq_spec KERNEL_MODNAME KERNEL_MODNAME) as [_|C]; [|congruence].
  destruct (find_kernel_elf_run w (ps_uts_release s) s Hm Hn) as (fd & s' & E & R).
  exists fd, s'. split; [exact E | exact R].
Qed.

(** The matched file opens but its path cannot be copied: the
    descriptor is closed again. *)
Lemma open_match_nomem w path c s :
  file_lookup w path = inr c -> alloc_fails w (AStrdup path) = true ->
  0 <= ps_next_fd s -> fds_below s ->
  exists s', open_match w path s = Done ((-1, NameNull), s') /\ ps_fds s' = ps_fds s /\ ps_errno s' = ENOMEM.
Proof.
  intros Hf A Hn Hb. unfold open_match, sys_open64. rewrite bind_unfold. unfold log_path, modify at 1.
  cbn [bind]. rewrite Hf. cbn -[alloc_fails]. unfold sys_strdup. rewrite A. cbn -[alloc_fails].
  destruct (Z.ltb_spec (ps_next_fd s) 0); [lia|]. eexists. split; [reflexivity|].
  split; [cbn; apply close_fresh, fds_below_fresh, Hb | reflexivity].
Qed.

(** When the matching file opens but the copy of its path cannot be
    allocated ([strdup] returns [NULL]), [find_elf] closes the descriptor
    it just opened and returns [-1] with [*file_name] [NULL] and [errno]
    [ENOMEM]: the descriptor table is as before the call. *)
Theorem find_elf_strdup_fails w m s f c :
  ps_uts_release s <> EmptyString -> streq m KERNEL_MODNAME = false ->
  0 <= ps_next_fd s -> fds_below s ->
  alloc_fails w (AAsprintf (MODULEDIRFMT (ps_uts_release s))) = false ->
  alloc_fails w (AFtsOpen (MODULEDIRFMT (ps_uts_release s))) = false ->
  first_match m (alt_ref m) (fts_walk w (MODULEDIRFMT (ps_uts_release s))) = Some f ->
  file_lookup w (fts_path f) = inr c -> alloc_fails w (AStrdup (fts_path f)) = true ->
  exists s', dwfl_linux_kernel_find_elf w m s = Done ((-1, NameNull), s') /\
             ps_fds s' = ps_fds s /\ ps_errno s' = ENOMEM.
Proof.
  intros Hr Hk Hn Hb A1 A2 Hfm Hf A3.
  rewrite (find_elf_walk_alloc w m s A1 A2 Hr Hk), find_elf_loop_first, Hfm.
  exact (open_match_nomem w _ c (mkPstate (ps_errno s) (ps_fds s) (ps_next_fd s)
    (ps_log s ++ [MODULEDIRFMT (ps_uts_release s)]) (ps_uts_release s)) Hf A3 Hn Hb).
Qed.

(** ** The loop as a transition system

    The [while ((f = fts_read (fts)) != NULL)] loop one iteration at a
    time: at [fts_read] with the entries still to come, [error] and the
    process state, or returned from the function. *)
Inductive fe_state : Type :=
| FERead (es : list ftsent) (error : Z) (s : pstate)
| FEReturn (r : Z * out_name) (s : pstate).

Inductive fe_step (w : world) (m alt : string) : fe_state -> fe_state -> Prop :=
| fe_exhausted error s :
    fe_step w m alt (FERead [] error s)
      (FEReturn (-1, NameUnset) (mkPstate error (ps_fds s) (ps_next_fd s) (ps_log s) (ps_uts_release s)))
| fe_found f es error s r s' :
    fts_is_file (fts_info_of f) && ko_match m alt (fts_name f) = true ->
    open_match w (fts_path f) s = Done (r, s') ->
    fe_step w m alt (FERead (f :: es) error s) (FEReturn r s')
| fe_next f es error s :
    fts_is_file (fts_info_of f) && ko_match m alt (fts_name f) = false ->
    fe_step w m alt (FERead (f :: es) error s) (FERead es (entry_error f) s).

(** A returned function takes no more steps. *)
Lemma fe_return_final w m alt r s st : ~ fe_step w m alt (FEReturn r s) st.
Proof. intros H. inversion H. Qed.

(** The matched file is always opened to a result: no libc call of
    [open_match] is undefined. *)
Lemma open_match_done w path s : exists r s', open_match w path s = Done (r, s').
Proof.
  unfold open_match. rewrite bind_unfold. unfold sys_open64. rewrite bind_unfold.
  unfold log_path, modify. cbn -[alloc_fails].
  destruct (file_lookup w path); cbn -[alloc_fails]; unfold sys_strdup;
    destruct (alloc_fails w (AStrdup path)); cbn -[alloc_fails];
    repeat match goal with |- context [if ?b then _ else _] => destruct b end; eauto.
Qed.

(** The loop takes the same steps as [find_elf_loop]. *)
Lemma find_elf_loop_star w m alt es err s r s' :
  find_elf_loop w m alt es err s = Done (r, s') ->
  star (fe_step w m alt) (FERead es err s) (FEReturn r s').
Proof.
  revert err s. induction es as [|f es IH]; intros err s Hrun.
  - cbn in Hrun. injection Hrun as <- <-. eapply star_step; [apply fe_exhausted | apply star_refl].
  - cbn [find_elf_loop] in Hrun.
    destruct (fts_is_file (fts_info_of f) && ko_match m alt (fts_name f)) eqn:Hm.
    + apply andb_true_iff in Hm as Hm'. destruct Hm' as [Hf Hk]. rewrite Hf, Hk in Hrun.
      eapply star_step; [eapply fe_found; eassumption | apply star_refl].
    + eapply star_step; [apply fe_next, Hm|]. apply IH.
      unfold entry_error. destruct (fts_is_file (fts_info_of f)) eqn:Hf.
      * cbn in Hm. rewrite Hm in Hrun. destruct (fts_info_of f); try discriminate Hf; exact Hrun.
      * destruct (fts_is_error (fts_info_of f)); exact Hrun.
Qed.

(** And a run of the transition system to a return is the loop's. *)
Lemma star_find_elf_loop w m alt es err s r s' :
  star (fe_step w m alt) (FERead es err s) (FEReturn r s') ->
  find_elf_loop w m alt es err s = Done (r, s').
Proof.
  revert err s. induction es as [|f es IH]; intros err s Hs;
    inversion Hs as [|? st2 ? Hstep Hrest]; subst; inversion Hstep; subst.
  - inversion Hrest as [|? ? ? Hx]; [reflexivity | inversion Hx].
  - inversion Hrest as [|? ? ? Hx]; subst; [|inversion Hx].
    cbn [find_elf_loop]. match goal with H : _ && _ = true |- _ => apply andb_true_iff in H as [-> ->] end.
    assumption.
  - cbn [find_elf_loop]. specialize (IH _ _ Hrest).
    match goal with H : _ && _ = false |- _ => rename H into Hm end.
    unfold entry_error in IH. destruct (fts_is_file (fts_info_of f)) eqn:Hf.
    + cbn in Hm. rewrite Hm. destruct (fts_info_of f); try discriminate Hf; exact IH.
    + destruct (fts_is_error (fts_info_of f)); exact IH.
Qed.

(** Liveness of the [fts_read] loop of [find_elf]: from any point of
    the walk, the loop reaches the [return] of the function (a match
    opened, or the walk exhausted), and every run that returns returns
    the same result and state, the one [find_elf_loop] computes. *)
Theorem find_elf_loop_returns w m alt es err s :
  exists r s', star (fe_step w m alt) (FERead es err s) (FEReturn r s') /\
               find_elf_loop w m alt es err s = Done (r, s') /\
               forall r' s'', star (fe_step w m alt) (FERead es err s) (FEReturn r' s'') -> r' = r /\ s'' = s'.
Proof.
  assert (Hdone : exists r s', find_elf_loop w m alt es err s = Done (r, s')).
  { revert err s. induction es as [|f es IH]; intros err s; cbn [find_elf_loop]; [eauto|].
    destruct (fts_is_file (fts_info_of f));
      [destruct (ko_match m alt (fts_name f)); [apply open_match_done | apply IH]
      | destruct (fts_is_error (fts_info_of f)); apply IH]. }
  destruct Hdone as (r & s' & E). exists r, s'. split; [apply find_elf_loop_star, E|]. split; [exact E|].
  intros r' s'' Hs. apply star_find_elf_loop in Hs. rewrite E in Hs. injection Hs as <- <-. split; reflexivity.
Qed.

(** ** Witnesses *)

(** The release is cached; the tree has [usb-storage.ko], spelled with
    [-], and a directory [fts] cannot read. *)
Definition usb_path : string := "/lib/modules/2.6.23/kernel/drivers/usb/storage/usb-storage.ko".

Definition find_tree : list fnode :=
  [NDir "kernel" [NDir "drivers" [NDir "usb" [NDir "storage" [NFile "usb-storage.ko"]]]];
   NUnreadable "extra" EACCES].

Definition find_host (usb : fentry) : world :=
  mkWorld {[ usb_path := usb ]} {[ "/lib/modules/2.6.23" := find_tree ]} (Some "2.6.23") EACCES 4096
          None kernel_finder [].

Definition fstate0 : pstate := mkPstate 0 [] 3 [] "2.6.23".

Lemma find_elf_refines_witness :
  dwfl_linux_kernel_find_elf (find_host (FReg "ELF")) "usb_storage" fstate0 =
    match first_match "usb_storage" (alt_ref "usb_storage") (fts_walk (find_host (FReg "ELF")) (MODULEDIRFMT "2.6.23")) with
    | Some f => open_result (find_host (FReg "ELF")) (mkPstate 0 [] 3 [MODULEDIRFMT "2.6.23"] "2.6.23") (fts_path f)
    | None => Done ((-1, NameUnset),
                    mkPstate (fold_left (fun _ f => entry_error f) (fts_walk (find_host (FReg "ELF")) (MODULEDIRFMT "2.6.23")) ENOENT)
                             [] 3 [MODULEDIRFMT "2.6.23"] "2.6.23")
    end.
Proof. apply find_elf_refines; try reflexivity; [discriminate | unfold fstate0; simpl; lia]. Defined.

(** It opens [usb-storage.ko] for the live name [usb_storage]. *)
Lemma find_elf_usb_storage :
  dwfl_linux_kernel_find_elf (find_host (FReg "ELF")) "usb_storage" fstate0 =
    Done ((3, NameSet usb_path), mkPstate 0 [3] 4 [MODULEDIRFMT "2.6.23"; usb_path] "2.6.23").
Proof. vm_compute. reflexivity. Qed.

Lemma find_elf_errors_lost_witness :
  exists s', dwfl_linux_kernel_find_elf (find_host (FReg "ELF")) "nfsd" fstate0 = Done ((-1, NameUnset), s') /\
             ps_errno s' = ENOENT.
Proof.
  apply (find_elf_errors_lost _ _ _ find_tree); try reflexivity;
    [discriminate | unfold fstate0; simpl; lia].
Defined.

Lemma find_elf_open_fails_witness :
  exists s', dwfl_linux_kernel_find_elf (find_host (FErr EACCES)) "usb_storage" fstate0 =
               Done ((-1, NameFreed (fts_path (mkFtsent FTS_F "usb-storage.ko" usb_path 0))), s') /\
             ps_errno s' = EACCES.
Proof.
  apply find_elf_open_fails; try reflexivity; [discriminate | unfold fstate0; simpl; lia].
Defined.

Lemma find_elf_kernel_witness :
  exists fd s', dwfl_linux_kernel_find_elf (find_host (FReg "ELF")) KERNEL_MODNAME fstate0 =
                  Done ((fd, match kernel_image_spec (find_host (FReg "ELF")) (ps_uts_release fstate0) with
                             | Some f => NameSet f | None => NameNull end), s') /\
                image_result fstate0 s' fd (kernel_image_spec (find_host (FReg "ELF")) (ps_uts_release fstate0)).
Proof. apply find_elf_kernel; [reflexivity | discriminate | unfold fstate0; simpl; lia]. Defined.

(** The same host when [strdup] of the module's path fails. *)
Definition find_host_nomem : world :=
  mkWorld {[ usb_path := FReg "ELF" ]} {[ "/lib/modules/2.6.23" := find_tree ]} (Some "2.6.23") EACCES 4096
          None kernel_finder [AStrdup usb_path].

Lemma find_elf_strdup_fails_witness :
  exists s', dwfl_linux_kernel_find_elf find_host_nomem "usb_storage" fstate0 = Done ((-1, NameNull), s') /\
             ps_fds s' = ps_fds fstate0 /\ ps_errno s' = ENOMEM.
Proof.
  apply (find_elf_strdup_fails _ _ _ (mkFtsent FTS_F "usb-storage.ko" usb_path 0) "ELF");
    try reflexivity; [discriminate | unfold fstate0; simpl; lia | constructor].
Defined.
