(* ===== verification/Session.v ===== *)
(** * A debugging session: the callbacks one after the other

    libdwfl calls the entry points of the C file in any order and any
    number of times on one process: [dwfl_linux_kernel_report_kernel],
    [dwfl_linux_kernel_report_offline], [dwfl_linux_kernel_report_modules],
    [dwfl_linux_kernel_find_elf] and
    [dwfl_linux_kernel_module_section_address]. They share the process
    state: [errno], the open descriptors, the static [utsname] buffer.

    [session_step] is one call of any of them, with any arguments;
    [star session_step] is a session. [sess_rel] is what every call
    preserves: the descriptor table stays well formed ([ps_ok]: distinct
    open descriptors, all below the next one), the next descriptor only
    grows, the log of probed paths is only appended to, and a cached
    release never changes. The proofs go through [Evolves]: one lemma per
    libc primitive, then each C function in the order the code calls
    them. The registry part of the state is related by a preorder that
    [dwfl_report_module], [dwfl_report_elf] and [dwfl_report_offline]
    preserve (Section [WithRegistry]); with the monotonicity laws of
    [RegistryLaws] every module found stays found with the same bounds,
    so a reported kernel is never reported again ([session_kernel_kept]);
    with the preorder "keeps [lr_wf]" the reference registry keeps unique
    names and well-formed ranges ([session_registry_wf]). *)

From Stdlib Require Import ZArith Lia String List RelationClasses.
From stdpp Require Import base list strings gmap.
From S2P Require Import Prelude Evolves CNum Scanf Os Fts ModName Registry Kallsyms SectionAddress ModuleList Kernel Offline FindElf.

Local Open Scope Z_scope.

(** ** The relation every call preserves *)

(** The descriptor table of a well-formed process. *)
Definition ps_ok (s : pstate) : Prop :=
  NoDup (ps_fds s) /\ Forall (fun fd => 0 <= fd < ps_next_fd s) (ps_fds s) /\ 0 <= ps_next_fd s.

Definition sess_rel (s s' : pstate) : Prop :=
  (ps_ok s -> ps_ok s') /\
  (exists l, ps_log s' = ps_log s ++ l) /\
  ps_next_fd s <= ps_next_fd s' /\
  (ps_uts_release s <> EmptyString -> ps_uts_release s' = ps_uts_release s).

#[export] Instance sess_rel_preorder : PreOrder sess_rel.
Proof.
  split.
  - intros s. split; [tauto|]. split; [exists []; rewrite app_nil_r; reflexivity|]. split; [lia | tauto].
  - intros s1 s2 s3 (O12 & [l1 L12] & N12 & U12) (O23 & [l2 L23] & N23 & U23).
    split; [tauto|]. split; [exists (l1 ++ l2); rewrite L23, L12; symmetry; apply app_assoc|].
    split; [lia|]. intros Hu. rewrite (U23 ltac:(rewrite (U12 Hu); exact Hu)). apply U12, Hu.
Qed.

(** A step that changes only [errno], the log or the release buffer. *)
Lemma sess_rel_same_fds s s' :
  ps_fds s' = ps_fds s -> ps_next_fd s' = ps_next_fd s ->
  (exists l, ps_log s' = ps_log s ++ l) ->
  (ps_uts_release s <> EmptyString -> ps_uts_release s' = ps_uts_release s) ->
  sess_rel s s'.
Proof.
  intros F N L U. unfold sess_rel, ps_ok. rewrite F, N. split; [tauto|]. split; [exact L|]. split; [lia | exact U].
Qed.

(** ** The libc primitives *)

Lemma evolves_set_errno e : evolves sess_rel (set_errno e).
Proof.
  apply evolves_modify. intros s.
  apply sess_rel_same_fds; [reflexivity | reflexivity | exists []; rewrite app_nil_r; reflexivity | intros; reflexivity].
Qed.

Lemma evolves_get_errno : evolves sess_rel get_errno.
Proof. apply evolves_pure; [typeclasses eauto|]. intros s a s' [= _ <-]. reflexivity. Qed.

Lemma evolves_log_path p : evolves sess_rel (log_path p).
Proof.
  apply evolves_modify. intros s.
  apply sess_rel_same_fds; [reflexivity | reflexivity | exists [p]; reflexivity | intros; reflexivity].
Qed.

Lemma evolves_alloc_fd : evolves sess_rel alloc_fd.
Proof.
  intros s fd s' [= <- <-]. unfold sess_rel, ps_ok. cbn.
  split; [|split; [exists []; rewrite app_nil_r; reflexivity | split; [lia | tauto]]].
  intros (Hnd & Hr & Hn). split; [|split; [|lia]].
  - constructor; [|exact Hnd]. intros Hin. rewrite List.Forall_forall in Hr.
    specialize (Hr _ (proj1 (list_elem_of_In _ _) Hin)). lia.
  - constructor; [lia|]. eapply List.Forall_impl; [|exact Hr]. intros x Hx. cbv beta in *. lia.
Qed.

Lemma evolves_sys_close fd : evolves sess_rel (sys_close fd).
Proof.
  apply evolves_modify. intros s. unfold sess_rel, ps_ok. cbn.
  split; [|split; [exists []; rewrite app_nil_r; reflexivity | split; [lia | tauto]]].
  intros (Hnd & Hr & Hn). split; [|split; [|exact Hn]].
  - apply NoDup_ListNoDup, List.NoDup_filter, NoDup_ListNoDup, Hnd.
  - apply List.Forall_forall. intros x Hx. apply List.filter_In in Hx as [Hx _].
    rewrite List.Forall_forall in Hr. apply Hr, Hx.
Qed.

Lemma evolves_get_uts_release : evolves sess_rel get_uts_release.
Proof. apply evolves_pure; [typeclasses eauto|]. intros s a s' [= _ <-]. reflexivity. Qed.

Lemma evolves_lift_exec {A} (e : exec A) : evolves sess_rel (lift_exec e).
Proof. apply evolves_pure; [typeclasses eauto|]. unfold lift_exec. intros s a s'. destruct e; [intros [= _ <-] | discriminate]. reflexivity. Qed.

#[export] Hint Resolve evolves_set_errno evolves_get_errno evolves_log_path evolves_alloc_fd
  evolves_sys_close evolves_get_uts_release evolves_lift_exec : evolve.


Lemma evolves_sys_fopen w p : evolves sess_rel (sys_fopen w p).
Proof. unfold sys_fopen. evolve. Qed.

Lemma evolves_sys_open64 w p : evolves sess_rel (sys_open64 w p).
Proof. unfold sys_open64. evolve. Qed.

Lemma evolves_sys_uname w : evolves sess_rel (sys_uname w).
Proof. unfold sys_uname. evolve. Qed.

Lemma evolves_sys_find_debuginfo w f l : evolves sess_rel (sys_find_debuginfo w f l).
Proof. unfold sys_find_debuginfo. evolve. Qed.

Lemma evolves_sys_asprintf w p : evolves sess_rel (sys_asprintf w p).
Proof. unfold sys_asprintf. evolve. Qed.

Lemma evolves_sys_strdup w p : evolves sess_rel (sys_strdup w p).
Proof. unfold sys_strdup. evolve. Qed.

Lemma evolves_sys_fts_open w root : evolves sess_rel (sys_fts_open w root).
Proof. unfold sys_fts_open. evolve. Qed.

Lemma evolves_sys_stream_end f at_end : evolves sess_rel (sys_stream_end f at_end).
Proof. unfold sys_stream_end. evolve. Qed.

#[export] Hint Resolve evolves_sys_fopen evolves_sys_open64 evolves_sys_uname
  evolves_sys_find_debuginfo evolves_sys_asprintf evolves_sys_strdup evolves_sys_fts_open
  evolves_sys_stream_end : evolve.

(** ** The functions of the C file *)

Lemma sess_rel_set_uts s s1 r :
  sess_rel s s1 -> ps_uts_release s = EmptyString ->
  sess_rel s (mkPstate (ps_errno s1) (ps_fds s1) (ps_next_fd s1) (ps_log s1) r).
Proof. intros (O & L & N & _) He. split; [exact O | split; [exact L | split; [exact N | congruence]]]. Qed.

(** [kernel_release] fills the [utsname] buffer only while it is empty. *)
Lemma evolves_kernel_release w : evolves sess_rel (kernel_release w).
Proof.
  intros s a s'. unfold kernel_release. rewrite bind_unfold. cbn [get_uts_release].
  destruct (streq_spec (ps_uts_release s) EmptyString) as [He|Hne].
  - rewrite bind_unfold. destruct (sys_uname w s) as [[u s1]|why] eqn:E; [|discriminate].
    pose proof (evolves_sys_uname w _ _ _ E) as R1.
    destruct u as [r|]; cbn; intros [= _ <-]; [apply sess_rel_set_uts; assumption | exact R1].
  - intros [= _ <-]. reflexivity.
Qed.

Lemma evolves_try_kernel_name w f : evolves sess_rel (try_kernel_name w f).
Proof. unfold try_kernel_name. evolve. Qed.

Lemma evolves_find_kernel_elf w rel : evolves sess_rel (find_kernel_elf w rel).
Proof. unfold find_kernel_elf. evolve; apply evolves_try_kernel_name. Qed.

Lemma evolves_call_predicate p m f : evolves sess_rel (call_predicate p m f).
Proof. unfold call_predicate. evolve. Qed.

Lemma evolves_errno_or_enoent : evolves sess_rel errno_or_enoent.
Proof. unfold errno_or_enoent. evolve. Qed.

Lemma evolves_intuit_kernel_bounds w : evolves sess_rel (intuit_kernel_bounds w).
Proof. unfold intuit_kernel_bounds. evolve. Qed.

#[export] Hint Resolve evolves_kernel_release evolves_try_kernel_name evolves_find_kernel_elf
  evolves_call_predicate evolves_errno_or_enoent evolves_intuit_kernel_bounds : evolve.

Lemma evolves_trunc_try w dir secname init k : evolves sess_rel (trunc_try w dir secname init k).
Proof. unfold trunc_try. evolve. Qed.

Lemma evolves_trunc_loop w dir secname init k : evolves sess_rel (trunc_loop w dir secname init k).
Proof. induction k as [|k IH]; cbn [trunc_loop]; pose proof (evolves_trunc_try w dir secname init); evolve. Qed.

Lemma evolves_read_addr f : evolves sess_rel (read_addr f).
Proof. unfold read_addr. evolve. Qed.

#[export] Hint Resolve evolves_trunc_try evolves_trunc_loop evolves_read_addr : evolve.

Lemma evolves_sec_fallbacks w dir secname : evolves sess_rel (sec_fallbacks w dir secname).
Proof. unfold sec_fallbacks. evolve. Qed.

#[export] Hint Resolve evolves_sec_fallbacks : evolve.

Lemma evolves_section_address w modname secname : evolves sess_rel (section_address w modname secname).
Proof. unfold section_address. evolve. Qed.

Lemma evolves_find_elf_loop w m alt es err : evolves sess_rel (find_elf_loop w m alt es err).
Proof. revert err. induction es as [|f es IH]; intros err; cbn [find_elf_loop]; evolve. Qed.

#[export] Hint Resolve evolves_find_elf_loop : evolve.

Lemma evolves_find_elf w m : evolves sess_rel (dwfl_linux_kernel_find_elf w m).
Proof. unfold dwfl_linux_kernel_find_elf. evolve. Qed.

#[export] Hint Resolve evolves_section_address evolves_find_elf : evolve.

(** ** The callbacks that report to the registry

    The registry belongs to libdwfl; the C file only calls
    [dwfl_report_module], [dwfl_report_elf] and [dwfl_report_offline].
    What a session preserves of it is a preorder [keep] that each of the
    three preserves: nothing for [session_invariant], every module found
    with its bounds for [session_kernel_kept]. *)

Section WithRegistry.
Context {R : Type} `{Registry R} (keep : R -> R -> Prop) `{!PreOrder keep}.
Hypothesis keep_module : forall n lo hi r r', reg_report_module n lo hi r = Some r' -> keep r r'.
Hypothesis keep_elf : forall n f fd b r r', reg_report_elf n f fd b r = Some r' -> keep r r'.
Hypothesis keep_offline : forall n f fd r r', reg_report_offline n f fd r = Some r' -> keep r r'.

Definition sess_reg (st st' : pstate * R) : Prop := sess_rel (fst st) (fst st') /\ keep (snd st) (snd st').

#[local] Instance sess_reg_preorder : PreOrder sess_reg.
Proof.
  split.
  - intros st. split; reflexivity.
  - intros st1 st2 st3 [P12 K12] [P23 K23]. split; etransitivity; eassumption.
Qed.

Lemma evolves_reg_lift_fst {A} (m : M pstate A) : evolves sess_rel m -> evolves sess_reg (lift_fst m).
Proof.
  intros Hm [s r] a [s' r'] E. destruct (lift_fst_Done _ _ _ _ _ E) as (s1 & E1 & [= -> ->]).
  split; [exact (Hm _ _ _ E1) | reflexivity].
Qed.

Lemma evolves_get_reg : evolves sess_reg get_reg.
Proof. intros [s r] a st' [= _ <-]. reflexivity. Qed.

(** [dwfl_report_*] on the registry, then [k] or [k'] by its answer. *)
Lemma evolves_reg_update {A} (f : R -> option R) (k k' : M (pstate * R) A) :
  (forall r r', f r = Some r' -> keep r r') -> evolves sess_reg k -> evolves sess_reg k' ->
  evolves sess_reg (let* r := get_reg in match f r with Some r' => put_reg r';; k | None => k' end).
Proof.
  intros Hf Hk Hk' [s r] a st' E. rewrite bind_unfold in E. cbn [get_reg] in E.
  destruct (f r) as [r'|] eqn:F; [|exact (Hk' _ _ _ E)].
  rewrite bind_unfold in E. cbn [put_reg] in E.
  transitivity (s, r'); [split; [reflexivity | exact (Hf _ _ F)] | exact (Hk _ _ _ E)].
Qed.

Lemma evolves_with_reg {A} (f : R -> exec (A * R)) :
  (forall r a r', f r = Done (a, r') -> keep r r') -> evolves sess_reg (with_reg f).
Proof.
  intros Hf [s r] a [s' r']. unfold with_reg. destruct (f r) as [[b r1]|why] eqn:F; [|discriminate].
  intros [= _ <- <-]. split; [reflexivity | exact (Hf _ _ _ F)].
Qed.

Lemma modules_loop_keep ls r res eof r' : modules_loop ls r = Done (res, eof, r') -> keep r r'.
Proof.
  revert r. induction ls as [|l ls IH]; intros r; cbn [modules_loop]; [intros [= _ _ <-]; reflexivity|].
  destruct (sscanf modules_format l) as [cnt vals]. destruct (modname_overflow vals); [discriminate|].
  destruct (cnt =? 3), vals as [|[] [|[] [|[] ?]]]; try (intros [= _ _ <-]; reflexivity).
  destruct (reg_report_module _ _ _ r) as [r1|] eqn:E; [|intros [= _ _ <-]; reflexivity].
  intros Hrun. transitivity r1; [exact (keep_module _ _ _ _ _ E) | exact (IH _ Hrun)].
Qed.

#[local] Hint Resolve evolves_get_reg keep_module keep_elf keep_offline : evolve.

(** [evolve], with the registry updates and the process-only code. *)
Local Ltac evolve_reg :=
  repeat first
    [ solve [eauto with evolve]
    | refine (evolves_ret _ _)
    | refine (evolves_undefined _ _)
    | refine (evolves_reg_lift_fst _ _); solve [evolve]
    | refine (evolves_reg_update _ _ _ _ _ _); [intros ? ? ?; solve [eauto with evolve] | |]
    | refine (evolves_bind _ _ _ _ _); [| intros ?]
    | match goal with
      | |- evolves _ (match ?x with _ => _ end) => destruct x
      | |- evolves _ (if ?b then _ else _) => destruct b
      end ].

Lemma evolves_report_kernel w rel pred : evolves sess_reg (report_kernel w rel pred).
Proof. unfold report_kernel. evolve_reg. Qed.

Lemma evolves_report_bounds lo hi : evolves sess_reg (report_bounds lo hi).
Proof. unfold report_bounds. evolve_reg. Qed.

#[local] Hint Resolve evolves_report_kernel evolves_report_bounds : evolve.

Lemma evolves_report_kernel_cb w : evolves sess_reg (dwfl_linux_kernel_report_kernel w).
Proof. unfold dwfl_linux_kernel_report_kernel. evolve_reg. Qed.

Lemma evolves_report_modules w : evolves sess_reg (dwfl_linux_kernel_report_modules w).
Proof.
  unfold dwfl_linux_kernel_report_modules. evolve_reg.
  apply evolves_with_reg. intros r a r'.
  destruct (modules_loop _ r) as [[[res eof] r1]|why] eqn:E; [|discriminate].
  intros [= _ <-]. exact (modules_loop_keep _ _ _ _ _ E).
Qed.

Lemma evolves_report_offline_one name path : evolves sess_reg (report_offline name path).
Proof. unfold report_offline. evolve_reg. Qed.

#[local] Hint Resolve evolves_report_offline_one : evolve.

Lemma evolves_offline_loop pred es : evolves sess_reg (offline_loop pred es).
Proof. induction es as [|f es IH]; cbn [offline_loop]; evolve_reg. Qed.

Lemma evolves_alloc_modules_dir w rel : evolves sess_rel (alloc_modules_dir w rel).
Proof. unfold alloc_modules_dir. evolve. Qed.

#[local] Hint Resolve evolves_offline_loop evolves_alloc_modules_dir : evolve.

Lemma evolves_report_offline w rel pred : evolves sess_reg (dwfl_linux_kernel_report_offline w rel pred).
Proof. unfold dwfl_linux_kernel_report_offline. evolve_reg. Qed.

End WithRegistry.

(** ** Sessions *)

(** A call libdwfl makes, with its arguments. *)
Inductive callback : Type :=
| CReportKernel
| CReportOffline (release : option string) (pred : option predicate)
| CReportModules
| CFindElf (module_name : string)
| CSectionAddress (modname secname : string).

Section Sessions.
Context {R : Type} `{Registry R}.

(** Running a callback: its [int] result; the out-parameters
    ([*file_name], [*addr]) belong to the caller and are dropped. *)
Definition run_callback (w : world) (c : callback) : M (pstate * R) Z :=
  match c with
  | CReportKernel => dwfl_linux_kernel_report_kernel w
  | CReportOffline rel pred => dwfl_linux_kernel_report_offline w rel pred
  | CReportModules => dwfl_linux_kernel_report_modules w
  | CFindElf m => lift_fst (let* '(fd, _) := dwfl_linux_kernel_find_elf w m in ret fd)
  | CSectionAddress m sec => lift_fst (let* '(r, _) := section_address w m sec in ret r)
  end.

(** One call that returns. *)
Inductive session_step (w : world) : pstate * R -> pstate * R -> Prop :=
| sstep c st res st' : run_callback w c st = Done (res, st') -> session_step w st st'.

Section Kept.
Context (keep : R -> R -> Prop) `{!PreOrder keep}.
Hypothesis keep_module : forall n lo hi r r', reg_report_module n lo hi r = Some r' -> keep r r'.
Hypothesis keep_elf : forall n f fd b r r', reg_report_elf n f fd b r = Some r' -> keep r r'.
Hypothesis keep_offline : forall n f fd r r', reg_report_offline n f fd r = Some r' -> keep r r'.

Lemma session_step_keep w st st' : session_step w st st' -> sess_reg keep st st'.
Proof.
  intros [c s res s' E]. revert s res s' E. change (evolves (sess_reg keep) (run_callback w c)).
  pose proof (sess_reg_preorder keep).
  destruct c; cbn [run_callback];
    [ apply evolves_report_kernel_cb | apply evolves_report_offline | apply evolves_report_modules
    | refine (evolves_reg_lift_fst _ _ _) | refine (evolves_reg_lift_fst _ _ _) ]; auto; evolve.
Qed.

Lemma session_keep w st st' : star (session_step w) st st' -> sess_reg keep st st'.
Proof. pose proof (sess_reg_preorder keep). intros Hs. exact (star_preorder _ _ (session_step_keep w) st st' Hs). Qed.

End Kept.

(** Nothing of the registry is kept. *)
Definition reg_any (r r' : R) : Prop := True.

#[local] Instance reg_any_preorder : PreOrder reg_any.
Proof. split; repeat intro; exact I. Qed.

(** Whatever callbacks libdwfl calls, in any order and with any
    arguments, as long as each returns: a well-formed descriptor table
    stays well formed (open descriptors distinct, all below the next one,
    which only grows, so a number is never handed out twice), the paths
    probed are only ever appended to the log, and once [kernel_release]
    has cached a release it is never replaced. *)
Theorem session_invariant w (st st' : pstate * R) :
  star (session_step w) st st' -> ps_ok (fst st) ->
  ps_ok (fst st') /\
  (exists l, ps_log (fst st') = ps_log (fst st) ++ l) /\
  ps_next_fd (fst st) <= ps_next_fd (fst st') /\
  (ps_uts_release (fst st) <> EmptyString -> ps_uts_release (fst st') = ps_uts_release (fst st)).
Proof.
  intros Hs Hok.
  destruct (session_keep reg_any (fun _ _ _ _ _ _ => I) (fun _ _ _ _ _ _ _ => I) (fun _ _ _ _ _ _ => I) w st st' Hs)
    as [(O & L & N & U) _].
  split; [exact (O Hok) | split; [exact L | split; [exact N | exact U]]].
Qed.

(** C6. The release cache across a session: whatever callbacks libdwfl
    calls, once [kernel_release] has cached a release in its static
    [struct utsname] it is never replaced, and every later call of
    [kernel_release] returns it without asking [uname], whatever [uname]
    would now say (any [world] [w']). *)
Theorem session_release_cached w (st st' : pstate * R) :
  star (session_step w) st st' -> ps_uts_release (fst st) <> EmptyString ->
  ps_uts_release (fst st') = ps_uts_release (fst st) /\
  forall w', kernel_release w' (fst st') = Done (Some (ps_uts_release (fst st)), fst st').
Proof.
  intros Hs Hr.
  destruct (session_keep reg_any (fun _ _ _ _ _ _ => I) (fun _ _ _ _ _ _ _ => I) (fun _ _ _ _ _ _ => I) w st st' Hs)
    as [(_ & _ & _ & U) _].
  specialize (U Hr). split; [exact U|]. intros w'. rewrite <- U. apply kernel_release_cached. rewrite U. exact Hr.
Qed.

(** Every module found in the registry. *)
Definition reg_keeps (r r' : R) : Prop := forall n v, find_module n r = Some v -> find_module n r' = Some v.

#[local] Instance reg_keeps_preorder : PreOrder reg_keeps.
Proof. split; repeat intro; eauto. Qed.

(** C7. For a registry with the laws of [RegistryLaws], once the module
    [kernel] is reported with bounds [lo, hi], it keeps them whatever
    callbacks follow, and every later [dwfl_linux_kernel_report_kernel]
    returns [0] from the registry and changes nothing: the running
    kernel is reported once. *)
Theorem session_kernel_kept `{!RegistryLaws R} w (st st' : pstate * R) lo hi :
  star (session_step w) st st' -> find_module KERNEL_MODNAME (snd st) = Some (lo, hi) ->
  find_module KERNEL_MODNAME (snd st') = Some (lo, hi) /\
  dwfl_linux_kernel_report_kernel w st' = Done (0, st').
Proof.
  intros Hs F.
  destruct (session_keep reg_keeps (fun n lo hi r r' E n' v => report_module_monotone n lo hi r r' n' v E)
    (fun n f fd b r r' E n' v => report_elf_monotone n f fd b r r' n' v E)
    (fun n f fd r r' E n' v => report_offline_monotone n f fd r r' n' v E) w st st' Hs) as [_ K].
  specialize (K _ _ F). split; [exact K|]. destruct st' as [s' r'].
  unfold dwfl_linux_kernel_report_kernel. cbn [snd] in K.
  rewrite (report_kernel_cb_nonnull _ _ _ (find_module_nonnull _ _ _ K)), K. apply report_bounds_same, K.
Qed.

End Sessions.

(** ** The reference registry through a session *)

(** The registry after a step keeps [lr_wf] if it had it. *)
Definition lr_wf_kept (r r' : list_registry) : Prop := lr_wf r -> lr_wf r'.

#[local] Instance lr_wf_kept_preorder : PreOrder lr_wf_kept.
Proof. split; [intros r H; exact H | intros r1 r2 r3 H12 H23 H; exact (H23 (H12 H))]. Qed.

(** Whatever callbacks libdwfl calls on the reference registry, in
    any order and with any arguments, the registry keeps its invariant:
    module names stay unique (the specification's data model: a name is
    unique per registry) and every reported range has [low <= high]. *)
Theorem session_registry_wf w (st st' : pstate * list_registry) :
  star (session_step w) st st' -> lr_wf (snd st) -> lr_wf (snd st').
Proof.
  intros Hs. exact (proj2 (session_keep lr_wf_kept lr_report_module_wf lr_report_elf_wf lr_report_offline_wf w st st' Hs)).
Qed.

(** ** Witnesses *)

(** [dwfl_linux_kernel_report_kernel] then [find_elf] for [kernel] on the
    host of [Kernel]: the kernel is reported from [/proc/kallsyms], then
    its image is opened as descriptor 4 and the release cached. *)
Definition session_end : pstate * list_registry :=
  (mkPstate 0 [4] 5 [KSYMSFILE; vmlinux_debug] "2.6.23", kernel_at_spec_bounds).

Lemma pstate0_ok : ps_ok pstate0.
Proof. unfold ps_ok, pstate0. cbn. split; [constructor | split; [constructor | lia]]. Qed.

Lemma session_invariant_witness :
  ps_ok (fst session_end) /\
  (exists l, ps_log (fst session_end) = ps_log (fst (pstate0, kreg0)) ++ l) /\
  ps_next_fd (fst (pstate0, kreg0)) <= ps_next_fd (fst session_end) /\
  (ps_uts_release (fst (pstate0, kreg0)) <> EmptyString ->
   ps_uts_release (fst session_end) = ps_uts_release (fst (pstate0, kreg0))).
Proof.
  apply (session_invariant (kernel_host (FReg spec_kallsyms)) (pstate0, kreg0) session_end).
  - eapply star_step; [eapply (sstep _ CReportKernel); vm_compute; reflexivity|].
    eapply star_step; [eapply (sstep _ (CFindElf KERNEL_MODNAME)); vm_compute; reflexivity|].
    apply star_refl.
  - exact pstate0_ok.
Defined.

(** From [kstate1], where [kernel] is reported at the bounds of the
    spec's [/proc/kallsyms]: [find_elf] for [kernel] opens its image,
    then [dwfl_linux_kernel_report_modules] fails on a host without
    [/proc/modules]; [kernel] keeps its bounds. *)
Definition kept_end : pstate * list_registry :=
  (mkPstate ENOENT [4] 5 [KSYMSFILE; vmlinux_debug; MODULELIST] "2.6.23", kernel_at_spec_bounds).

Lemma session_kernel_kept_witness :
  find_module KERNEL_MODNAME (snd kept_end) = Some (0xffffffff81000000, 0xffffffff81e00000) /\
  dwfl_linux_kernel_report_kernel (kernel_host (FReg spec_kallsyms)) kept_end = Done (0, kept_end).
Proof.
  apply (session_kernel_kept (kernel_host (FReg spec_kallsyms)) (kstate1, kernel_at_spec_bounds) kept_end).
  - eapply star_step; [eapply (sstep _ (CFindElf KERNEL_MODNAME)); vm_compute; reflexivity|].
    eapply star_step; [eapply (sstep _ CReportModules); vm_compute; reflexivity|].
    apply star_refl.
  - vm_compute. reflexivity.
Defined.

(** On the offline host of [Offline]: [dwfl_linux_kernel_report_offline]
    reports [kernel] from its image and [i2c_core]; a second call has
    [dwfl_report_elf] refuse the kernel image again and returns [-1];
    [dwfl_linux_kernel_report_modules] then fails for want of
    [/proc/modules]. *)
Definition offline_session_end : pstate * list_registry :=
  (mkPstate ENOENT [3] 5 [vmlinux_debug; modules_dir "2.6.23"; vmlinux_debug; MODULELIST] EmptyString,
   mkListRegistry [mkModule KERNEL_MODNAME 0xffffffff81000000 0xffffffff81e00000; mkModule "i2c_core" 0 0x3000]
                  [3] offline_images).

Lemma session_registry_wf_witness : lr_wf (snd offline_session_end).
Proof.
  apply (session_registry_wf offline_host (pstate0, offline_reg0)).
  - eapply star_step; [eapply (sstep _ (CReportOffline (Some "2.6.23") None)); vm_compute; reflexivity|].
    eapply star_step; [eapply (sstep _ (CReportOffline (Some "2.6.23") None)); vm_compute; reflexivity|].
    eapply star_step; [eapply (sstep _ CReportModules); vm_compute; reflexivity|].
    apply star_refl.
  - apply (bool_decide_unpack _). vm_compute. exact I.
Defined.

(** The same session with the release already cached. *)
Definition cached0 : pstate := mkPstate 0 [] 3 [] "2.6.23".

Lemma session_release_cached_witness :
  ps_uts_release (fst session_end) = ps_uts_release (fst (cached0, kreg0)) /\
  forall w', kernel_release w' (fst session_end) = Done (Some (ps_uts_release (fst (cached0, kreg0))), fst session_end).
Proof.
  apply (session_release_cached (kernel_host (FReg spec_kallsyms)) (cached0, kreg0) session_end).
  - eapply star_step; [eapply (sstep _ CReportKernel); vm_compute; reflexivity|].
    eapply star_step; [eapply (sstep _ (CFindElf KERNEL_MODNAME)); vm_compute; reflexivity|].
    apply star_refl.
  - discriminate.
Defined.
